(** * The quantum-object state model of the exploration game

    A shallow embedding of [js/quantum.js] ([QuantumSystem], [QuantumObject]),
    of the [QuantumObject] variants of [js/objects.js], of the particle burst
    and score sink they call, and of the click handler of [js/player.js];
    then of the player's keys and motion, of the particle system's frame, of
    the level manager's difficulty and collection loop and of the portal's
    entry check.

    Conventions of the embedding.
    - A JavaScript number is a rational ([Q]).  Products, differences and
      the sums inside a formula are written exactly; overflow, underflow
      and NaN are not modelled.  Where a property turns on a rounded sum,
      the reach of the collision queries, the sum is the host's
      ([Number_add]), and no bound is stated that holds of the exact value
      only.  The collapsed states [0] and [1] and the score are integers
      ([Z]).
    - Objects live in a store ([heap]); a reference is an index into it.
      Materials live in a second store, since [this.material] and
      [this.mesh.material] alias each other.
    - Methods are computations in a state-and-exception monad [M]; a thrown
      [TypeError] keeps the side effects performed before it, as in the
      source.
    - An optional parameter is [undefined] when the call leaves it out;
      [null] is a value like any other ([Argument]).
    - [Math.random] reads the next entry of a tape carried by the world.
      The scene-graph library names what it constructs with four numbers
      from the same [Math.random] ([THREE_generateUUID]); the particle
      burst, whose own draws alternate with such constructions, takes them
      from the tape.  The constructors of the game draw the phase first;
      the names of their geometry, material and mesh are left out, and
      nothing is stated of the tape after a construction.
    - [Math.sin], [Math.cos] and [THREE.Vector3.distanceTo] belong to the host
      and to the scene-graph library; they are section variables, and so are
      the vector length, [normalize], the camera's [applyQuaternion] and the
      distance of [THREE.Vector2].
    - The page is taken as loaded: the elements the code looks up by id
      exist.  Whether the game has a player ([this.game.player]) is an
      input of the methods that test it. *)

From Stdlib Require Import QArith Qminmax ZArith Lia Lqa Bool Ascii String.
From stdpp Require Import base option list.

Local Open Scope Q_scope.

(** ** Numbers *)

(** [a < b] on numbers. *)
Definition Qltb (a b : Q) : bool := negb (Qle_bool b a).

(** [Math.PI], to the sixteen digits a double carries. *)
Definition Math_PI : Q := 3141592653589793 # 1000000000000000.

(** ** Data *)

Record Vector3 := mkVector3 { x : Q; y : Q; z : Q }.

(** A material: [opacity] and [color] are [None] when the property is
    undefined on the object. *)
Record Material := mkMaterial {
  opacity : option Q;
  color : option Z
}.

(** References into the two stores. *)
Abbreviation MatId := nat.
Abbreviation ObjId := nat.

Record Mesh := mkMesh {
  mesh_material : option MatId;
  mesh_position : Vector3;
  mesh_scale : Vector3
}.

Inductive Kind :=
| KObject | KBridge | KElevator | KDoor | KPowerup | KHazard
| KPlatform | KObstacle | KCollectible.

Inductive PowerupType := PEnergy | PSpeed | PObserver | POther.

(** One [QuantumObject].  The fields after [material] are the properties the
    variants add; they are [None] while the property is undefined. *)
Record QuantumObject := mkQuantumObject {
  kind : Kind;
  position : Vector3;
  size : Vector3;
  observedState : option Z;          (* None: null, superposition *)
  superpositionFactor : Q;
  collapseProbability : Q;
  mesh : option Mesh;
  material : option MatId;
  isHarmful : option bool;
  damage : option Q;
  isSolid : option bool;
  isOpen : option bool;
  minHeight : option Q;
  maxHeight : option Q;
  targetHeight : option Q;
  powerupType : option PowerupType;
  isCollected : option bool
}.

Record QuantumSystem := mkQuantumSystem {
  observerMode : bool;
  observerModeEnergy : Q;
  currentEnergy : Q;
  energyDrainRate : Q;
  energyRechargeRate : Q;
  quantumObjects : list ObjId;
  uniforms_time : Q;
  uniforms_observerMode : Q;
  uniforms_uncertainty : Q
}.

Record Particle := mkParticle {
  p_position : Vector3;
  p_velocity : Vector3;
  p_hue : Q;
  p_life : Q;
  p_maxLife : Q;
  p_initialOpacity : Q
}.

Inductive error := TypeError (msg : string).

(** What the code asks of its collaborators, in the order it asks. *)
Inductive Event :=
| EvCollapseEffect (p : Vector3)            (* particles.createCollapseEffect(p) *)
| EvUpdateScore (points : Z)                (* game.updateScore(points) *)
| EvSetObserverMode (o : ObjId) (b : bool)  (* obj.setObserverMode(b), from the broadcast *)
| EvConsoleError (e : error)                (* console.error(..., e) *)
| EvNotification (msg : string).            (* ui.showNotification(msg, ...) *)

(** The elements of the page the code writes to. *)
Record Page := mkPage {
  scoreValue : Z;            (* #scoreValue.textContent *)
  observerStatus : bool;     (* #observerStatus.textContent: ON / OFF *)
  quantum_fill : Q           (* #quantum-fill.style.width, in percent *)
}.

Record World := mkWorld {
  heap : list QuantumObject;
  materials : list Material;
  quantum : QuantumSystem;
  score : Z;
  particles : list Particle;
  random_tape : nat -> Q;
  random_pos : nat;
  page : Page;
  timers : list Q;           (* pending drain-rate restores, see [QuantumPowerup_collect] *)
  events : list Event
}.

(** *** Field updates *)

Definition with_heap (h : list QuantumObject) (w : World) : World :=
  mkWorld h (materials w) (quantum w) (score w) (particles w)
          (random_tape w) (random_pos w) (page w) (timers w) (events w).
Definition with_materials (m : list Material) (w : World) : World :=
  mkWorld (heap w) m (quantum w) (score w) (particles w)
          (random_tape w) (random_pos w) (page w) (timers w) (events w).
Definition with_quantum (q : QuantumSystem) (w : World) : World :=
  mkWorld (heap w) (materials w) q (score w) (particles w)
          (random_tape w) (random_pos w) (page w) (timers w) (events w).
Definition with_score (s : Z) (w : World) : World :=
  mkWorld (heap w) (materials w) (quantum w) s (particles w)
          (random_tape w) (random_pos w) (page w) (timers w) (events w).
Definition with_particles (p : list Particle) (w : World) : World :=
  mkWorld (heap w) (materials w) (quantum w) (score w) p
          (random_tape w) (random_pos w) (page w) (timers w) (events w).
Definition with_random_pos (n : nat) (w : World) : World :=
  mkWorld (heap w) (materials w) (quantum w) (score w) (particles w)
          (random_tape w) n (page w) (timers w) (events w).
Definition with_page (p : Page) (w : World) : World :=
  mkWorld (heap w) (materials w) (quantum w) (score w) (particles w)
          (random_tape w) (random_pos w) p (timers w) (events w).
Definition with_timers (t : list Q) (w : World) : World :=
  mkWorld (heap w) (materials w) (quantum w) (score w) (particles w)
          (random_tape w) (random_pos w) (page w) t (events w).
Definition with_events (e : list Event) (w : World) : World :=
  mkWorld (heap w) (materials w) (quantum w) (score w) (particles w)
          (random_tape w) (random_pos w) (page w) (timers w) e.

Definition with_observerMode (b : bool) (s : QuantumSystem) : QuantumSystem :=
  mkQuantumSystem b (observerModeEnergy s) (currentEnergy s) (energyDrainRate s)
    (energyRechargeRate s) (quantumObjects s) (uniforms_time s)
    (uniforms_observerMode s) (uniforms_uncertainty s).
Definition with_currentEnergy (e : Q) (s : QuantumSystem) : QuantumSystem :=
  mkQuantumSystem (observerMode s) (observerModeEnergy s) e (energyDrainRate s)
    (energyRechargeRate s) (quantumObjects s) (uniforms_time s)
    (uniforms_observerMode s) (uniforms_uncertainty s).
Definition with_energyDrainRate (r : Q) (s : QuantumSystem) : QuantumSystem :=
  mkQuantumSystem (observerMode s) (observerModeEnergy s) (currentEnergy s) r
    (energyRechargeRate s) (quantumObjects s) (uniforms_time s)
    (uniforms_observerMode s) (uniforms_uncertainty s).
Definition with_quantumObjects (l : list ObjId) (s : QuantumSystem) : QuantumSystem :=
  mkQuantumSystem (observerMode s) (observerModeEnergy s) (currentEnergy s)
    (energyDrainRate s) (energyRechargeRate s) l (uniforms_time s)
    (uniforms_observerMode s) (uniforms_uncertainty s).
Definition with_uniforms_time (t : Q) (s : QuantumSystem) : QuantumSystem :=
  mkQuantumSystem (observerMode s) (observerModeEnergy s) (currentEnergy s)
    (energyDrainRate s) (energyRechargeRate s) (quantumObjects s) t
    (uniforms_observerMode s) (uniforms_uncertainty s).
Definition with_uniforms_observerMode (v : Q) (s : QuantumSystem) : QuantumSystem :=
  mkQuantumSystem (observerMode s) (observerModeEnergy s) (currentEnergy s)
    (energyDrainRate s) (energyRechargeRate s) (quantumObjects s) (uniforms_time s)
    v (uniforms_uncertainty s).

Definition with_observedState (v : option Z) (o : QuantumObject) : QuantumObject :=
  mkQuantumObject (kind o) (position o) (size o) v (superpositionFactor o)
    (collapseProbability o) (mesh o) (material o) (isHarmful o) (damage o)
    (isSolid o) (isOpen o) (minHeight o) (maxHeight o) (targetHeight o)
    (powerupType o) (isCollected o).
Definition with_superpositionFactor (f : Q) (o : QuantumObject) : QuantumObject :=
  mkQuantumObject (kind o) (position o) (size o) (observedState o) f
    (collapseProbability o) (mesh o) (material o) (isHarmful o) (damage o)
    (isSolid o) (isOpen o) (minHeight o) (maxHeight o) (targetHeight o)
    (powerupType o) (isCollected o).
Definition with_mesh (m : option Mesh) (o : QuantumObject) : QuantumObject :=
  mkQuantumObject (kind o) (position o) (size o) (observedState o)
    (superpositionFactor o) (collapseProbability o) m (material o) (isHarmful o)
    (damage o) (isSolid o) (isOpen o) (minHeight o) (maxHeight o)
    (targetHeight o) (powerupType o) (isCollected o).
Definition with_position (p : Vector3) (o : QuantumObject) : QuantumObject :=
  mkQuantumObject (kind o) p (size o) (observedState o)
    (superpositionFactor o) (collapseProbability o) (mesh o) (material o)
    (isHarmful o) (damage o) (isSolid o) (isOpen o) (minHeight o) (maxHeight o)
    (targetHeight o) (powerupType o) (isCollected o).
Definition with_collapseProbability (p : Q) (o : QuantumObject) : QuantumObject :=
  mkQuantumObject (kind o) (position o) (size o) (observedState o)
    (superpositionFactor o) p (mesh o) (material o)
    (isHarmful o) (damage o) (isSolid o) (isOpen o) (minHeight o) (maxHeight o)
    (targetHeight o) (powerupType o) (isCollected o).
Definition with_material (m : option MatId) (o : QuantumObject) : QuantumObject :=
  mkQuantumObject (kind o) (position o) (size o) (observedState o)
    (superpositionFactor o) (collapseProbability o) (mesh o) m
    (isHarmful o) (damage o) (isSolid o) (isOpen o) (minHeight o) (maxHeight o)
    (targetHeight o) (powerupType o) (isCollected o).
Definition with_damage (d : option Q) (o : QuantumObject) : QuantumObject :=
  mkQuantumObject (kind o) (position o) (size o) (observedState o)
    (superpositionFactor o) (collapseProbability o) (mesh o) (material o)
    (isHarmful o) d (isSolid o) (isOpen o) (minHeight o) (maxHeight o)
    (targetHeight o) (powerupType o) (isCollected o).
Definition with_heights (lo hi : option Q) (o : QuantumObject) : QuantumObject :=
  mkQuantumObject (kind o) (position o) (size o) (observedState o)
    (superpositionFactor o) (collapseProbability o) (mesh o) (material o)
    (isHarmful o) (damage o) (isSolid o) (isOpen o) lo hi
    (targetHeight o) (powerupType o) (isCollected o).
Definition with_powerupType (t : option PowerupType) (o : QuantumObject) : QuantumObject :=
  mkQuantumObject (kind o) (position o) (size o) (observedState o)
    (superpositionFactor o) (collapseProbability o) (mesh o) (material o)
    (isHarmful o) (damage o) (isSolid o) (isOpen o) (minHeight o) (maxHeight o)
    (targetHeight o) t (isCollected o).
Definition with_isHarmful (b : option bool) (o : QuantumObject) : QuantumObject :=
  mkQuantumObject (kind o) (position o) (size o) (observedState o)
    (superpositionFactor o) (collapseProbability o) (mesh o) (material o) b
    (damage o) (isSolid o) (isOpen o) (minHeight o) (maxHeight o)
    (targetHeight o) (powerupType o) (isCollected o).
Definition with_isSolid (b : option bool) (o : QuantumObject) : QuantumObject :=
  mkQuantumObject (kind o) (position o) (size o) (observedState o)
    (superpositionFactor o) (collapseProbability o) (mesh o) (material o)
    (isHarmful o) (damage o) b (isOpen o) (minHeight o) (maxHeight o)
    (targetHeight o) (powerupType o) (isCollected o).
Definition with_isOpen (b : option bool) (o : QuantumObject) : QuantumObject :=
  mkQuantumObject (kind o) (position o) (size o) (observedState o)
    (superpositionFactor o) (collapseProbability o) (mesh o) (material o)
    (isHarmful o) (damage o) (isSolid o) b (minHeight o) (maxHeight o)
    (targetHeight o) (powerupType o) (isCollected o).
Definition with_targetHeight (h : option Q) (o : QuantumObject) : QuantumObject :=
  mkQuantumObject (kind o) (position o) (size o) (observedState o)
    (superpositionFactor o) (collapseProbability o) (mesh o) (material o)
    (isHarmful o) (damage o) (isSolid o) (isOpen o) (minHeight o) (maxHeight o)
    h (powerupType o) (isCollected o).
Definition with_isCollected (b : option bool) (o : QuantumObject) : QuantumObject :=
  mkQuantumObject (kind o) (position o) (size o) (observedState o)
    (superpositionFactor o) (collapseProbability o) (mesh o) (material o)
    (isHarmful o) (damage o) (isSolid o) (isOpen o) (minHeight o) (maxHeight o)
    (targetHeight o) (powerupType o) b.

Definition with_opacity (v : option Q) (m : Material) : Material :=
  mkMaterial v (color m).
Definition with_color (c : option Z) (m : Material) : Material :=
  mkMaterial (opacity m) c.
Definition with_mesh_scale (s : Vector3) (m : Mesh) : Mesh :=
  mkMesh (mesh_material m) (mesh_position m) s.

(** ** The monad of methods *)

Inductive completion (A : Type) :=
| Normal (a : A)
| Throw (e : error).
Arguments Normal {A} a.
Arguments Throw {A} e.

Definition M (A : Type) : Type := World -> completion A * World.

Definition ret {A} (a : A) : M A := fun w => (Normal a, w).
Definition bind {A B} (c : M A) (k : A -> M B) : M B :=
  fun w => match c w with
           | (Normal a, w') => k a w'
           | (Throw e, w') => (Throw e, w')
           end.
Definition throw {A} (e : error) : M A := fun w => (Throw e, w).
(** [try { c } catch (error) { h error }] *)
Definition try_catch (c : M unit) (h : error -> M unit) : M unit :=
  fun w => match c w with
           | (Normal a, w') => (Normal a, w')
           | (Throw e, w') => h e w'
           end.
Definition get {A} (f : World -> A) : M A := fun w => (Normal (f w), w).
Definition modify (f : World -> World) : M unit := fun w => (Normal tt, f w).

Declare Scope js_scope.
Delimit Scope js_scope with js.
Notation "'let*' v ':=' c 'in' k" := (bind c (fun v => k))
  (at level 10, v name, c at level 100, k at level 200) : js_scope.
Notation "c ';;;' k" := (bind c (fun _ => k))
  (at level 100, k at level 200, right associativity) : js_scope.
Local Open Scope js_scope.

Definition emit (e : Event) : M unit :=
  modify (fun w => with_events (events w ++ [e]) w).

(** [Math.random()] *)
Definition Math_random : M Q :=
  fun w => (Normal (random_tape w (random_pos w)), with_random_pos (S (random_pos w)) w).

(** [THREE.MathUtils.generateUUID()]: three.js names every geometry,
    material and scene-graph object it constructs, and takes the four numbers
    of a name from [Math.random]. *)
Definition THREE_generateUUID : M unit :=
  let* _d0 := Math_random in
  let* _d1 := Math_random in
  let* _d2 := Math_random in
  let* _d3 := Math_random in
  ret tt.

(** Reading and writing [this]. *)
Definition deref (this : ObjId) : M QuantumObject :=
  fun w => match heap w !! this with
           | Some o => (Normal o, w)
           | None => (Throw (TypeError "not an object"), w)
           end.
Definition update_this (this : ObjId) (f : QuantumObject -> QuantumObject) : M unit :=
  fun w => match heap w !! this with
           | Some o => (Normal tt, with_heap (<[this := f o]> (heap w)) w)
           | None => (Throw (TypeError "not an object"), w)
           end.

(** [m.opacity = v] on the material behind a reference. *)
Definition set_material_opacity (m : MatId) (v : Q) : M unit :=
  modify (fun w => match materials w !! m with
                   | Some mat => with_materials (<[m := with_opacity (Some v) mat]> (materials w)) w
                   | None => w
                   end).
Definition set_material_color (m : MatId) (c : Z) : M unit :=
  modify (fun w => match materials w !! m with
                   | Some mat => with_materials (<[m := with_color (Some c) mat]> (materials w)) w
                   | None => w
                   end).

(** [if (this.material && typeof this.material.opacity !== 'undefined')
      this.material.opacity = v] *)
Definition set_opacity_if_defined (mat : option MatId) (v : Q) : M unit :=
  match mat with
  | None => ret tt
  | Some m =>
      let* ms := get materials in
      match ms !! m with
      | Some mt => match opacity mt with
                   | Some _ => set_material_opacity m v
                   | None => ret tt
                   end
      | None => ret tt
      end
  end.

(** [this.mesh.material.opacity = v]: a [TypeError] when [this.mesh] or its
    material is missing. *)
Definition set_mesh_material_opacity (this : ObjId) (v : Q) : M unit :=
  let* o := deref this in
  match mesh o with
  | None => throw (TypeError "this.mesh is undefined")
  | Some m => match mesh_material m with
              | None => throw (TypeError "this.mesh.material is undefined")
              | Some mt => set_material_opacity mt v
              end
  end.

(** [this.material.color.set(c)]: a [TypeError] when [this.material] or its
    [color] is missing. *)
Definition material_color_set (this : ObjId) (c : Z) : M unit :=
  let* o := deref this in
  match material o with
  | None => throw (TypeError "this.material is undefined")
  | Some mt =>
      let* ms := get materials in
      match ms !! mt with
      | Some mat => match color mat with
                    | Some _ => set_material_color mt c
                    | None => throw (TypeError "this.material.color is undefined")
                    end
      | None => throw (TypeError "this.material is undefined")
      end
  end.

(** [this.material && this.material.color] *)
Definition has_material_color (o : QuantumObject) (ms : list Material) : bool :=
  match material o with
  | None => false
  | Some mt => match ms !! mt with
               | Some mat => match color mat with Some _ => true | None => false end
               | None => false
               end
  end.

(** Truthiness of a property holding a boolean or undefined. *)
Definition truthy (b : option bool) : bool :=
  match b with Some true => true | _ => false end.

(** ** game.updateScore (js/main.js) *)

Definition updateScore (points : Z) : M unit :=
  emit (EvUpdateScore points) ;;;
  modify (fun w => with_score (score w + points)%Z w) ;;;
  modify (fun w => with_page (mkPage (score w) (observerStatus (page w))
                                     (quantum_fill (page w))) w).

(** [new QuantumSystem(game)] *)
Definition new_QuantumSystem : QuantumSystem :=
  mkQuantumSystem false 100 100 15 8 [] 0 0 0.8.

(** The world when the game has been constructed and no level is loaded. *)
Definition initial (tape : nat -> Q) (pg : Page) : World :=
  mkWorld [] [] new_QuantumSystem 0 [] tape 0 pg [] [].

Section Host.

(** [Math.sin], [Math.cos] and [THREE.Vector3.distanceTo]. *)
Variable Math_sin : Q -> Q.
Variable Math_cos : Q -> Q.
Variable distanceTo : Vector3 -> Vector3 -> Q.
(** [THREE.Vector3.length], used by the bridge constructor. *)
Variable Vector3_length : Vector3 -> Q.
(** The host's [+] on two numbers: the sum, rounded to a number.  The
    collision queries compare a distance with such a sum, and their answer
    at the boundary is the answer for the rounded sum. *)
Variable Number_add : Q -> Q -> Q.

(** ** ParticleSystem.createCollapseEffect (js/objects.js)

    One turn of its loop.  [this.collapseMaterial.clone()] constructs a
    material and [new THREE.Mesh(...)] a scene-graph object: each draws its
    name between the draws of the loop body. *)

Definition collapseParticle (position : Vector3) : M unit :=
  let* r1 := Math_random in
  let theta := r1 * Math_PI * 2 in
  let* r2 := Math_random in
  let phi := r2 * Math_PI * 2 in
  let* r3 := Math_random in
  let speed := 2 + r3 * 3 in
  let velocity := mkVector3 (Math_sin theta * Math_cos phi * speed)
                            (Math_sin theta * Math_sin phi * speed)
                            (Math_cos theta * speed) in
  THREE_generateUUID ;;;
  let* r4 := Math_random in
  let hue := r4 * 0.2 + 0.4 in
  THREE_generateUUID ;;;
  let* r5 := Math_random in
  let* r6 := Math_random in
  modify (fun w => with_particles
    (particles w ++ [mkParticle position velocity hue (1 + r5 * 0.5) (1 + r6 * 0.5) 0.8]) w).

Fixpoint repeatM (n : nat) (c : M unit) : M unit :=
  match n with
  | O => ret tt
  | S n' => c ;;; repeatM n' c
  end.

Definition createCollapseEffect (position : Vector3) : M unit :=
  emit (EvCollapseEffect position) ;;;
  let numParticles := 12%nat in
  repeatM numParticles (collapseParticle position).

(** ** QuantumSystem: the pure helpers *)

Definition getWaveFunction (position : Vector3) (time : Q) : M Q :=
  let amplitude :=
    Math_sin (x position * 0.1 + y position * 0.1 + z position * 0.1 + time * 2) * 0.5 + 0.5 in
  ret amplitude.

Definition getSuperpositionState (position : Vector3) (time : Q) : M Q :=
  let state1 := Math_sin (x position * 0.2 + time * 1.5) * 0.5 + 0.5 in
  let state2 := Math_cos (z position * 0.3 + time * 2.0) * 0.5 + 0.5 in
  let state3 := Math_sin (y position * 0.25 + time * 1.0) * 0.5 + 0.5 in
  ret (state1 * 0.4 + state2 * 0.3 + state3 * 0.3).

(** ** QuantumObject: the base methods *)

Definition set_scale (this : ObjId) (m : Mesh) (f : Q) : M unit :=
  update_this this (with_mesh (Some (with_mesh_scale (mkVector3 f f f) m))).

Definition updateVisualState (this : ObjId) : M unit :=
  let* o := deref this in
  match mesh o with
  | None => ret tt
  | Some m =>
      match observedState o with
      | None =>
          set_scale this m (0.8 + superpositionFactor o * 0.4) ;;;
          set_opacity_if_defined (material o) (0.4 + superpositionFactor o * 0.4)
      | Some s =>
          let stateFactor := if (s =? 1)%Z then 1.2 else 0.8 in
          set_scale this m stateFactor ;;;
          set_opacity_if_defined (material o) 0.9
      end
  end.

Definition updateQuantumState (this : ObjId) (delta time : Q) : M unit :=
  let* o := deref this in
  match observedState o with
  | Some _ => ret tt
  | None =>
      let* f := getSuperpositionState (position o) time in
      update_this this (with_superpositionFactor f) ;;;
      updateVisualState this
  end.

(** What a call passes for [forcedState]: nothing, or a value, which is
    [null] ([None]) or a state. *)
Inductive Argument :=
| undefined
| value (v : option Z).

(** The calls of the properties below: the argument left out, or a state. *)
Definition arg (forcedState : option Z) : Argument :=
  match forcedState with
  | None => undefined
  | Some v => value (Some v)
  end.

(** [QuantumObject.prototype.collapse]: [forcedState !== undefined] holds of
    every value passed, [null] included. *)
Definition QuantumObject_collapse (this : ObjId) (forcedState : Argument) : M (option Z) :=
  match forcedState with
  | value v => update_this this (with_observedState v)
  | undefined =>
      let* r := Math_random in
      let* o := deref this in
      update_this this
        (with_observedState (Some (if Qltb r (collapseProbability o) then 1 else 0)%Z))
  end ;;;
  updateVisualState this ;;;
  let* o := deref this in
  createCollapseEffect (position o) ;;;
  updateScore 10 ;;;
  let* o' := deref this in
  ret (observedState o').

(** ** The variants' overrides of collapse (js/objects.js) *)

(** [state === v] on what collapse returned. *)
Definition state_is (state : option Z) (v : Z) : bool :=
  match state with
  | Some s => (s =? v)%Z
  | None => false
  end.

Definition QuantumBridge_collapse (this : ObjId) (forcedState : Argument) : M (option Z) :=
  let* state := QuantumObject_collapse this forcedState in
  (if state_is state 0 then
     set_mesh_material_opacity this 0.2 ;;;
     update_this this (with_isSolid (Some false))
   else
     set_mesh_material_opacity this 0.9 ;;;
     update_this this (with_isSolid (Some true))) ;;;
  ret state.

Definition QuantumElevator_collapse (this : ObjId) (forcedState : Argument) : M (option Z) :=
  let* state := QuantumObject_collapse this forcedState in
  update_this this
    (fun o => with_targetHeight (if state_is state 1 then maxHeight o else minHeight o) o) ;;;
  ret state.

Definition QuantumDoor_collapse (this : ObjId) (forcedState : Argument) : M (option Z) :=
  let* state := QuantumObject_collapse this forcedState in
  (if state_is state 1 then
     set_mesh_material_opacity this 0.2 ;;;
     update_this this (with_isOpen (Some true))
   else
     set_mesh_material_opacity this 0.9 ;;;
     update_this this (with_isOpen (Some false))) ;;;
  ret state.

Definition QuantumHazard_collapse (this : ObjId) (forcedState : Argument) : M (option Z) :=
  let* state := QuantumObject_collapse this forcedState in
  (if state_is state 1 then
     material_color_set this 0xff0000 ;;;
     update_this this (with_isHarmful (Some true))
   else
     material_color_set this 0x00ff00 ;;;
     update_this this (with_isHarmful (Some false))) ;;;
  ret state.

Definition QuantumPlatform_collapse (this : ObjId) (forcedState : Argument) : M (option Z) :=
  let* state := QuantumObject_collapse this forcedState in
  let* o := deref this in
  match mesh o with
  | Some m =>
      match mesh_material m with
      | Some mt =>
          if state_is state 0 then set_material_opacity mt 0.3
          else set_material_opacity mt 0.9
      | None => ret tt
      end
  | None => ret tt
  end ;;;
  ret state.

Definition QuantumObstacle_collapse (this : ObjId) (forcedState : Argument) : M (option Z) :=
  let* state := QuantumObject_collapse this forcedState in
  (if state_is state 1 then
     let* o := deref this in
     let* ms := get materials in
     (if has_material_color o ms then material_color_set this 0xff0000 else ret tt) ;;;
     update_this this (with_isHarmful (Some true))
   else
     let* o := deref this in
     let* ms := get materials in
     (if has_material_color o ms then material_color_set this 0x00ff00 else ret tt) ;;;
     update_this this (with_isHarmful (Some false))) ;;;
  ret state.

(** [obj.collapse(forcedState)]: the call goes to the method of the object's
    class. *)
Definition collapse (this : ObjId) (forcedState : Argument) : M (option Z) :=
  let* o := deref this in
  match kind o with
  | KBridge => QuantumBridge_collapse this forcedState
  | KElevator => QuantumElevator_collapse this forcedState
  | KDoor => QuantumDoor_collapse this forcedState
  | KHazard => QuantumHazard_collapse this forcedState
  | KPlatform => QuantumPlatform_collapse this forcedState
  | KObstacle => QuantumObstacle_collapse this forcedState
  | KObject | KPowerup | KCollectible => QuantumObject_collapse this forcedState
  end.

Definition setObserverMode (this : ObjId) (isObserverMode : bool) : M unit :=
  let* o := deref this in
  if isObserverMode && bool_decide (observedState o = None) then
    let* r := Math_random in
    if Qltb r 0.3 then
      try_catch (collapse this undefined ;;; ret tt)
                (fun error => emit (EvConsoleError error))
    else ret tt
  else ret tt.

(** ** Collision queries *)

Definition QuantumObstacle_checkPlayerCollision
    (this : ObjId) (playerPosition : Vector3) (playerRadius : Q) : M bool :=
  let* o := deref this in
  if negb (state_is (observedState o) 1) then ret false
  else
    let distance := distanceTo (position o) playerPosition in
    let combinedRadius := Number_add (x (size o) / 2) playerRadius in
    ret (Qltb distance combinedRadius).

Definition QuantumHazard_checkPlayerCollision
    (this : ObjId) (playerPosition : Vector3) (playerRadius : Q) : M bool :=
  let* o := deref this in
  if negb (truthy (isHarmful o)) then ret false
  else
    let distance := distanceTo (position o) playerPosition in
    let collisionRadius := Number_add (x (size o) / 2) playerRadius in
    ret (Qltb distance collisionRadius).

(** ** QuantumSystem: registry, energy, observer mode (js/quantum.js) *)

Definition modify_quantum (f : QuantumSystem -> QuantumSystem) : M unit :=
  modify (fun w => with_quantum (f (quantum w)) w).

Definition updateUniformTime (delta : Q) : M unit :=
  modify_quantum (fun s => with_uniforms_time (uniforms_time s + delta) s).

Definition registerQuantumObject (object : ObjId) : M unit :=
  modify_quantum (fun s => with_quantumObjects (quantumObjects s ++ [object]) s).

(** [array.indexOf(object)]: the first index holding the reference, or [-1]. *)
Fixpoint indexOf (l : list ObjId) (object : ObjId) : Z :=
  match l with
  | [] => -1
  | o :: l' =>
      if Nat.eqb o object then 0
      else let i := indexOf l' object in
           if (i =? -1)%Z then -1 else (i + 1)
  end%Z.

(** [array.splice(index, 1)] for an index in range. *)
Definition splice1 (l : list ObjId) (index : Z) : list ObjId :=
  delete (Z.to_nat index) l.

Definition unregisterQuantumObject (object : ObjId) : M unit :=
  let* l := get (fun w => quantumObjects (quantum w)) in
  let index := indexOf l object in
  if negb (index =? -1)%Z then
    modify_quantum (fun s => with_quantumObjects (splice1 (quantumObjects s) index) s)
  else ret tt.

(** [this.quantumObjects.forEach(callback)]: the length is read once, the
    elements are read from the live array at each index. *)
Fixpoint forEach_from (n k : nat) (callback : ObjId -> M unit) : M unit :=
  match n with
  | O => ret tt
  | S n' =>
      let* l := get (fun w => quantumObjects (quantum w)) in
      match l !! k with
      | Some obj => callback obj ;;; forEach_from n' (S k) callback
      | None => forEach_from n' (S k) callback
      end
  end.

Definition quantumObjects_forEach (callback : ObjId -> M unit) : M unit :=
  let* l := get (fun w => quantumObjects (quantum w)) in
  forEach_from (length l) 0 callback.

(** The body of the broadcast loop: [obj && typeof obj.setObserverMode ===
    'function'] holds exactly for the references to quantum objects. *)
Definition broadcast_callback (obj : ObjId) : M unit :=
  let* h := get heap in
  match h !! obj with
  | Some _ =>
      let* b := get (fun w => observerMode (quantum w)) in
      emit (EvSetObserverMode obj b) ;;;
      setObserverMode obj b
  | None => ret tt
  end.

(** What [toggleObserverMode] does once [this.observerMode] is assigned: the
    status element, the shader uniform, the broadcast. *)
Definition toggleObserverMode_apply : M unit :=
  modify (fun w => with_page (mkPage (scoreValue (page w))
             (observerMode (quantum w)) (quantum_fill (page w))) w) ;;;
  modify_quantum (fun s => with_uniforms_observerMode
             (if observerMode s then 1.0 else 0.0) s) ;;;
  quantumObjects_forEach broadcast_callback.

(** [forceState] is [None] when the argument is left out. *)
Definition toggleObserverMode (forceState : option bool) : M unit :=
  match forceState with
  | Some b =>
      modify_quantum (with_observerMode b) ;;;
      toggleObserverMode_apply
  | None =>
      let* s := get quantum in
      if negb (observerMode s) && Qle_bool (currentEnergy s) 0 then ret tt
      else
        modify_quantum (fun s => with_observerMode (negb (observerMode s)) s) ;;;
        toggleObserverMode_apply
  end.

Definition handleObserverModeEnergy (delta : Q) : M unit :=
  let* s := get quantum in
  (if observerMode s then
     modify_quantum (fun s => with_currentEnergy
        (Qmax 0 (currentEnergy s - energyDrainRate s * delta)) s) ;;;
     let* s' := get quantum in
     if Qle_bool (currentEnergy s') 0 then toggleObserverMode (Some false) else ret tt
   else
     modify_quantum (fun s => with_currentEnergy
        (Qmin (observerModeEnergy s) (currentEnergy s + energyRechargeRate s * delta)) s)) ;;;
  modify (fun w =>
    let percentage := (currentEnergy (quantum w) / observerModeEnergy (quantum w)) * 100 in
    with_page (mkPage (scoreValue (page w)) (observerStatus (page w)) percentage) w).

Definition updateQuantumObjects (delta : Q) : M unit :=
  quantumObjects_forEach (fun obj =>
    let* t := get (fun w => uniforms_time (quantum w)) in
    updateQuantumState obj delta t).

Definition update (delta : Q) : M unit :=
  updateUniformTime delta ;;;
  handleObserverModeEnergy delta ;;;
  updateQuantumObjects delta.

(** [QuantumObject.prototype.dispose] *)
Definition dispose (this : ObjId) : M unit :=
  let* o := deref this in
  match material o with
  | None => throw (TypeError "this.material is undefined")
  | Some _ => unregisterQuantumObject this
  end.


(** ** Constructors *)

(** [new THREE.ShaderMaterial({...})], what [createQuantumMaterial] returns
    whatever colour it is given: a material with the default opacity and no
    [color] property. *)
Definition createQuantumMaterial : M MatId :=
  fun w => (Normal (length (materials w)),
            with_materials (materials w ++ [mkMaterial (Some 1) None]) w).

(** [new THREE.MeshPhongMaterial({color, opacity, ...})] *)
Definition new_MeshPhongMaterial (c : Z) (op : Q) : M MatId :=
  fun w => (Normal (length (materials w)),
            with_materials (materials w ++ [mkMaterial (Some op) (Some c)]) w).

Definition new_Mesh (mt : MatId) (position : Vector3) : Mesh :=
  mkMesh (Some mt) position (mkVector3 1 1 1).

(** [new QuantumObject(game, position, size)], run for an object of class
    [k]: the fresh reference is the next free index of the store. *)
Definition new_QuantumObject (k : Kind) (position size : Vector3) : M ObjId :=
  let* r := Math_random in
  let* mt := createQuantumMaterial in
  let* this := get (fun w => length (heap w)) in
  modify (fun w => with_heap (heap w ++
    [mkQuantumObject k position size None r 0.5 (Some (new_Mesh mt position)) (Some mt)
       None None None None None None None None None]) w) ;;;
  registerQuantumObject this ;;;
  ret this.

(** The variants replace the mesh and the material after [super(...)]. *)
Definition replace_mesh (this : ObjId) (mt : MatId) : M unit :=
  update_this this (fun o =>
    with_mesh (Some (new_Mesh mt (position o))) (with_material (Some mt) o)).

(** [this.material = ...; this.mesh.material = this.material] *)
Definition replace_material (this : ObjId) (mt : MatId) : M unit :=
  update_this this (fun o =>
    with_mesh (option_map (fun m => mkMesh (Some mt) (mesh_position m) (mesh_scale m)) (mesh o))
              (with_material (Some mt) o)).

Definition new_QuantumBridge (startPosition endPosition : Vector3) (width : Q) : M ObjId :=
  let direction := mkVector3 (x endPosition - x startPosition)
                             (y endPosition - y startPosition)
                             (z endPosition - z startPosition) in
  let length := Vector3_length direction in
  let center := mkVector3 ((x startPosition + x endPosition) * 0.5)
                          ((y startPosition + y endPosition) * 0.5)
                          ((z startPosition + z endPosition) * 0.5) in
  let* this := new_QuantumObject KBridge center (mkVector3 width 0.2 length) in
  let* mt := createQuantumMaterial in
  replace_mesh this mt ;;;
  update_this this (with_collapseProbability 0.8) ;;;
  ret this.

Definition new_QuantumElevator (pos size : Vector3) (minH maxH : Q) : M ObjId :=
  let* this := new_QuantumObject KElevator pos size in
  update_this this (with_heights (Some minH) (Some maxH)) ;;;
  update_this this (fun o =>
    with_position (mkVector3 (x (position o)) (minH + y size / 2) (z (position o))) o) ;;;
  update_this this (fun o => with_targetHeight (Some (y (position o))) o) ;;;
  let* mt := createQuantumMaterial in
  replace_material this mt ;;;
  update_this this (with_collapseProbability 0.5) ;;;
  ret this.

Definition new_QuantumDoor (position : Vector3) (width height : Q) : M ObjId :=
  let* this := new_QuantumObject KDoor position (mkVector3 width height 0.2) in
  update_this this (with_isOpen (Some false)) ;;;
  let* mt := createQuantumMaterial in
  replace_material this mt ;;;
  ret this.

Definition powerup_color (t : PowerupType) : Z :=
  match t with
  | PEnergy => 0x00ffff
  | PSpeed => 0xffff00
  | PObserver => 0xff00ff
  | POther => 0xffffff
  end.

Definition new_QuantumPowerup (position : Vector3) (type : PowerupType) : M ObjId :=
  let* this := new_QuantumObject KPowerup position (mkVector3 0.5 0.5 0.5) in
  update_this this (with_powerupType (Some type)) ;;;
  update_this this (with_isCollected (Some false)) ;;;
  let* mt := new_MeshPhongMaterial (powerup_color type) 0.9 in
  replace_mesh this mt ;;;
  let* _time := Math_random in
  ret this.

Definition new_QuantumHazard (position : Vector3) (size : Q) : M ObjId :=
  let* this := new_QuantumObject KHazard position (mkVector3 size size size) in
  let* mt := createQuantumMaterial in
  replace_mesh this mt ;;;
  update_this this (with_damage (Some 20)) ;;;
  update_this this (with_isHarmful (Some true)) ;;;
  update_this this (with_collapseProbability 0.7) ;;;
  ret this.

Definition new_QuantumPlatform (position size : Vector3) : M ObjId :=
  let* this := new_QuantumObject KPlatform position size in
  let* mt := createQuantumMaterial in
  replace_material this mt ;;;
  update_this this (with_collapseProbability 0.7) ;;;
  ret this.

Definition new_QuantumObstacle (position : Vector3) (size : Q) : M ObjId :=
  let* this := new_QuantumObject KObstacle position (mkVector3 size size size) in
  let* mt := createQuantumMaterial in
  replace_mesh this mt ;;;
  update_this this (with_collapseProbability 0.3) ;;;
  ret this.

Definition new_QuantumCollectible (position : Vector3) : M ObjId :=
  let* this := new_QuantumObject KCollectible position (mkVector3 0.5 0.5 0.5) in
  let* mt := new_MeshPhongMaterial 0xffff00 0.9 in
  replace_mesh this mt ;;;
  let* _rotationSpeed := Math_random in
  let* _floatSpeed := Math_random in
  let* _floatAmplitude := Math_random in
  let* _time := Math_random in
  ret this.

(** ** Collecting (js/objects.js) *)

Definition showNotification (msg : string) : M unit := emit (EvNotification msg).

(** [QuantumPowerup.prototype.collect].  [player] tells whether
    [this.game.player] is set when the call is made.  The speed boost acts
    on the player's speed, which is outside the world of this model; of that
    case the test of [this.game.player] and the notification are kept.  The
    observer boost schedules the restore of the drain rate: the captured
    rate waits in [timers]. *)
Definition QuantumPowerup_collect (this : ObjId) (player : bool) : M unit :=
  let* o := deref this in
  if truthy (isCollected o) then ret tt
  else
    update_this this (with_isCollected (Some true)) ;;;
    match powerupType o with
    | Some PEnergy =>
        modify_quantum (fun s => with_currentEnergy (observerModeEnergy s) s) ;;;
        showNotification "Quantum Energy Restored!"
    | Some PSpeed =>
        if player then showNotification "Speed Boost Activated!" else ret tt
    | Some PObserver =>
        let* originalDrainRate := get (fun w => energyDrainRate (quantum w)) in
        modify_quantum (fun s => with_energyDrainRate (energyDrainRate s * 0.5) s) ;;;
        showNotification "Observer Efficiency Increased!" ;;;
        modify (fun w => with_timers (timers w ++ [originalDrainRate]) w)
    | _ => ret tt
    end ;;;
    createCollapseEffect (position o) ;;;
    updateScore 100 ;;;
    dispose this.

(** The callback of the observer boost, fifteen seconds later. *)
Definition observerBoost_timeout (i : nat) : M unit :=
  let* ts := get timers in
  match ts !! i with
  | Some originalDrainRate =>
      modify (fun w => with_timers (delete i (timers w)) w) ;;;
      modify_quantum (with_energyDrainRate originalDrainRate) ;;;
      showNotification "Observer Boost Ended"
  | None => ret tt
  end.

(** [QuantumCollectible.prototype.collect] *)
Definition QuantumCollectible_collect (this : ObjId) : M unit :=
  let* o := deref this in
  if truthy (isCollected o) then ret tt
  else
    update_this this (with_isCollected (Some true)) ;;;
    createCollapseEffect (position o) ;;;
    repeatM 20 (createCollapseEffect (position o)) ;;;
    updateScore 100 ;;;
    showNotification "Collectible Acquired! +100 Points" ;;;
    dispose this.

(** [obj.collect()], with [this.game.player] set or not. *)
Definition collect (this : ObjId) (player : bool) : M unit :=
  let* o := deref this in
  match kind o with
  | KPowerup => QuantumPowerup_collect this player
  | KCollectible => QuantumCollectible_collect this
  | _ => throw (TypeError "collect is not a function")
  end.

(** ** Click-to-collapse (js/player.js)

    [handleClick], from the point where the ray has resolved to the quantum
    object behind the first clickable mesh. *)
Definition handleClick (quantumObject : ObjId) : M unit :=
  let* o := deref quantumObject in
  match observedState o with
  | None =>
      collapse quantumObject undefined ;;;
      updateScore 5
  | Some _ => ret tt
  end.

(** ** A session

    What can happen to the world, one event-loop turn at a time. *)
Inductive Action :=
| ANewObject (position size : Vector3)
| ANewBridge (startPosition endPosition : Vector3) (width : Q)
| ANewElevator (position size : Vector3) (minH maxH : Q)
| ANewDoor (position : Vector3) (width height : Q)
| ANewPowerup (position : Vector3) (type : PowerupType)
| ANewHazard (position : Vector3) (size : Q)
| ANewPlatform (position size : Vector3)
| ANewObstacle (position : Vector3) (size : Q)
| ANewCollectible (position : Vector3)
| AFrame (delta : Q)             (* animate: quantum.update(delta) *)
| AKeyE                          (* keydown 'e': toggleObserverMode() *)
| AClick (o : ObjId)             (* a click that hits object o *)
| ACollect (o : ObjId) (player : bool)   (* o.collect(), game.player set or not *)
| ADispose (o : ObjId)
| ATimeout (i : nat).            (* the i-th pending restore fires *)

Definition discard {A} (c : M A) : M unit := c ;;; ret tt.

Definition run (a : Action) : M unit :=
  match a with
  | ANewObject p s => discard (new_QuantumObject KObject p s)
  | ANewBridge p q wd => discard (new_QuantumBridge p q wd)
  | ANewElevator p s lo hi => discard (new_QuantumElevator p s lo hi)
  | ANewDoor p wd ht => discard (new_QuantumDoor p wd ht)
  | ANewPowerup p t => discard (new_QuantumPowerup p t)
  | ANewHazard p s => discard (new_QuantumHazard p s)
  | ANewPlatform p s => discard (new_QuantumPlatform p s)
  | ANewObstacle p s => discard (new_QuantumObstacle p s)
  | ANewCollectible p => discard (new_QuantumCollectible p)
  | AFrame delta => update delta
  | AKeyE => toggleObserverMode None
  | AClick o => handleClick o
  | ACollect o player => collect o player
  | ADispose o => dispose o
  | ATimeout i => observerBoost_timeout i
  end.

(** The clock hands out elapsed time: a frame's [delta] is not negative. *)
Definition possible (a : Action) : Prop :=
  match a with
  | AFrame delta => 0 <= delta
  | _ => True
  end.

(** The world after the turn; an exception that escapes the handler ends the
    turn and keeps what was done before it. *)
Definition after (a : Action) (w : World) : World := snd (run a w).

Definition exec (l : list Action) (w : World) : World :=
  fold_left (fun w a => after a w) l w.

(** The worlds a session can be in. *)
Inductive reachable : World -> Prop :=
| reachable_initial tape pg : reachable (initial tape pg)
| reachable_after a w : reachable w -> possible a -> reachable (after a w).

(** ** Vocabulary of the properties *)

(** The state a collapse resolves to: the forced one, or the draw of the
    next random number against [collapseProbability]. *)
Definition resolved (forcedState : option Z) (w : World) (obj : QuantumObject) : Z :=
  match forcedState with
  | Some v => v
  | None => if Qltb (random_tape w (random_pos w)) (collapseProbability obj) then 1 else 0
  end%Z.

(** What a collapse to [v] leaves of the object [obj]: [obj'] is the object
    afterwards, [r] how the call completed. *)
Definition collapsed_to (v : Z) (obj : QuantumObject) (r : completion (option Z))
    (obj' : QuantumObject) : Prop :=
  kind obj' = kind obj /\ position obj' = position obj /\ size obj' = size obj /\
  observedState obj' = Some v /\
  (r = Normal (Some v) \/ exists e, r = Throw e) /\
  (kind obj <> KBridge -> kind obj <> KDoor -> kind obj <> KHazard -> r = Normal (Some v)) /\
  isHarmful obj' =
    match kind obj with
    | KObstacle => Some (v =? 1)%Z
    | KHazard => match r with
                 | Normal _ => Some (v =? 1)%Z
                 | Throw _ => isHarmful obj
                 end
    | _ => isHarmful obj
    end.

(** The consequence fields of the variants agree with the observed state:
    a hazard is harmful until a collapse says otherwise; an obstacle is
    harmful exactly when it has collapsed to state 1. *)
Definition obj_ok (o : QuantumObject) : Prop :=
  match kind o with
  | KHazard => observedState o = None -> isHarmful o = Some true
  | KObstacle => isHarmful o = option_map (fun v => (v =? 1)%Z) (observedState o)
  | _ => True
  end.

(** How one object may change during a turn of a session. *)
Definition evolves (a b : QuantumObject) : Prop :=
  kind b = kind a /\ size b = size a /\
  (forall v, observedState a = Some v -> observedState b = Some v) /\
  (obj_ok a -> obj_ok b).

(** How the store may change: the objects it holds evolve, the objects it
    gains are well formed. *)
Definition heap_advance (h h' : list QuantumObject) : Prop :=
  (length h <= length h')%nat /\
  (forall i a, h !! i = Some a -> exists b, h' !! i = Some b /\ evolves a b) /\
  (forall i b, (length h <= i)%nat -> h' !! i = Some b -> obj_ok b).

(** A step that acts on objects only: no object is created, the system and
    the pending timers are as before. *)
Definition objects_only (w w' : World) : Prop :=
  heap_advance (heap w) (heap w') /\ length (heap w') = length (heap w) /\
  quantum w' = quantum w /\ timers w' = timers w.

(** The calls of the broadcast among the events. *)
Fixpoint calls (es : list Event) : list (nat * bool) :=
  match es with
  | [] => []
  | EvSetObserverMode o b :: es' => (o, b) :: calls es'
  | _ :: es' => calls es'
  end.

(** [obj && typeof obj.setObserverMode === 'function'], on a reference. *)
Definition is_object (h : list QuantumObject) (o : ObjId) : bool :=
  match h !! o with
  | Some _ => true
  | None => false
  end.

(** The system once [observerMode] has been set to [b] and the shader
    uniform follows. *)
Definition toggled (b : bool) (s : QuantumSystem) : QuantumSystem :=
  with_uniforms_observerMode (if b then 1.0 else 0.0) (with_observerMode b s).

(** The energy gate of [toggleObserverMode()]: off and out of energy. *)
Definition gated (s : QuantumSystem) : bool :=
  negb (observerMode s) && Qle_bool (currentEnergy s) 0.

(** The registry holds each live object once, and only objects. *)
Definition registry_ok (w : World) : Prop :=
  NoDup (quantumObjects (quantum w)) /\
  forall o, o ∈ quantumObjects (quantum w) -> (o < length (heap w))%nat.

(** The energy budget: within its bounds, with rates that are not negative. *)
Definition energy_ok (w : World) : Prop :=
  0 <= currentEnergy (quantum w) /\
  currentEnergy (quantum w) <= observerModeEnergy (quantum w) /\
  observerModeEnergy (quantum w) = 100 /\
  0 <= energyDrainRate (quantum w) /\
  energyRechargeRate (quantum w) = 8 /\
  Forall (fun r => 0 <= r) (timers w).

Definition all_ok (h : list QuantumObject) : Prop :=
  forall i o, h !! i = Some o -> obj_ok o.

(** What holds of every world of a session. *)
Definition invariant (w : World) : Prop :=
  all_ok (heap w) /\ registry_ok w /\ energy_ok w.

(** A step that keeps the invariant. *)
Definition step_ok (w w' : World) : Prop :=
  heap_advance (heap w) (heap w') /\
  (registry_ok w -> registry_ok w') /\
  (energy_ok w -> energy_ok w').

Definition preserves {A} (c : M A) : Prop := forall w, step_ok w (snd (c w)).

(** What a constructor adds to the world: one object of class [k], in
    superposition, registered under the next free reference. *)
Definition constructs (k : Kind) (c : M nat) : Prop :=
  forall w, exists obj w',
    c w = (Normal (length (heap w)), w') /\
    heap w' = heap w ++ [obj] /\
    quantum w' = with_quantumObjects (quantumObjects (quantum w) ++ [length (heap w)])
                                     (quantum w) /\
    timers w' = timers w /\ events w' = events w /\
    kind obj = k /\ observedState obj = None /\ obj_ok obj.

(** The turns that construct an object. *)
Definition is_new (a : Action) : bool :=
  match a with
  | ANewObject _ _ | ANewBridge _ _ _ | ANewElevator _ _ _ _ | ANewDoor _ _ _
  | ANewPowerup _ _ | ANewHazard _ _ | ANewPlatform _ _ | ANewObstacle _ _
  | ANewCollectible _ => true
  | _ => false
  end.


(** *** The exact effect of the visual update and of the particle burst *)

(** The materials once [m.opacity = v] has run on the material behind [m]. *)
Definition opacity_written (ms : list Material) (m : MatId) (v : Q) : list Material :=
  match ms !! m with
  | Some mat => <[m := with_opacity (Some v) mat]> ms
  | None => ms
  end.

(** The materials once the guarded write of [updateVisualState] has run. *)
Definition opacity_if_defined (ms : list Material) (mat : option MatId) (v : Q) :
    list Material :=
  match mat with
  | Some m => match ms !! m with
              | Some mt => match opacity mt with
                           | Some _ => opacity_written ms m v
                           | None => ms
                           end
              | None => ms
              end
  | None => ms
  end.

(** Scale and opacity [updateVisualState] gives an object. *)
Definition visual_scale (o : QuantumObject) : Q :=
  match observedState o with
  | None => 0.8 + superpositionFactor o * 0.4
  | Some s => if (s =? 1)%Z then 1.2 else 0.8
  end.
Definition visual_opacity (o : QuantumObject) : Q :=
  match observedState o with
  | None => 0.4 + superpositionFactor o * 0.4
  | Some _ => 0.9
  end.

(** The object and the materials after [updateVisualState]. *)
Definition redrawn (o : QuantumObject) : QuantumObject :=
  with_mesh (option_map (with_mesh_scale
               (mkVector3 (visual_scale o) (visual_scale o) (visual_scale o))) (mesh o)) o.
Definition redrawn_materials (o : QuantumObject) (ms : list Material) : list Material :=
  match mesh o with
  | Some _ => opacity_if_defined ms (material o) (visual_opacity o)
  | None => ms
  end.

(** The particle [createCollapseEffect] builds from the fourteen draws at
    positions [k] to [k + 13] of the tape: direction and speed from the
    first three, the hue from the eighth, life and maximal life from the
    last two; the others go into the two names. *)
Definition burst_particle (position : Vector3) (tape : nat -> Q) (k : nat) : Particle :=
  let theta := tape k * Math_PI * 2 in
  let phi := tape (S k) * Math_PI * 2 in
  let speed := 2 + tape (S (S k)) * 3 in
  mkParticle position
    (mkVector3 (Math_sin theta * Math_cos phi * speed)
               (Math_sin theta * Math_sin phi * speed)
               (Math_cos theta * speed))
    (tape (7 + k)%nat * 0.2 + 0.4)
    (1 + tape (12 + k)%nat * 0.5)
    (1 + tape (13 + k)%nat * 0.5)
    0.8.

Fixpoint burst (position : Vector3) (tape : nat -> Q) (k n : nat) : list Particle :=
  match n with
  | O => []
  | S n' => burst_particle position tape k :: burst position tape (14 + k) n'
  end.

(** Where the tape stands once a collapse has resolved its state. *)
Definition drawn (forcedState : option Z) (pos : nat) : nat :=
  match forcedState with
  | Some _ => pos
  | None => S pos
  end.

(** The world the base [collapse] leaves. *)
Definition collapsed_world (this : ObjId) (forcedState : option Z) (w : World)
    (obj : QuantumObject) : World :=
  let o1 := with_observedState (Some (resolved forcedState w obj)) obj in
  mkWorld (<[this := redrawn o1]> (heap w)) (redrawn_materials o1 (materials w))
    (quantum w) (score w + 10)
    (particles w ++ burst (position obj) (random_tape w) (drawn forcedState (random_pos w)) 12)
    (random_tape w) (168 + drawn forcedState (random_pos w))
    (mkPage (score w + 10) (observerStatus (page w)) (quantum_fill (page w)))
    (timers w)
    (events w ++ [EvCollapseEffect (position obj); EvUpdateScore 10]).


(** The number [getSuperpositionState] returns. *)
Definition superposition_value (position : Vector3) (time : Q) : Q :=
  (Math_sin (x position * 0.2 + time * 1.5) * 0.5 + 0.5) * 0.4 +
  (Math_cos (z position * 0.3 + time * 2.0) * 0.5 + 0.5) * 0.3 +
  (Math_sin (y position * 0.25 + time * 1.0) * 0.5 + 0.5) * 0.3.

(** The number [getWaveFunction] returns. *)
Definition wave_value (position : Vector3) (time : Q) : Q :=
  Math_sin (x position * 0.1 + y position * 0.1 + z position * 0.1 + time * 2) * 0.5 + 0.5.

(** An object after [updateQuantumState] at global time [time]. *)
Definition refreshed (time : Q) (o : QuantumObject) : QuantumObject :=
  match observedState o with
  | None => redrawn (with_superpositionFactor (superposition_value (position o) time) o)
  | Some _ => o
  end.


(** The registry once [unregisterQuantumObject(o)] has run. *)
Definition unregistered (o : ObjId) (l : list ObjId) : list ObjId :=
  let index := indexOf l o in
  if negb (index =? -1)%Z then splice1 l index else l.

(** What collecting a powerup of type [t] does to the system, which rate it
    leaves for the timer to restore, and what it notifies. *)
Definition boosted (t : option PowerupType) (s : QuantumSystem) : QuantumSystem :=
  match t with
  | Some PEnergy => with_currentEnergy (observerModeEnergy s) s
  | Some PObserver => with_energyDrainRate (energyDrainRate s * 0.5) s
  | _ => s
  end.
Definition boost_timers (t : option PowerupType) (s : QuantumSystem) : list Q :=
  match t with
  | Some PObserver => [energyDrainRate s]
  | _ => []
  end.
Definition boost_notes (t : option PowerupType) (player : bool) : list Event :=
  match t with
  | Some PEnergy => [EvNotification "Quantum Energy Restored!"]
  | Some PSpeed => if player then [EvNotification "Speed Boost Activated!"] else []
  | Some PObserver => [EvNotification "Observer Efficiency Increased!"]
  | _ => []
  end.

(** The world a first [collect] of a powerup leaves. *)
Definition collected_world (this : ObjId) (player : bool) (w : World)
    (obj : QuantumObject) : World :=
  mkWorld (<[this := with_isCollected (Some true) obj]> (heap w)) (materials w)
    (with_quantumObjects (unregistered this (quantumObjects (quantum w)))
       (boosted (powerupType obj) (quantum w)))
    (score w + 100)
    (particles w ++ burst (position obj) (random_tape w) (random_pos w) 12)
    (random_tape w) (168 + random_pos w)
    (mkPage (score w + 100) (observerStatus (page w)) (quantum_fill (page w)))
    (timers w ++ boost_timers (powerupType obj) (quantum w))
    (events w ++ boost_notes (powerupType obj) player ++
       [EvCollapseEffect (position obj); EvUpdateScore 100]).


(** The world a first [collect] of a collectible leaves. *)
Definition acquired_world (this : ObjId) (w : World) (obj : QuantumObject) : World :=
  mkWorld (<[this := with_isCollected (Some true) obj]> (heap w)) (materials w)
    (with_quantumObjects (unregistered this (quantumObjects (quantum w))) (quantum w))
    (score w + 100)
    (particles w ++ burst (position obj) (random_tape w) (random_pos w) (12 * 21))
    (random_tape w) (168 * 21 + random_pos w)
    (mkPage (score w + 100) (observerStatus (page w)) (quantum_fill (page w)))
    (timers w)
    (events w ++ repeat (EvCollapseEffect (position obj)) 21 ++
       [EvUpdateScore 100; EvNotification "Collectible Acquired! +100 Points"]).

(** The world once the [i]-th pending restore, of rate [r], has fired. *)
Definition restored_world (i : nat) (r : Q) (w : World) : World :=
  mkWorld (heap w) (materials w) (with_energyDrainRate r (quantum w)) (score w)
    (particles w) (random_tape w) (random_pos w) (page w) (delete i (timers w))
    (events w ++ [EvNotification "Observer Boost Ended"]).


(** ** The player (js/player.js)

    The player's own state: position, velocity and the keys held.  The
    mesh and the camera copy the position and are not read back. *)

(** [Math.abs] and [Math.sign] on numbers. *)
Definition Math_abs (a : Q) : Q := if Qltb a 0 then - a else a.
Definition Math_sign (a : Q) : Q := if Qltb 0 a then 1 else if Qltb a 0 then -1 else 0.

Record Keys := mkKeys {
  key_forward : bool;
  key_backward : bool;
  key_left : bool;
  key_right : bool;
  key_jump : bool
}.

Record Player := mkPlayer {
  player_position : Vector3;
  player_velocity : Vector3;
  player_speed : Q;
  jumpForce : Q;
  gravity : Q;
  isGrounded : bool;
  keys : Keys
}.

Definition with_player_position (v : Vector3) (p : Player) : Player :=
  mkPlayer v (player_velocity p) (player_speed p) (jumpForce p) (gravity p)
           (isGrounded p) (keys p).
Definition with_player_velocity (v : Vector3) (p : Player) : Player :=
  mkPlayer (player_position p) v (player_speed p) (jumpForce p) (gravity p)
           (isGrounded p) (keys p).
Definition with_isGrounded (b : bool) (p : Player) : Player :=
  mkPlayer (player_position p) (player_velocity p) (player_speed p) (jumpForce p)
           (gravity p) b (keys p).
Definition with_keys (k : Keys) (p : Player) : Player :=
  mkPlayer (player_position p) (player_velocity p) (player_speed p) (jumpForce p)
           (gravity p) (isGrounded p) k.

Definition with_x (a : Q) (v : Vector3) : Vector3 := mkVector3 a (y v) (z v).
Definition with_y (a : Q) (v : Vector3) : Vector3 := mkVector3 (x v) a (z v).
Definition with_z (a : Q) (v : Vector3) : Vector3 := mkVector3 (x v) (y v) a.

(** [new Player(game)]: the state the constructor leaves, with
    [resetPlayerPosition()] at its end. *)
Definition new_Player : Player :=
  mkPlayer (mkVector3 0 1 0) (mkVector3 0 0 0) 5 7 15 false
           (mkKeys false false false false false).

Definition resetPlayerPosition (p : Player) : Player :=
  with_player_velocity (mkVector3 0 0 0) (with_player_position (mkVector3 0 1 0) p).

Definition teleportTo (position : Vector3) (p : Player) : Player :=
  with_player_velocity (mkVector3 0 0 0) (with_player_position position p).

(** [String.prototype.toLowerCase], on the characters [A] to [Z]; the
    strings the handlers compare with consist of lower-case letters of
    that range, and no other character lower-cases into it. *)
Definition lower_ascii (c : ascii) : ascii :=
  let n := nat_of_ascii c in
  if ((65 <=? n) && (n <=? 90))%nat then ascii_of_nat (n + 32) else c.

Fixpoint toLowerCase (s : string) : string :=
  match s with
  | EmptyString => EmptyString
  | String c s' => String (lower_ascii c) (toLowerCase s')
  end.

(** [handleKeyDown(e)], on [e.key]; [isRunning] is [game.isRunning]. *)
Definition handleKeyDown (isRunning : bool) (key : string) (p : Player) : Player :=
  if negb isRunning then p
  else
    let k := toLowerCase key in
    let ks := keys p in
    if String.eqb k "w" || String.eqb k "arrowup" then
      with_keys (mkKeys true (key_backward ks) (key_left ks) (key_right ks) (key_jump ks)) p
    else if String.eqb k "s" || String.eqb k "arrowdown" then
      with_keys (mkKeys (key_forward ks) true (key_left ks) (key_right ks) (key_jump ks)) p
    else if String.eqb k "a" || String.eqb k "arrowleft" then
      with_keys (mkKeys (key_forward ks) (key_backward ks) true (key_right ks) (key_jump ks)) p
    else if String.eqb k "d" || String.eqb k "arrowright" then
      with_keys (mkKeys (key_forward ks) (key_backward ks) (key_left ks) true (key_jump ks)) p
    else if String.eqb k " " then
      if isGrounded p then
        with_isGrounded false
          (with_player_velocity (with_y (jumpForce p) (player_velocity p)) p)
      else p
    else p.

Definition handleKeyUp (isRunning : bool) (key : string) (p : Player) : Player :=
  if negb isRunning then p
  else
    let k := toLowerCase key in
    let ks := keys p in
    if String.eqb k "w" || String.eqb k "arrowup" then
      with_keys (mkKeys false (key_backward ks) (key_left ks) (key_right ks) (key_jump ks)) p
    else if String.eqb k "s" || String.eqb k "arrowdown" then
      with_keys (mkKeys (key_forward ks) false (key_left ks) (key_right ks) (key_jump ks)) p
    else if String.eqb k "a" || String.eqb k "arrowleft" then
      with_keys (mkKeys (key_forward ks) (key_backward ks) false (key_right ks) (key_jump ks)) p
    else if String.eqb k "d" || String.eqb k "arrowright" then
      with_keys (mkKeys (key_forward ks) (key_backward ks) (key_left ks) false (key_jump ks)) p
    else p.

(** [THREE.Vector3.prototype.normalize], and [applyQuaternion] with the
    camera's quaternion: of the scene-graph library. *)
Variable Vector3_normalize : Vector3 -> Vector3.
Variable camera_applyQuaternion : Vector3 -> Vector3.





Definition checkCollisions (p : Player) : Player :=
  let worldBounds := 50 in
  let p :=
    if Qltb worldBounds (Math_abs (x (player_position p))) then
      with_player_position
        (with_x (Math_sign (x (player_position p)) * worldBounds) (player_position p)) p
    else p in
  if Qltb worldBounds (Math_abs (z (player_position p))) then
    with_player_position
      (with_z (Math_sign (z (player_position p)) * worldBounds) (player_position p)) p
  else p.

(** ** ParticleSystem.update (js/objects.js)

    A particle's mesh position is its [p_position]; the mesh scale and the
    material opacity are derived from [p_life] and are not kept. *)

(** One pass of the loop body over the particle at index [i]. *)
Definition age_particle (delta : Q) (q : Particle) : Particle :=
  mkParticle
    (mkVector3 (x (p_position q) + x (p_velocity q) * delta)
               (y (p_position q) + y (p_velocity q) * delta)
               (z (p_position q) + z (p_velocity q) * delta))
    (p_velocity q) (p_hue q) (p_life q - delta) (p_maxLife q) (p_initialOpacity q).

(** [for (let i = n - 1; i >= 0; i--)]: the iterations for the indices
    below [n], the highest first, on the array [ps]. *)
Fixpoint particles_update_from (n : nat) (delta : Q) (ps : list Particle)
    : completion unit * list Particle :=
  match n with
  | O => (Normal tt, ps)
  | S i =>
      match ps !! i with
      | None => (Throw (TypeError "particle is undefined"), ps)
      | Some particle =>
          let particle := age_particle delta particle in
          let ps := <[i := particle]> ps in
          let ps := if Qle_bool (p_life particle) 0 then delete i ps else ps in
          particles_update_from i delta ps
      end
  end.

Definition ParticleSystem_update (delta : Q) : M unit :=
  fun w =>
    let (r, ps) := particles_update_from (length (particles w)) delta (particles w) in
    (r, with_particles ps w).




(** A particle that is still alive after its life has been reduced. *)
Definition alive (q : Particle) : bool := negb (Qle_bool (p_life q) 0).






(** ** The level manager (js/objects.js)

    Its arrays hold references to the objects it created. *)
Record LevelManager := mkLevelManager {
  currentLevel : Q;
  levelCompleted : bool;
  platforms : list ObjId;
  obstacles : list ObjId;
  collectibles : list ObjId
}.

Definition with_levelCompleted (b : bool) (lm : LevelManager) : LevelManager :=
  mkLevelManager (currentLevel lm) b (platforms lm) (obstacles lm) (collectibles lm).
Definition with_collectibles (cs : list ObjId) (lm : LevelManager) : LevelManager :=
  mkLevelManager (currentLevel lm) (levelCompleted lm) (platforms lm) (obstacles lm) cs.

(** [array.forEach(f)], on an array the callback does not change. *)
Fixpoint forEach (l : list ObjId) (f : ObjId -> M unit) : M unit :=
  match l with
  | [] => ret tt
  | o :: l' => f o ;;; forEach l' f
  end.

Definition updateDifficulty (lm : LevelManager) : M unit :=
  let difficulty := currentLevel lm in
  forEach (obstacles lm) (fun obstacle =>
    update_this obstacle (with_collapseProbability (0.5 - difficulty * 0.05)) ;;;
    let* o := deref obstacle in
    if Qltb (collapseProbability o) 0.1
    then update_this obstacle (with_collapseProbability 0.1)
    else ret tt) ;;;
  forEach (platforms lm) (fun platform =>
    update_this platform (with_collapseProbability (0.7 - difficulty * 0.03)) ;;;
    let* o := deref platform in
    if Qltb (collapseProbability o) 0.3
    then update_this platform (with_collapseProbability 0.3)
    else ret tt).

(** [checkLevelCompletion()]: the manager afterwards, and whether
    [ui.showPortalNotification()] was called. *)
Definition checkLevelCompletion (lm : LevelManager) : LevelManager * bool :=
  if (length (collectibles lm) =? 0)%nat && negb (levelCompleted lm)
  then (with_levelCompleted true lm, true)
  else (lm, false).

(** The loop of [checkCollectibleCollection]: the iterations for the
    indices below [n], the highest first, on the array [cs].  The array is
    the manager's own state, so it is threaded beside the world and
    survives an exception. *)
Fixpoint collectibles_from (n : nat) (playerPosition : Vector3) (cs : list ObjId)
    (w : World) : completion unit * list ObjId * World :=
  match n with
  | O => (Normal tt, cs, w)
  | S i =>
      match cs !! i with
      | None => (Throw (TypeError "collectible is undefined"), cs, w)
      | Some collectible =>
          match deref collectible w with
          | (Throw e, w1) => (Throw e, cs, w1)
          | (Normal o, w1) =>
              let distance := distanceTo (position o) playerPosition in
              if Qltb distance 1.5 then
                match collect collectible true w1 with
                | (Throw e, w2) => (Throw e, cs, w2)
                | (Normal _, w2) =>
                    let cs := delete i cs in
                    match updateScore 50 w2 with
                    | (Throw e, w3) => (Throw e, cs, w3)
                    | (Normal _, w3) => collectibles_from i playerPosition cs w3
                    end
                end
              else collectibles_from i playerPosition cs w1
          end
      end
  end.

(** [player] is [game.player], [None] before the player exists. *)
Definition checkCollectibleCollection (player : option Player) (lm : LevelManager)
    (w : World) : completion unit * LevelManager * World :=
  match player with
  | None => (Normal tt, lm, w)
  | Some pl =>
      let '(r, cs, w') :=
        collectibles_from (length (collectibles lm)) (player_position pl)
                          (collectibles lm) w in
      (r, with_collectibles cs lm, w')
  end.

(** ** The portal (js/objects.js) *)
Record Portal := mkPortal {
  active : bool;
  portal_radius : Q;
  portal_height : Q;
  portal_position : Vector3;
  playerInPortal : bool
}.

Definition with_active (b : bool) (pt : Portal) : Portal :=
  mkPortal b (portal_radius pt) (portal_height pt) (portal_position pt) (playerInPortal pt).
Definition with_playerInPortal (b : bool) (pt : Portal) : Portal :=
  mkPortal (active pt) (portal_radius pt) (portal_height pt) (portal_position pt) b.

Definition new_Portal : Portal :=
  mkPortal false 2.5 4 (mkVector3 0 2 (-40)) false.

(** [a.distanceTo(b)] of [THREE.Vector2], of the scene-graph library, on the
    components of [a] and of [b]. *)
Variable Vector2_distanceTo : Q -> Q -> Q -> Q -> Q.

(** [checkPlayerEntry()]: the portal afterwards, and whether
    [transportPlayer()] was called. *)
Definition checkPlayerEntry (player : option Player) (pt : Portal) : Portal * bool :=
  match player with
  | None => (pt, false)
  | Some pl =>
      if negb (active pt) then (pt, false)
      else
        let playerPosition := player_position pl in
        let portalCenterXZ := (x (portal_position pt), z (portal_position pt)) in
        let playerXZ := (x playerPosition, z playerPosition) in
        let distance :=
          Vector2_distanceTo (fst portalCenterXZ) (snd portalCenterXZ)
                             (fst playerXZ) (snd playerXZ) in
        if Qltb distance (portal_radius pt * 0.8) then
          let portalMinY := y (portal_position pt) - portal_height pt / 2 in
          let portalMaxY := y (portal_position pt) + portal_height pt / 2 in
          if Qle_bool portalMinY (y playerPosition) && Qle_bool (y playerPosition) portalMaxY
          then
            if negb (playerInPortal pt) then (with_playerInPortal true pt, true)
            else (pt, false)
          else (pt, false)
        else (with_playerInPortal false pt, false)
  end.

(** *** Vocabulary of the level properties *)

(** The probability [updateDifficulty] leaves: [base - difficulty * slope],
    but not below [floor]. *)
Definition difficulty_probability (base slope floor difficulty : Q) : Q :=
  if Qltb (base - difficulty * slope) floor then floor else base - difficulty * slope.

(** Whether the collectible behind [c] is within reach of the player. *)
Definition within_reach (w : World) (playerPosition : Vector3) (c : ObjId) : bool :=
  match heap w !! c with
  | Some o => Qltb (distanceTo (position o) playerPosition) 1.5
  | None => false
  end.

(** A collectible that [collect()] can take: an uncollected collectible with
    a material to dispose of. *)
Definition collectable (w : World) (c : ObjId) : Prop :=
  exists obj, heap w !! c = Some obj /\ kind obj = KCollectible /\
              truthy (isCollected obj) = false /\ material obj <> None.


(** The class a constructing turn instantiates, the collapse probability its
    constructor leaves, and whether its material has a [color]. *)
Definition class_of (a : Action) : Kind :=
  match a with
  | ANewBridge _ _ _ => KBridge
  | ANewElevator _ _ _ _ => KElevator
  | ANewDoor _ _ _ => KDoor
  | ANewPowerup _ _ => KPowerup
  | ANewHazard _ _ => KHazard
  | ANewPlatform _ _ => KPlatform
  | ANewObstacle _ _ => KObstacle
  | ANewCollectible _ => KCollectible
  | _ => KObject
  end.
Definition class_probability (k : Kind) : Q :=
  match k with
  | KBridge => 0.8
  | KHazard | KPlatform => 0.7
  | KObstacle => 0.3
  | _ => 0.5
  end.
Definition class_has_color (k : Kind) : bool :=
  match k with
  | KPowerup | KCollectible => true
  | _ => false
  end.

(** * Properties *)

(** ** Numbers *)

Lemma Qltb_lt (a b : Q) : Qltb a b = true <-> a < b.
Proof.
  unfold Qltb. rewrite negb_true_iff, <- not_true_iff_false, Qle_bool_iff.
  split; [apply Qnot_le_lt | apply Qlt_not_le].
Qed.

Lemma Qltb_irrefl (a b : Q) : a == b -> Qltb a b = false.
Proof.
  intros E. apply not_true_iff_false. rewrite Qltb_lt, E. apply Qlt_irrefl.
Qed.

(** ** The stores *)

Lemma with_mesh_id (o : QuantumObject) : with_mesh (mesh o) o = o.
Proof. now destruct o. Qed.

Lemma with_materials_id (w : World) : with_materials (materials w) w = w.
Proof. now destruct w. Qed.

Lemma with_heap_id (w : World) : with_heap (heap w) w = w.
Proof. now destruct w. Qed.

Lemma lookup_insert_this (h : list QuantumObject) (this : ObjId) (o o' : QuantumObject) :
  h !! this = Some o -> <[this := o']> h !! this = Some o'.
Proof. intros H. apply list_lookup_insert_eq. eapply lookup_lt_Some, H. Qed.

Lemma deref_Some (w : World) (this : ObjId) (o : QuantumObject) :
  heap w !! this = Some o -> deref this w = (Normal o, w).
Proof. intros H. unfold deref. now rewrite H. Qed.

Lemma update_this_Some (w : World) (this : ObjId) (o : QuantumObject) f :
  heap w !! this = Some o ->
  update_this this f w = (Normal tt, with_heap (<[this := f o]> (heap w)) w).
Proof. intros H. unfold update_this. now rewrite H. Qed.


(** ** Sinks: the particle burst and the score *)

Lemma bind_Math_random {A} (k : Q -> M A) (w : World) :
  bind Math_random k w =
  k (random_tape w (random_pos w)) (with_random_pos (S (random_pos w)) w).
Proof. reflexivity. Qed.

Lemma bind_THREE_generateUUID {A} (k : unit -> M A) (w : World) :
  bind THREE_generateUUID k w = k tt (with_random_pos (4 + random_pos w) w).
Proof. reflexivity. Qed.

Lemma collapseParticle_spec (p : Vector3) (w : World) :
  exists ps n, collapseParticle p w = (Normal tt, with_random_pos n (with_particles ps w)).
Proof.
  unfold collapseParticle.
  do 3 (rewrite bind_Math_random; cbv beta zeta).
  rewrite bind_THREE_generateUUID, bind_Math_random. cbv beta zeta.
  rewrite bind_THREE_generateUUID.
  do 2 (rewrite bind_Math_random; cbv beta zeta).
  unfold modify. eexists _, _. reflexivity.
Qed.

Lemma repeat_collapseParticle_spec (p : Vector3) (k : nat) (w : World) :
  exists ps n,
    repeatM k (collapseParticle p) w = (Normal tt, with_random_pos n (with_particles ps w)).
Proof.
  revert w. induction k as [|k IH]; intros w.
  - exists (particles w), (random_pos w). now destruct w.
  - cbn [repeatM]. unfold bind at 1.
    destruct (collapseParticle_spec p w) as (ps & n & ->).
    destruct (IH (with_random_pos n (with_particles ps w))) as (ps' & n' & ->).
    now exists ps', n'.
Qed.

Lemma createCollapseEffect_spec (p : Vector3) (w : World) :
  exists ps n,
    createCollapseEffect p w =
    (Normal tt, with_random_pos n (with_particles ps
                  (with_events (events w ++ [EvCollapseEffect p]) w))).
Proof.
  unfold createCollapseEffect, bind at 1, emit, modify.
  apply repeat_collapseParticle_spec.
Qed.

Lemma repeat_createCollapseEffect_spec (p : Vector3) (k : nat) (w : World) :
  exists ps n,
    repeatM k (createCollapseEffect p) w =
    (Normal tt, with_random_pos n (with_particles ps
                  (with_events (events w ++ repeat (EvCollapseEffect p) k) w))).
Proof.
  revert w. induction k as [|k IH]; intros w.
  - exists (particles w), (random_pos w). cbn. rewrite app_nil_r. now destruct w.
  - cbn [repeatM]. unfold bind at 1.
    destruct (createCollapseEffect_spec p w) as (ps & n & ->).
    destruct (IH (with_random_pos n (with_particles ps
               (with_events (events w ++ [EvCollapseEffect p]) w)))) as (ps' & n' & ->).
    exists ps', n'. cbn. now rewrite <- app_assoc.
Qed.

Lemma updateScore_spec (points : Z) (w : World) :
  updateScore points w =
  (Normal tt,
   with_page (mkPage (score w + points) (observerStatus (page w)) (quantum_fill (page w)))
     (with_score (score w + points) (with_events (events w ++ [EvUpdateScore points]) w))).
Proof. reflexivity. Qed.

(** ** The visual state *)

Lemma set_opacity_if_defined_spec (mat : option MatId) (v : Q) (w : World) :
  exists ms, set_opacity_if_defined mat v w = (Normal tt, with_materials ms w).
Proof.
  unfold set_opacity_if_defined, bind, get, set_material_opacity, modify, ret.
  destruct mat as [m|]; [|exists (materials w); now rewrite with_materials_id].
  destruct (materials w !! m) as [mt|] eqn:E;
    [|exists (materials w); now rewrite with_materials_id].
  destruct (opacity mt); [|exists (materials w); now rewrite with_materials_id].
  cbn. rewrite E. eexists. reflexivity.
Qed.

Lemma updateVisualState_spec (w : World) (this : ObjId) (obj : QuantumObject) :
  heap w !! this = Some obj ->
  exists m ms,
    updateVisualState this w =
    (Normal tt, with_materials ms (with_heap (<[this := with_mesh m obj]> (heap w)) w)).
Proof.
  intros H. unfold updateVisualState, bind at 1. rewrite (deref_Some _ _ _ H).
  destruct (mesh obj) as [m|] eqn:Em.
  - assert (S : forall f, exists ms,
        (set_scale this m f ;;; set_opacity_if_defined (material obj)
           (match observedState obj with Some _ => 0.9 | None => 0.4 + superpositionFactor obj * 0.4 end)) w =
        (Normal tt, with_materials ms
           (with_heap (<[this := with_mesh (Some (with_mesh_scale (mkVector3 f f f) m)) obj]>
                         (heap w)) w))).
    { intros f. unfold bind, set_scale. rewrite (update_this_Some _ _ _ _ H).
      apply set_opacity_if_defined_spec. }
    destruct (observedState obj) as [s|].
    + destruct (S (if (s =? 1)%Z then 1.2 else 0.8)) as (ms & E). eauto.
    + destruct (S (0.8 + superpositionFactor obj * 0.4)) as (ms & E). eauto.
  - exists (mesh obj), (materials w). unfold ret. rewrite with_mesh_id.
    rewrite (list_insert_id _ _ _ H). now rewrite with_heap_id, with_materials_id.
Qed.



(** ** Collapse *)

Lemma QuantumObject_collapse_spec (w : World) (this : ObjId) (obj : QuantumObject)
    (forcedState : option Z) :
  heap w !! this = Some obj ->
  exists m ms ps n,
    QuantumObject_collapse this (arg forcedState) w =
    (Normal (Some (resolved forcedState w obj)),
     mkWorld (<[this := with_mesh m (with_observedState (Some (resolved forcedState w obj)) obj)]>
                (heap w))
             ms (quantum w) (score w + 10) ps (random_tape w) n
             (mkPage (score w + 10) (observerStatus (page w)) (quantum_fill (page w)))
             (timers w)
             (events w ++ [EvCollapseEffect (position obj); EvUpdateScore 10])).
Proof.
  intros H. set (v := resolved forcedState w obj).
  set (obj1 := with_observedState (Some v) obj).
  assert (P1 : exists n,
    (match arg forcedState with
     | value v => update_this this (with_observedState v)
     | undefined =>
         let* r := Math_random in
         let* o := deref this in
         update_this this
           (with_observedState (Some (if Qltb r (collapseProbability o) then 1 else 0)%Z))
     end) w = (Normal tt, with_random_pos n (with_heap (<[this := obj1]> (heap w)) w))).
  { subst obj1 v. destruct forcedState as [v|]; cbn [arg resolved].
    - rewrite (update_this_Some _ _ _ _ H). exists (random_pos w). now destruct w.
    - unfold bind, Math_random. cbn [fst snd].
      rewrite (deref_Some (with_random_pos _ w) this obj H).
      rewrite (update_this_Some (with_random_pos _ w) this obj _ H).
      eexists. reflexivity. }
  destruct P1 as (n1 & P1).
  unfold QuantumObject_collapse, bind at 1. rewrite P1. clear P1.
  set (w1 := with_random_pos n1 _).
  assert (H1 : heap w1 !! this = Some obj1) by (apply (lookup_insert_this _ _ _ _ H)).
  destruct (updateVisualState_spec w1 this obj1 H1) as (m & ms & E).
  unfold bind at 1. rewrite E. clear E.
  set (w2 := with_materials ms _).
  assert (H2 : heap w2 !! this = Some (with_mesh m obj1)).
  { subst w2. cbn. apply (lookup_insert_this _ _ _ _ H1). }
  unfold bind at 1. rewrite (deref_Some _ _ _ H2).
  destruct (createCollapseEffect_spec (position (with_mesh m obj1)) w2) as (ps & n & E).
  unfold bind at 1. rewrite E. clear E.
  unfold bind at 1. rewrite updateScore_spec.
  unfold bind, deref, ret. subst w2 w1. cbn. rewrite list_insert_insert_eq.
  rewrite (lookup_insert_this _ _ _ _ H).
  rewrite <- app_assoc. exists m, ms, ps, n. reflexivity.
Qed.


Lemma set_material_opacity_spec (mt : MatId) (v : Q) (w : World) :
  exists ms, set_material_opacity mt v w = (Normal tt, with_materials ms w).
Proof.
  unfold set_material_opacity, modify. destruct (materials w !! mt).
  - eexists. reflexivity.
  - exists (materials w). now rewrite with_materials_id.
Qed.

Lemma set_mesh_material_opacity_spec (w : World) (this : ObjId) (o : QuantumObject) (v : Q) :
  heap w !! this = Some o ->
  exists r ms, set_mesh_material_opacity this v w = (r, with_materials ms w).
Proof.
  intros H. unfold set_mesh_material_opacity, bind. rewrite (deref_Some _ _ _ H).
  destruct (mesh o) as [m|]; [destruct (mesh_material m) as [mt|]|].
  - destruct (set_material_opacity_spec mt v w) as (ms & ->). eauto.
  - exists (Throw (TypeError "this.mesh.material is undefined")), (materials w).
    now rewrite with_materials_id.
  - exists (Throw (TypeError "this.mesh is undefined")), (materials w).
    now rewrite with_materials_id.
Qed.

Lemma material_color_set_spec (w : World) (this : ObjId) (o : QuantumObject) (c : Z) :
  heap w !! this = Some o ->
  exists r ms, material_color_set this c w = (r, with_materials ms w) /\
               (has_material_color o (materials w) = true -> r = Normal tt).
Proof.
  intros H. unfold material_color_set, has_material_color, bind.
  rewrite (deref_Some _ _ _ H).
  destruct (material o) as [mt|]; unfold get.
  - destruct (materials w !! mt) as [mat|] eqn:E; [destruct (color mat)|].
    + unfold set_material_color, modify. rewrite E. eexists _, _. split; reflexivity.
    + exists (Throw (TypeError "this.material.color is undefined")), (materials w).
      now rewrite with_materials_id.
    + exists (Throw (TypeError "this.material is undefined")), (materials w).
      now rewrite with_materials_id.
  - exists (Throw (TypeError "this.material is undefined")), (materials w).
    now rewrite with_materials_id.
Qed.

(** A write to the material followed by a write to a field of [this]: the
    shape of what the variants do after [super.collapse]. *)
Lemma then_update_this_spec (A : M unit) (g : QuantumObject -> QuantumObject)
    (w : World) (this : ObjId) (o : QuantumObject) :
  heap w !! this = Some o ->
  (exists r ms, A w = (r, with_materials ms w)) ->
  exists r ms o',
    (A ;;; update_this this g) w =
    (r, with_materials ms (with_heap (<[this := o']> (heap w)) w)) /\
    ((r = Normal tt /\ o' = g o) \/ ((exists e, r = Throw e) /\ o' = o)).
Proof.
  intros H (r & ms & E). unfold bind. rewrite E. destruct r as [[]|e].
  - rewrite (update_this_Some (with_materials ms w) this o g H).
    exists (Normal tt), ms, (g o). split; [reflexivity | now left].
  - exists (Throw e), ms, o. rewrite (list_insert_id _ _ _ H), with_heap_id.
    split; [reflexivity | right; eauto].
Qed.



Lemma material_color_set_frame (w : World) (this : ObjId) (o : QuantumObject) (c : Z) :
  heap w !! this = Some o ->
  exists r ms, material_color_set this c w = (r, with_materials ms w).
Proof.
  intros H. destruct (material_color_set_spec w this o c H) as (r & ms & E & _). eauto.
Qed.

(** The world a collapse of [this] leaves: the object replaced, the two
    requests appended, ten points added; [ms], [ps], [n] are the materials,
    the particles and the position on the random tape afterwards. *)
Lemma collapse_spec (w : World) (this : ObjId) (obj : QuantumObject)
    (forcedState : option Z) :
  heap w !! this = Some obj ->
  exists obj' r ms ps n,
    collapse this (arg forcedState) w =
    (r, mkWorld (<[this := obj']> (heap w)) ms (quantum w) (score w + 10) ps
          (random_tape w) n
          (mkPage (score w + 10) (observerStatus (page w)) (quantum_fill (page w)))
          (timers w)
          (events w ++ [EvCollapseEffect (position obj); EvUpdateScore 10])) /\
    collapsed_to (resolved forcedState w obj) obj r obj'.
Proof.
  intros H. unfold collapse, bind at 1. rewrite (deref_Some _ _ _ H).
  destruct (QuantumObject_collapse_spec w this obj forcedState H) as (m & ms & ps & n & EB).
  set (v := resolved forcedState w obj) in *.
  set (oB := with_mesh m (with_observedState (Some v) obj)) in *.
  set (wB := mkWorld _ _ _ _ _ _ _ _ _ _) in EB.
  assert (HB : heap wB !! this = Some oB) by apply (lookup_insert_this _ _ _ _ H).
  pose (P := collapsed_to v obj).
  assert (tail : forall (T : option Z -> M unit),
    (exists r ms' o',
       T (Some v) wB = (r, with_materials ms' (with_heap (<[this := o']> (heap wB)) wB)) /\
       forall r', (r = Normal tt /\ r' = Normal (Some v) \/
                   exists e, r = Throw e /\ r' = Throw e) -> P r' o') ->
    exists obj' r ms ps n,
      (let* state := QuantumObject_collapse this (arg forcedState) in T state ;;; ret state) w =
      (r, mkWorld (<[this := obj']> (heap w)) ms (quantum w) (score w + 10) ps
            (random_tape w) n
            (mkPage (score w + 10) (observerStatus (page w)) (quantum_fill (page w)))
            (timers w)
            (events w ++ [EvCollapseEffect (position obj); EvUpdateScore 10])) /\
      P r obj').
  { intros T (r & ms' & o' & E & HP). unfold bind at 1. rewrite EB.
    unfold bind. rewrite E. subst wB. cbn. rewrite list_insert_insert_eq.
    destruct r as [[]|e].
    - exists o', (Normal (Some v)), ms', ps, n. split; [reflexivity|].
      apply HP. now left.
    - exists o', (Throw e), ms', ps, n. split; [reflexivity|].
      apply HP. right. eauto. }
  assert (two : forall (A : M unit) g,
    (exists r ms, A wB = (r, with_materials ms wB)) ->
    P (Normal (Some v)) (g oB) ->
    (forall e, P (Throw e) oB) ->
    exists r ms' o',
       (A ;;; update_this this g) wB =
       (r, with_materials ms' (with_heap (<[this := o']> (heap wB)) wB)) /\
       forall r', (r = Normal tt /\ r' = Normal (Some v) \/
                   exists e, r = Throw e /\ r' = Throw e) -> P r' o').
  { intros A g HA P1 P2.
    destruct (then_update_this_spec A g wB this oB HB HA) as (r & ms' & o' & E & C).
    exists r, ms', o'. split; [exact E|].
    intros r' [[-> ->]|(e & -> & ->)].
    - destruct C as [[_ ->]|[(e & [=]) _]]. exact P1.
    - destruct C as [[[=] _]|[_ ->]]. exact (P2 e). }
  fold v. fold P.
  assert (PB : kind obj <> KObstacle -> kind obj <> KHazard -> P (Normal (Some v)) oB).
  { intros. subst P. unfold collapsed_to. cbn. repeat split; eauto.
    now destruct (kind obj). }
  assert (plain : kind obj <> KObstacle -> kind obj <> KHazard -> exists obj' r ms ps n,
    QuantumObject_collapse this (arg forcedState) w =
    (r, mkWorld (<[this := obj']> (heap w)) ms (quantum w) (score w + 10) ps
          (random_tape w) n
          (mkPage (score w + 10) (observerStatus (page w)) (quantum_fill (page w)))
          (timers w)
          (events w ++ [EvCollapseEffect (position obj); EvUpdateScore 10])) /\ P r obj').
  { intros. exists oB, (Normal (Some v)), ms, ps, n. split; [exact EB | now apply PB]. }
  assert (same : kind obj <> KObstacle -> kind obj <> KHazard ->
                 forall ms', exists (r : completion unit) ms'' o',
    (Normal tt, with_materials ms' wB) =
    (r, with_materials ms'' (with_heap (<[this := o']> (heap wB)) wB)) /\
    forall r', (r = Normal tt /\ r' = Normal (Some v) \/
                exists e, r = Throw e /\ r' = Throw e) -> P r' o').
  { intros ? ? ms'. exists (Normal tt), ms', oB.
    rewrite (list_insert_id _ _ _ HB), with_heap_id. split; [reflexivity|].
    intros r' [[_ ->]|(e & [=] & _)]. now apply PB. }
  destruct (kind obj) eqn:K; try (apply plain; congruence).
  - (* QuantumBridge *)
    unfold QuantumBridge_collapse. apply tail. cbn [state_is].
    destruct (v =? 0)%Z;
      (apply two; [eapply set_mesh_material_opacity_spec, HB | |];
       intros; subst P; unfold collapsed_to; cbn; rewrite ?K, ?V;
       repeat split; eauto; congruence).
  - (* QuantumElevator *)
    unfold QuantumElevator_collapse. apply tail.
    rewrite (update_this_Some _ _ _ _ HB).
    eexists (Normal tt), (materials wB), _.
    split; [reflexivity|]. intros r' [[_ ->]|(e & [=] & _)].
    subst P. unfold collapsed_to. cbn. rewrite K. repeat split; eauto.
  - (* QuantumDoor *)
    unfold QuantumDoor_collapse. apply tail. cbn [state_is].
    destruct (v =? 1)%Z;
      (apply two; [eapply set_mesh_material_opacity_spec, HB | |];
       intros; subst P; unfold collapsed_to; cbn; rewrite ?K, ?V;
       repeat split; eauto; congruence).
  - (* QuantumHazard *)
    unfold QuantumHazard_collapse. apply tail. cbn [state_is].
    destruct (v =? 1)%Z eqn:V;
      (apply two;
       [eapply material_color_set_frame, HB | |];
       intros; subst P; unfold collapsed_to; cbn; rewrite ?K, ?V;
       repeat split; eauto; congruence).
  - (* QuantumPlatform *)
    unfold QuantumPlatform_collapse, bind at 1. rewrite EB.
    unfold bind at 1. rewrite (deref_Some _ _ _ HB).
    destruct (mesh oB) as [mm|]; [destruct (mesh_material mm) as [mt|]|].
    + destruct (state_is (Some v) 0);
        [destruct (set_material_opacity_spec mt 0.3 wB) as (ms' & E)
        |destruct (set_material_opacity_spec mt 0.9 wB) as (ms' & E)];
        unfold bind; rewrite E; unfold ret;
        exists oB, (Normal (Some v)), ms', ps, n;
        (split; [reflexivity | apply PB; congruence]).
    + exists oB, (Normal (Some v)), ms, ps, n.
      split; [reflexivity | apply PB; congruence].
    + exists oB, (Normal (Some v)), ms, ps, n.
      split; [reflexivity | apply PB; congruence].
  - (* QuantumObstacle *)
    unfold QuantumObstacle_collapse. apply tail. cbn [state_is].
    assert (G : forall c, exists ms',
      (if has_material_color oB (materials wB) then material_color_set this c else ret tt) wB
      = (Normal tt, with_materials ms' wB)).
    { intros c. destruct (has_material_color oB (materials wB)) eqn:HC.
      - destruct (material_color_set_spec wB this oB c HB) as (r & ms' & E & N).
        rewrite (N HC) in E. eauto.
      - exists (materials wB). now rewrite with_materials_id. }
    destruct (v =? 1)%Z eqn:V;
      unfold bind at 1; rewrite (deref_Some _ _ _ HB); unfold bind at 1, get;
      [destruct (G 0xff0000%Z) as (ms' & E) | destruct (G 0x00ff00%Z) as (ms' & E)];
      unfold bind; rewrite E;
      rewrite (update_this_Some (with_materials ms' wB) this oB _ HB);
      eexists (Normal tt), ms', _; (split; [reflexivity|]);
      intros r' [[_ ->]|(e & [=] & _)];
      subst P; unfold collapsed_to; cbn; rewrite ?K, ?V;
      repeat split; eauto; congruence.
Qed.



(** ** How objects evolve *)

Lemma evolves_refl (a : QuantumObject) : evolves a a.
Proof. now repeat split. Qed.

Lemma evolves_trans (a b c : QuantumObject) : evolves a b -> evolves b c -> evolves a c.
Proof.
  intros (K1 & S1 & O1 & I1) (K2 & S2 & O2 & I2).
  repeat split; [congruence | congruence | auto | auto].
Qed.

Lemma heap_advance_refl (h : list QuantumObject) : heap_advance h h.
Proof.
  repeat split; [lia | eauto using evolves_refl |].
  intros i b L E. apply lookup_lt_Some in E. lia.
Qed.

Lemma heap_advance_trans (h1 h2 h3 : list QuantumObject) :
  heap_advance h1 h2 -> heap_advance h2 h3 -> heap_advance h1 h3.
Proof.
  intros (L1 & E1 & N1) (L2 & E2 & N2). repeat split; [lia | |].
  - intros i a Ha. destruct (E1 i a Ha) as (b & Hb & Eab).
    destruct (E2 i b Hb) as (c & Hc & Ebc). eauto using evolves_trans.
  - intros i c Li Hc. destruct (decide (length h2 <= i)%nat) as [G|G]; [eauto|].
    destruct (lookup_lt_is_Some_2 h2 i) as (b & Hb); [lia|].
    destruct (E2 i b Hb) as (c' & Hc' & (_ & _ & _ & Ok)).
    rewrite Hc in Hc'. injection Hc' as <-. eauto.
Qed.

Lemma heap_advance_insert (h : list QuantumObject) (this : ObjId) (a b : QuantumObject) :
  h !! this = Some a -> evolves a b -> heap_advance h (<[this := b]> h).
Proof.
  intros H E. repeat split.
  - now rewrite length_insert.
  - intros i a' Ha'. destruct (decide (i = this)) as [->|N].
    + rewrite (lookup_insert_this _ _ _ _ H). rewrite H in Ha'. injection Ha' as <-. eauto.
    + rewrite list_lookup_insert_ne by congruence. eauto using evolves_refl.
  - intros i b' L Hb'. apply lookup_lt_Some in Hb'. rewrite length_insert in Hb'. lia.
Qed.

Lemma heap_advance_app (h : list QuantumObject) (o : QuantumObject) :
  obj_ok o -> heap_advance h (h ++ [o]).
Proof.
  intros Ok. repeat split.
  - rewrite length_app. lia.
  - intros i a Ha. exists a. split; [|apply evolves_refl].
    rewrite lookup_app_l; [exact Ha | eapply lookup_lt_Some, Ha].
  - intros i b L Hb. rewrite lookup_app_r in Hb by exact L.
    destruct (i - length h)%nat; cbn in Hb; [congruence | discriminate].
Qed.

Lemma objects_only_refl (w : World) : objects_only w w.
Proof. split; [apply heap_advance_refl | now repeat split]. Qed.

Lemma objects_only_trans (w1 w2 w3 : World) :
  objects_only w1 w2 -> objects_only w2 w3 -> objects_only w1 w3.
Proof.
  intros (A1 & L1 & Q1 & T1) (A2 & L2 & Q2 & T2).
  split; [eapply heap_advance_trans; eauto | repeat split; congruence].
Qed.

(** Replacing [this] by an object it may evolve into, whatever happens to
    the sinks. *)
Lemma objects_only_insert (w : World) (this : ObjId) (a b : QuantumObject)
    ms sc ps n pg es :
  heap w !! this = Some a -> evolves a b ->
  objects_only w (mkWorld (<[this := b]> (heap w)) ms (quantum w) sc ps
                          (random_tape w) n pg (timers w) es).
Proof.
  intros H E. split; [apply (heap_advance_insert _ _ _ _ H E) | repeat split].
  apply length_insert.
Qed.

Lemma collapsed_to_evolves (v : Z) (obj obj' : QuantumObject) r :
  observedState obj = None -> collapsed_to v obj r obj' -> evolves obj obj'.
Proof.
  intros N (K & _ & S & O & _ & _ & Hm). repeat split; [exact K | exact S | congruence |].
  unfold obj_ok. rewrite K, O, Hm, N.
  destruct (kind obj); cbn; try tauto. congruence.
Qed.

Lemma calls_app (es es' : list Event) : calls (es ++ es') = calls es ++ calls es'.
Proof.
  induction es as [|e es IH]; [reflexivity|].
  destruct e; cbn; now rewrite IH.
Qed.


(** ** setObserverMode and updateQuantumState *)

Lemma setObserverMode_idle (w : World) (this : ObjId) (obj : QuantumObject) (b : bool) :
  heap w !! this = Some obj ->
  b = false \/ observedState obj <> None ->
  setObserverMode this b w = (Normal tt, w).
Proof.
  intros H C. unfold setObserverMode, bind. rewrite (deref_Some _ _ _ H).
  destruct C as [->|C]; [reflexivity|].
  rewrite bool_decide_eq_false_2 by exact C. now rewrite andb_false_r.
Qed.

Lemma setObserverMode_spec (w : World) (this : ObjId) (obj : QuantumObject) (b : bool) :
  heap w !! this = Some obj ->
  exists w', setObserverMode this b w = (Normal tt, w') /\
             objects_only w w' /\ calls (events w') = calls (events w).
Proof.
  intros H.
  destruct (decide (b = false \/ observedState obj <> None)) as [C|C].
  { exists w. rewrite (setObserverMode_idle _ _ _ _ H C).
    auto using objects_only_refl. }
  assert (b = true) as -> by (destruct b; tauto).
  assert (N : observedState obj = None) by (destruct (observedState obj); [exfalso|]; eauto).
  unfold setObserverMode, bind at 1. rewrite (deref_Some _ _ _ H).
  rewrite bool_decide_eq_true_2 by exact N. cbn [andb].
  unfold bind, Math_random. cbn [fst snd].
  destruct (Qltb _ 0.3).
  - set (wr := with_random_pos _ w).
    destruct (collapse_spec wr this obj None H) as (obj' & r & ms & ps & n & E & C2).
    cbn [arg] in E. unfold try_catch, bind. rewrite E.
    pose proof (collapsed_to_evolves _ _ _ _ N C2) as Ev.
    destruct r as [a|e]; eexists; (split; [reflexivity|]); cbn;
      (split; [apply (objects_only_insert w _ _ _ _ _ _ _ _ _ H Ev)|]);
      rewrite !calls_app, ?app_nil_r; cbn; now rewrite ?app_nil_r.
  - eexists. split; [reflexivity|]. split; [|reflexivity].
    split; [apply heap_advance_refl | now repeat split].
Qed.

Lemma updateQuantumState_collapsed (w : World) (this : ObjId) (obj : QuantumObject)
    (delta time : Q) :
  heap w !! this = Some obj -> observedState obj <> None ->
  updateQuantumState this delta time w = (Normal tt, w).
Proof.
  intros H C. unfold updateQuantumState, bind. rewrite (deref_Some _ _ _ H).
  destruct (observedState obj); [reflexivity | congruence].
Qed.

Lemma updateQuantumState_spec (w : World) (this : ObjId) (obj : QuantumObject)
    (delta time : Q) :
  heap w !! this = Some obj ->
  exists w', updateQuantumState this delta time w = (Normal tt, w') /\
             objects_only w w' /\ events w' = events w.
Proof.
  intros H. destruct (observedState obj) as [v|] eqn:O.
  { exists w. rewrite (updateQuantumState_collapsed _ _ _ _ _ H) by congruence.
    auto using objects_only_refl. }
  unfold updateQuantumState, bind at 1. rewrite (deref_Some _ _ _ H), O.
  unfold bind at 1, getSuperpositionState, ret.
  set (f := _ * 0.4 + _ * 0.3 + _ * 0.3).
  unfold bind. rewrite (update_this_Some _ _ _ _ H).
  set (obj1 := with_superpositionFactor f obj).
  destruct (updateVisualState_spec (with_heap (<[this := obj1]> (heap w)) w) this obj1)
    as (m & ms & E); [apply (lookup_insert_this _ _ _ _ H)|].
  rewrite E. eexists. split; [reflexivity|]. cbn. rewrite list_insert_insert_eq.
  split; [|reflexivity].
  apply (objects_only_insert w this obj _ ms (score w) (particles w) (random_pos w)
           (page w) (events w) H).
  now repeat split.
Qed.



(** ** Loops over the registry *)

Lemma forEach_from_preserves (J : World -> Prop) (callback : ObjId -> M unit) :
  (forall obj w, J w -> J (snd (callback obj w))) ->
  forall n k w, J w -> J (snd (forEach_from n k callback w)).
Proof.
  intros HJ. induction n as [|n IH]; intros k w Jw; [exact Jw|].
  cbn [forEach_from]. unfold bind at 1, get.
  destruct (quantumObjects (quantum w) !! k) as [obj|]; [|now apply IH].
  unfold bind. specialize (HJ obj w Jw).
  destruct (callback obj w) as [[[]|e] w1]; cbn in *; [now apply IH | exact HJ].
Qed.

Lemma forEach_from_rule (I : nat -> World -> Prop) (callback : ObjId -> M unit)
    (l : list ObjId) :
  (forall k w obj, I k w -> quantumObjects (quantum w) = l -> l !! k = Some obj ->
     exists w', callback obj w = (Normal tt, w') /\
                quantumObjects (quantum w') = l /\ I (S k) w') ->
  forall n k w, (k + n = length l)%nat -> quantumObjects (quantum w) = l -> I k w ->
    exists w', forEach_from n k callback w = (Normal tt, w') /\
               quantumObjects (quantum w') = l /\ I (length l) w'.
Proof.
  intros HI. induction n as [|n IH]; intros k w L R Ik.
  - exists w. replace (length l) with k by lia. now repeat split.
  - cbn [forEach_from]. unfold bind at 1, get. rewrite R.
    destruct (lookup_lt_is_Some_2 l k) as (obj & Hk); [lia|]. rewrite Hk.
    destruct (HI k w obj Ik R Hk) as (w1 & E & R1 & I1).
    unfold bind. rewrite E. apply IH; [lia | exact R1 | exact I1].
Qed.

Lemma is_object_length (h h' : list QuantumObject) (o : ObjId) :
  length h' = length h -> is_object h' o = is_object h o.
Proof.
  intros L. unfold is_object.
  destruct (h !! o) eqn:E, (h' !! o) eqn:E'; try reflexivity.
  - apply lookup_lt_Some in E. apply lookup_ge_None in E'. lia.
  - apply lookup_lt_Some in E'. apply lookup_ge_None in E. lia.
Qed.

(** ** The broadcast *)

Lemma broadcast_callback_spec (w : World) (obj : ObjId) :
  exists w', broadcast_callback obj w = (Normal tt, w') /\
    objects_only w w' /\
    calls (events w') =
    calls (events w) ++
    (if is_object (heap w) obj then [(obj, observerMode (quantum w))] else []).
Proof.
  unfold broadcast_callback, bind at 1, get, is_object.
  destruct (heap w !! obj) as [o|] eqn:H.
  - unfold bind at 1, bind at 1, emit, modify.
    set (w1 := with_events _ w).
    destruct (setObserverMode_spec w1 obj o (observerMode (quantum w)) H)
      as (w' & E & (A & L & Q & T) & C).
    exists w'. split; [exact E|].
    split; [split; [exact A | repeat split; [exact L | exact Q | exact T]]|].
    rewrite C. subst w1. cbn. now rewrite calls_app.
  - exists w. rewrite app_nil_r. auto using objects_only_refl.
Qed.

Lemma broadcast_spec (w : World) :
  exists w', quantumObjects_forEach broadcast_callback w = (Normal tt, w') /\
    objects_only w w' /\
    calls (events w') =
    calls (events w) ++
    map (fun o => (o, observerMode (quantum w)))
        (List.filter (is_object (heap w)) (quantumObjects (quantum w))).
Proof.
  unfold quantumObjects_forEach, bind, get.
  set (l := quantumObjects (quantum w)).
  destruct (forEach_from_rule
    (fun k w' => objects_only w w' /\
       calls (events w') =
       calls (events w) ++
       map (fun o => (o, observerMode (quantum w)))
           (List.filter (is_object (heap w)) (take k l)))
    broadcast_callback l) with (n := length l) (k := 0%nat) (w := w)
    as (w' & E & _ & O & C).
  - intros k w1 obj (O1 & C1) R1 Hk.
    destruct (broadcast_callback_spec w1 obj) as (w2 & E & O2 & C2).
    exists w2. split; [exact E|].
    pose proof (objects_only_trans _ _ _ O1 O2) as O.
    split; [destruct O as (_ & _ & -> & _); reflexivity|]. split; [exact O|].
    rewrite C2, C1, (take_S_r _ _ _ Hk), List.filter_app, map_app, <- app_assoc.
    f_equal. f_equal. cbn.
    destruct O1 as (_ & L1 & Q1 & _). rewrite (is_object_length _ _ _ L1), Q1.
    now destruct (is_object (heap w) obj).
  - lia.
  - reflexivity.
  - split; [apply objects_only_refl|]. cbn. now rewrite app_nil_r.
  - exists w'. rewrite firstn_all in C. auto.
Qed.



(** ** toggleObserverMode *)

Lemma toggleObserverMode_apply_spec (w : World) :
  exists w', toggleObserverMode_apply w = (Normal tt, w') /\
    heap_advance (heap w) (heap w') /\ length (heap w') = length (heap w) /\
    timers w' = timers w /\
    quantum w' = with_uniforms_observerMode
                   (if observerMode (quantum w) then 1.0 else 0.0) (quantum w) /\
    calls (events w') =
    calls (events w) ++
    map (fun o => (o, observerMode (quantum w)))
        (List.filter (is_object (heap w)) (quantumObjects (quantum w))).
Proof.
  set (w1 := with_quantum
    (with_uniforms_observerMode (if observerMode (quantum w) then 1.0 else 0.0) (quantum w))
    (with_page (mkPage (scoreValue (page w)) (observerMode (quantum w))
                       (quantum_fill (page w))) w)).
  change (toggleObserverMode_apply w) with (quantumObjects_forEach broadcast_callback w1).
  destruct (broadcast_spec w1) as (w' & E & (A & L & Q & T) & C).
  exists w'. rewrite E. split; [reflexivity|].
  split; [exact A|]. split; [exact L|]. split; [exact T|]. split; [exact Q | exact C].
Qed.

Lemma toggleObserverMode_gated (w : World) :
  gated (quantum w) = true -> toggleObserverMode None w = (Normal tt, w).
Proof.
  intros G. unfold toggleObserverMode, bind, get. unfold gated in G. now rewrite G.
Qed.

Lemma toggleObserverMode_applied (forceState : option bool) (w : World) :
  forceState <> None \/ gated (quantum w) = false ->
  let b := match forceState with
           | Some b => b
           | None => negb (observerMode (quantum w))
           end in
  exists w', toggleObserverMode forceState w = (Normal tt, w') /\
    heap_advance (heap w) (heap w') /\ length (heap w') = length (heap w) /\
    timers w' = timers w /\
    quantum w' = toggled b (quantum w) /\
    calls (events w') =
    calls (events w) ++
    map (fun o => (o, b)) (List.filter (is_object (heap w)) (quantumObjects (quantum w))).
Proof.
  intros G b.
  assert (S : exists w', (modify_quantum (with_observerMode b) ;;; toggleObserverMode_apply) w
                         = (Normal tt, w') /\
    heap_advance (heap w) (heap w') /\ length (heap w') = length (heap w) /\
    timers w' = timers w /\ quantum w' = toggled b (quantum w) /\
    calls (events w') =
    calls (events w) ++
    map (fun o => (o, b)) (List.filter (is_object (heap w)) (quantumObjects (quantum w)))).
  { unfold bind at 1, modify_quantum, modify.
    destruct (toggleObserverMode_apply_spec (with_quantum (with_observerMode b (quantum w)) w))
      as (w' & E & A & L & T & Q & C).
    exists w'. split; [exact E|].
    split; [exact A|]. split; [exact L|]. split; [exact T|]. split; [exact Q | exact C]. }
  unfold toggleObserverMode. destruct forceState as [b'|]; [exact S|].
  destruct G as [G|G]; [congruence|].
  unfold bind at 1, get. unfold gated in G. rewrite G. exact S.
Qed.

Lemma toggleObserverMode_total (forceState : option bool) (w : World) :
  exists w', toggleObserverMode forceState w = (Normal tt, w') /\
    heap_advance (heap w) (heap w') /\ length (heap w') = length (heap w) /\
    timers w' = timers w /\
    (quantum w' = quantum w \/ exists b, quantum w' = toggled b (quantum w)).
Proof.
  destruct (decide (forceState <> None \/ gated (quantum w) = false)) as [G|G].
  - destruct (toggleObserverMode_applied forceState w G) as (w' & E & A & L & T & Q & _).
    exists w'. eauto 10.
  - destruct forceState; [exfalso; apply G; left; congruence|].
    exists w. rewrite toggleObserverMode_gated.
    + split; [reflexivity|]. split; [apply heap_advance_refl|]. auto.
    + destruct (gated (quantum w)); [reflexivity | tauto].
Qed.



(** ** Steps that keep the invariant *)

Lemma step_ok_refl (w : World) : step_ok w w.
Proof. split; [apply heap_advance_refl | tauto]. Qed.

Lemma step_ok_trans (w1 w2 w3 : World) : step_ok w1 w2 -> step_ok w2 w3 -> step_ok w1 w3.
Proof.
  intros (A1 & R1 & E1) (A2 & R2 & E2).
  split; [eapply heap_advance_trans; eauto | tauto].
Qed.

Lemma objects_only_step_ok (w w' : World) : objects_only w w' -> step_ok w w'.
Proof.
  intros (A & L & Q & T). split; [exact A|].
  unfold registry_ok, energy_ok. rewrite Q, L, T. tauto.
Qed.

(** A step that leaves the store, the system and the timers alone. *)
Lemma sinks_step_ok (w w' : World) :
  heap w' = heap w -> quantum w' = quantum w -> timers w' = timers w -> step_ok w w'.
Proof.
  intros H Q T. apply objects_only_step_ok.
  split; [rewrite H; apply heap_advance_refl | now rewrite H, Q, T].
Qed.

Lemma step_ok_invariant (w w' : World) : step_ok w w' -> invariant w -> invariant w'.
Proof.
  intros ((L & E & N) & R & G) (Ok & Rk & Ek).
  split; [|split; [apply R, Rk | apply G, Ek]].
  - intros i b Hb. destruct (decide (length (heap w) <= i)%nat) as [D|D]; [eauto|].
    destruct (lookup_lt_is_Some_2 (heap w) i) as (a & Ha); [lia|].
    destruct (E i a Ha) as (b' & Hb' & (_ & _ & _ & I)).
    rewrite Hb in Hb'. injection Hb' as <-. eauto.
Qed.

Lemma preserves_ret {A} (a : A) : preserves (ret a).
Proof. intros w. apply step_ok_refl. Qed.

Lemma preserves_throw {A} (e : error) : preserves (@throw A e).
Proof. intros w. apply step_ok_refl. Qed.

Lemma preserves_get {A} (f : World -> A) : preserves (get f).
Proof. intros w. apply step_ok_refl. Qed.

Lemma preserves_bind {A B} (c : M A) (k : A -> M B) :
  preserves c -> (forall a, preserves (k a)) -> preserves (bind c k).
Proof.
  intros Hc Hk w. unfold bind. specialize (Hc w).
  destruct (c w) as [[a|e] w1]; cbn in *; [|exact Hc].
  eapply step_ok_trans; [exact Hc | apply Hk].
Qed.

Lemma preserves_try_catch (c : M unit) (h : error -> M unit) :
  preserves c -> (forall e, preserves (h e)) -> preserves (try_catch c h).
Proof.
  intros Hc Hh w. unfold try_catch. specialize (Hc w).
  destruct (c w) as [[a|e] w1]; cbn in *; [exact Hc|].
  eapply step_ok_trans; [exact Hc | apply Hh].
Qed.

Lemma preserves_emit (e : Event) : preserves (emit e).
Proof. intros w. now apply sinks_step_ok. Qed.

Lemma preserves_Math_random : preserves Math_random.
Proof. intros w. now apply sinks_step_ok. Qed.

Lemma preserves_updateScore (points : Z) : preserves (updateScore points).
Proof. intros w. rewrite updateScore_spec. now apply sinks_step_ok. Qed.

Lemma preserves_createCollapseEffect (p : Vector3) : preserves (createCollapseEffect p).
Proof.
  intros w. destruct (createCollapseEffect_spec p w) as (ps & n & ->).
  now apply sinks_step_ok.
Qed.

Lemma preserves_repeatM (n : nat) (c : M unit) : preserves c -> preserves (repeatM n c).
Proof.
  intros Hc. induction n as [|n IH]; [apply preserves_ret|].
  cbn [repeatM]. apply preserves_bind; auto.
Qed.

Lemma preserves_forEach_from (callback : ObjId -> M unit) (n k : nat) :
  (forall obj, preserves (callback obj)) -> preserves (forEach_from n k callback).
Proof.
  intros Hc w.
  apply (forEach_from_preserves (step_ok w) callback); [|apply step_ok_refl].
  intros obj w1 S1. eapply step_ok_trans; [exact S1 | apply Hc].
Qed.

Lemma preserves_quantumObjects_forEach (callback : ObjId -> M unit) :
  (forall obj, preserves (callback obj)) -> preserves (quantumObjects_forEach callback).
Proof.
  intros Hc. unfold quantumObjects_forEach.
  apply preserves_bind; [apply preserves_get|]. intros l.
  now apply preserves_forEach_from.
Qed.

Lemma preserves_showNotification (msg : string) : preserves (showNotification msg).
Proof. apply preserves_emit. Qed.



(** A step on the system that keeps the store and the registry. *)
Lemma system_step_ok (w w' : World) :
  heap w' = heap w ->
  quantumObjects (quantum w') = quantumObjects (quantum w) ->
  (energy_ok w -> energy_ok w') ->
  step_ok w w'.
Proof.
  intros H R E. split; [rewrite H; apply heap_advance_refl|].
  split; [|exact E]. unfold registry_ok. now rewrite H, R.
Qed.

Lemma preserves_deref (this : ObjId) : preserves (deref this).
Proof. intros w. unfold deref. destruct (heap w !! this); apply step_ok_refl. Qed.

Lemma preserves_setObserverMode (this : ObjId) (b : bool) : preserves (setObserverMode this b).
Proof.
  intros w. destruct (heap w !! this) as [obj|] eqn:H.
  - destruct (setObserverMode_spec w this obj b H) as (w' & -> & O & _).
    now apply objects_only_step_ok.
  - unfold setObserverMode, bind, deref. rewrite H. apply step_ok_refl.
Qed.

Lemma preserves_updateQuantumState (this : ObjId) (delta time : Q) :
  preserves (updateQuantumState this delta time).
Proof.
  intros w. destruct (heap w !! this) as [obj|] eqn:H.
  - destruct (updateQuantumState_spec w this obj delta time H) as (w' & -> & O & _).
    now apply objects_only_step_ok.
  - unfold updateQuantumState, bind, deref. rewrite H. apply step_ok_refl.
Qed.

Lemma preserves_toggleObserverMode (forceState : option bool) :
  preserves (toggleObserverMode forceState).
Proof.
  intros w. destruct (toggleObserverMode_total forceState w) as (w' & -> & A & L & T & Q).
  cbn [snd]. split; [exact A|]. unfold registry_ok, energy_ok. rewrite L, T.
  destruct Q as [->|(b & ->)]; [tauto | cbn; tauto].
Qed.

Lemma preserves_updateUniformTime (delta : Q) : preserves (updateUniformTime delta).
Proof. intros w. now apply system_step_ok. Qed.

Lemma preserves_updateQuantumObjects (delta : Q) : preserves (updateQuantumObjects delta).
Proof.
  apply preserves_quantumObjects_forEach. intros obj.
  apply preserves_bind; [apply preserves_get|]. intros t.
  apply preserves_updateQuantumState.
Qed.

(** The energy step keeps the budget within its bounds. *)
Lemma preserves_handleObserverModeEnergy (delta : Q) :
  0 <= delta -> preserves (handleObserverModeEnergy delta).
Proof.
  intros D. unfold handleObserverModeEnergy.
  apply preserves_bind; [apply preserves_get|]. intros s.
  apply preserves_bind.
  - destruct (observerMode s).
    + apply preserves_bind.
      * intros w. apply system_step_ok; [reflexivity | reflexivity |].
        unfold energy_ok. cbn. intros (E0 & E1 & E2 & E3 & E4 & E5).
        repeat split; try assumption.
        -- apply Q.le_max_l.
        -- apply Q.max_lub; [lra|].
           assert (0 <= energyDrainRate (quantum w) * delta) by (apply Qmult_le_0_compat; lra).
           lra.
      * intros []. apply preserves_bind; [apply preserves_get|]. intros s'.
        destruct (Qle_bool (currentEnergy s') 0);
          [apply preserves_toggleObserverMode | apply preserves_ret].
    + intros w. apply system_step_ok; [reflexivity | reflexivity |].
      unfold energy_ok. cbn. intros (E0 & E1 & E2 & E3 & E4 & E5).
      repeat split; try assumption.
      * apply Q.min_glb; [lra|].
        assert (0 <= energyRechargeRate (quantum w) * delta)
          by (apply Qmult_le_0_compat; [rewrite E4|]; lra).
        lra.
      * apply Q.le_min_l.
  - intros []. intros w. now apply sinks_step_ok.
Qed.

Lemma preserves_update (delta : Q) : 0 <= delta -> preserves (update delta).
Proof.
  intros D. unfold update.
  apply preserves_bind; [apply preserves_updateUniformTime|]. intros [].
  apply preserves_bind; [now apply preserves_handleObserverModeEnergy|]. intros [].
  apply preserves_updateQuantumObjects.
Qed.

(** ** The registry *)

Lemma indexOf_absent (l : list ObjId) (o : ObjId) : o ∉ l -> indexOf l o = (-1)%Z.
Proof.
  induction l as [|a l IH]; intros N; [reflexivity|].
  cbn [indexOf]. destruct (Nat.eqb_spec a o) as [->|D].
  - exfalso. apply N. left.
  - rewrite IH; [reflexivity|]. intros I. apply N. now right.
Qed.

Lemma indexOf_first (l1 l2 : list ObjId) (o : ObjId) :
  o ∉ l1 -> indexOf (l1 ++ o :: l2) o = Z.of_nat (length l1).
Proof.
  induction l1 as [|a l1 IH]; intros N; cbn [indexOf app length].
  - now rewrite Nat.eqb_refl.
  - destruct (Nat.eqb_spec a o) as [->|D]; [exfalso; apply N; left|].
    rewrite IH by (intros I; apply N; now right).
    destruct (Z.eqb_spec (Z.of_nat (length l1)) (-1)); lia.
Qed.

Lemma indexOf_range (l : list ObjId) (o : ObjId) :
  indexOf l o = (-1)%Z \/
  exists l1 l2, l = l1 ++ o :: l2 /\ (o ∉ l1) /\ indexOf l o = Z.of_nat (length l1).
Proof.
  destruct (decide (o ∈ l)) as [I|N]; [right | left; now apply indexOf_absent].
  apply list_elem_of_split_l in I. destruct I as (l1 & l2 & -> & N).
  exists l1, l2. auto using indexOf_first.
Qed.

Lemma splice1_middle (l1 l2 : list ObjId) (o : ObjId) :
  splice1 (l1 ++ o :: l2) (Z.of_nat (length l1)) = l1 ++ l2.
Proof. unfold splice1. rewrite Nat2Z.id. apply delete_middle. Qed.

Lemma unregisterQuantumObject_absent (w : World) (o : ObjId) :
  o ∉ quantumObjects (quantum w) -> unregisterQuantumObject o w = (Normal tt, w).
Proof.
  intros N. unfold unregisterQuantumObject, bind, get.
  now rewrite (indexOf_absent _ _ N).
Qed.

Lemma unregisterQuantumObject_present (w : World) (o : ObjId) (l1 l2 : list ObjId) :
  quantumObjects (quantum w) = l1 ++ o :: l2 -> o ∉ l1 ->
  unregisterQuantumObject o w =
  (Normal tt, with_quantum (with_quantumObjects (l1 ++ l2) (quantum w)) w).
Proof.
  intros E N. unfold unregisterQuantumObject, bind, get, modify_quantum, modify.
  rewrite E, (indexOf_first _ _ _ N).
  destruct (Z.eqb_spec (Z.of_nat (length l1)) (-1)); [lia|]. cbn [negb].
  now rewrite E, splice1_middle.
Qed.

Lemma preserves_unregisterQuantumObject (o : ObjId) : preserves (unregisterQuantumObject o).
Proof.
  intros w. destruct (indexOf_range (quantumObjects (quantum w)) o)
    as [A|(l1 & l2 & E & N & _)].
  - unfold unregisterQuantumObject, bind, get. rewrite A. apply step_ok_refl.
  - rewrite (unregisterQuantumObject_present _ _ _ _ E N).
    split; [apply heap_advance_refl|]. split; [|tauto].
    unfold registry_ok. cbn. rewrite E. intros (ND & V). split.
    + apply NoDup_app in ND. destruct ND as (N1 & N2 & N3).
      apply NoDup_cons in N3. destruct N3 as (N3 & N4).
      apply NoDup_app. repeat split; [assumption | | assumption].
      intros a Ha Ha'. apply (N2 a Ha). now right.
    + intros a Ha. apply V. rewrite elem_of_app in *. rewrite elem_of_cons. tauto.
Qed.

Lemma preserves_dispose (this : ObjId) : preserves (dispose this).
Proof.
  unfold dispose. apply preserves_bind; [apply preserves_deref|]. intros o.
  destruct (material o); [apply preserves_unregisterQuantumObject | apply preserves_throw].
Qed.


(** ** Constructors *)

Lemma lookup_new (h : list QuantumObject) (o : QuantumObject) :
  (h ++ [o]) !! length h = Some o.
Proof. now apply list_lookup_middle. Qed.

Lemma insert_new (h : list QuantumObject) (o o' : QuantumObject) :
  <[length h := o']> (h ++ [o]) = h ++ [o'].
Proof.
  rewrite insert_app_r_alt by lia. now rewrite Nat.sub_diag.
Qed.

Ltac construct :=
  intros w;
  unfold new_QuantumBridge, new_QuantumElevator, new_QuantumDoor, new_QuantumPowerup,
    new_QuantumHazard, new_QuantumPlatform, new_QuantumObstacle, new_QuantumCollectible,
    new_QuantumObject, replace_mesh, replace_material, registerQuantumObject,
    modify_quantum, createQuantumMaterial, new_MeshPhongMaterial, Math_random,
    bind, get, modify, ret, update_this;
  cbn;
  repeat (rewrite ?lookup_new; cbn; rewrite ?insert_new; cbn);
  eexists _, _; split; [reflexivity|]; cbn;
  repeat split; unfold obj_ok; cbn; congruence.

Lemma constructs_QuantumObject (k : Kind) (position size : Vector3) :
  k <> KHazard -> constructs k (new_QuantumObject k position size).
Proof.
  intros N w. eexists _, _. split; [reflexivity|]. cbn.
  repeat split. unfold obj_ok. cbn. now destruct k.
Qed.

Lemma constructs_QuantumBridge (p q : Vector3) (width : Q) :
  constructs KBridge (new_QuantumBridge p q width).
Proof. construct. Qed.

Lemma constructs_QuantumElevator (p s : Vector3) (lo hi : Q) :
  constructs KElevator (new_QuantumElevator p s lo hi).
Proof. construct. Qed.

Lemma constructs_QuantumDoor (p : Vector3) (wd ht : Q) :
  constructs KDoor (new_QuantumDoor p wd ht).
Proof. construct. Qed.

Lemma constructs_QuantumPowerup (p : Vector3) (t : PowerupType) :
  constructs KPowerup (new_QuantumPowerup p t).
Proof. construct. Qed.

Lemma constructs_QuantumHazard (p : Vector3) (s : Q) :
  constructs KHazard (new_QuantumHazard p s).
Proof. construct. Qed.

Lemma constructs_QuantumPlatform (p s : Vector3) :
  constructs KPlatform (new_QuantumPlatform p s).
Proof. construct. Qed.

Lemma constructs_QuantumObstacle (p : Vector3) (s : Q) :
  constructs KObstacle (new_QuantumObstacle p s).
Proof. construct. Qed.

Lemma constructs_QuantumCollectible (p : Vector3) :
  constructs KCollectible (new_QuantumCollectible p).
Proof. construct. Qed.

Lemma constructs_step_ok (k : Kind) (c : M nat) (w : World) :
  constructs k c -> step_ok w (snd (discard c w)).
Proof.
  intros C. destruct (C w) as (obj & w' & E & H & Q & T & _ & _ & _ & Ok).
  unfold discard, bind. rewrite E. cbn.
  split; [rewrite H; now apply heap_advance_app|].
  unfold registry_ok, energy_ok. rewrite H, Q, T, length_app. cbn.
  split; [|tauto]. intros (ND & V). split.
  - apply NoDup_app. repeat split; [exact ND | | apply NoDup_singleton].
    intros a Ha Hb. apply list_elem_of_singleton in Hb. subst a.
    apply V in Ha. lia.
  - intros a Ha. apply elem_of_app in Ha. destruct Ha as [Ha|Ha].
    + apply V in Ha. lia.
    + apply list_elem_of_singleton in Ha. lia.
Qed.


(** ** The remaining turns *)

Lemma preserves_update_this (this : ObjId) (f : QuantumObject -> QuantumObject) :
  (forall o, evolves o (f o)) -> preserves (update_this this f).
Proof.
  intros Hf w. unfold update_this. destruct (heap w !! this) as [o|] eqn:H;
    [|apply step_ok_refl].
  apply objects_only_step_ok. destruct w. apply (objects_only_insert _ _ _ _ _ _ _ _ _ _ H).
  apply Hf.
Qed.

Lemma preserves_handleClick (quantumObject : ObjId) : preserves (handleClick quantumObject).
Proof.
  intros w. unfold handleClick, bind at 1.
  destruct (heap w !! quantumObject) as [obj|] eqn:H;
    [rewrite (deref_Some _ _ _ H) | unfold deref; rewrite H; apply step_ok_refl].
  destruct (observedState obj) eqn:N; [apply step_ok_refl|].
  destruct (collapse_spec w quantumObject obj None H) as (obj' & r & ms & ps & n & E & C).
  cbn [arg] in E. unfold bind. rewrite E.
  pose proof (collapsed_to_evolves _ _ _ _ N C) as Ev.
  assert (S1 : forall sc pg es, step_ok w
    (mkWorld (<[quantumObject := obj']> (heap w)) ms (quantum w) sc ps
             (random_tape w) n pg (timers w) es)).
  { intros. apply objects_only_step_ok, (objects_only_insert _ _ _ _ _ _ _ _ _ _ H Ev). }
  destruct r as [a|e]; [|apply S1].
  rewrite updateScore_spec. apply S1.
Qed.

Lemma preserves_QuantumPowerup_collect (this : ObjId) (player : bool) :
  preserves (QuantumPowerup_collect this player).
Proof.
  unfold QuantumPowerup_collect.
  apply preserves_bind; [apply preserves_deref|]. intros o.
  destruct (truthy (isCollected o)); [apply preserves_ret|].
  apply preserves_bind; [now apply preserves_update_this|]. intros [].
  apply preserves_bind.
  - destruct (powerupType o) as [[| | |]|]; try apply preserves_ret.
    + (* energy *)
      apply preserves_bind; [|intros; apply preserves_showNotification].
      intros w. apply system_step_ok; [reflexivity | reflexivity |].
      unfold energy_ok. cbn. intros (E0 & E1 & E2 & E3 & E4 & E5).
      repeat split; try assumption; rewrite E2; lra.
    + (* speed *)
      destruct player; [apply preserves_showNotification | apply preserves_ret].
    + (* observer *)
      intros w. apply system_step_ok; [reflexivity | reflexivity |].
      unfold energy_ok. cbn. intros (E0 & E1 & E2 & E3 & E4 & E5).
      repeat split; try assumption; [lra|].
      apply Forall_app. split; [assumption|]. now apply Forall_singleton.
  - intros []. apply preserves_bind; [apply preserves_createCollapseEffect|]. intros [].
    apply preserves_bind; [apply preserves_updateScore|]. intros [].
    apply preserves_dispose.
Qed.

Lemma preserves_QuantumCollectible_collect (this : ObjId) :
  preserves (QuantumCollectible_collect this).
Proof.
  unfold QuantumCollectible_collect.
  apply preserves_bind; [apply preserves_deref|]. intros o.
  destruct (truthy (isCollected o)); [apply preserves_ret|].
  apply preserves_bind; [now apply preserves_update_this|]. intros [].
  apply preserves_bind; [apply preserves_createCollapseEffect|]. intros [].
  apply preserves_bind;
    [apply preserves_repeatM, preserves_createCollapseEffect|]. intros [].
  apply preserves_bind; [apply preserves_updateScore|]. intros [].
  apply preserves_bind; [apply preserves_showNotification|]. intros [].
  apply preserves_dispose.
Qed.

Lemma preserves_collect (this : ObjId) (player : bool) : preserves (collect this player).
Proof.
  unfold collect. apply preserves_bind; [apply preserves_deref|]. intros o.
  destruct (kind o); try apply preserves_throw.
  - apply preserves_QuantumPowerup_collect.
  - apply preserves_QuantumCollectible_collect.
Qed.

Lemma preserves_observerBoost_timeout (i : nat) : preserves (observerBoost_timeout i).
Proof.
  intros w. unfold observerBoost_timeout, bind at 1, get.
  destruct (timers w !! i) as [r|] eqn:T; [|apply step_ok_refl].
  apply system_step_ok; [reflexivity | reflexivity |].
  unfold energy_ok. cbn. intros (E0 & E1 & E2 & E3 & E4 & E5).
  repeat split; try assumption.
  - rewrite Forall_lookup in E5. apply (E5 i r T).
  - apply Forall_delete, E5.
Qed.

(** Every turn keeps the invariant. *)
Lemma after_step_ok (a : Action) (w : World) : possible a -> step_ok w (after a w).
Proof.
  intros P. unfold after.
  destruct a; cbn [run].
  - apply (constructs_step_ok KObject), constructs_QuantumObject. discriminate.
  - apply (constructs_step_ok KBridge), constructs_QuantumBridge.
  - apply (constructs_step_ok KElevator), constructs_QuantumElevator.
  - apply (constructs_step_ok KDoor), constructs_QuantumDoor.
  - apply (constructs_step_ok KPowerup), constructs_QuantumPowerup.
  - apply (constructs_step_ok KHazard), constructs_QuantumHazard.
  - apply (constructs_step_ok KPlatform), constructs_QuantumPlatform.
  - apply (constructs_step_ok KObstacle), constructs_QuantumObstacle.
  - apply (constructs_step_ok KCollectible), constructs_QuantumCollectible.
  - now apply preserves_update.
  - apply preserves_toggleObserverMode.
  - apply preserves_handleClick.
  - apply preserves_collect.
  - apply preserves_dispose.
  - apply preserves_observerBoost_timeout.
Qed.

Lemma initial_invariant (tape : nat -> Q) (pg : Page) : invariant (initial tape pg).
Proof.
  split; [intros i o H; discriminate|]. split.
  - split; [apply NoDup_nil_2 | intros o H; inversion H].
  - unfold energy_ok. cbn. repeat split; try lra; try reflexivity. constructor.
Qed.

Lemma reachable_invariant (w : World) : reachable w -> invariant w.
Proof.
  induction 1 as [tape pg | a w R IH P].
  - apply initial_invariant.
  - eapply step_ok_invariant; [apply after_step_ok, P | exact IH].
Qed.


(** * The claims *)

(** C5.  [getWaveFunction] and [getSuperpositionState] are pure: a call leaves
    the whole world as it was, its result does not depend on the world it is
    made in, and two calls in a row with the same position and time return
    the same number. *)
Theorem wave_functions_pure (p : Vector3) (t : Q) (w w2 : World) :
  snd (getWaveFunction p t w) = w /\
  snd (getSuperpositionState p t w) = w /\
  fst (getWaveFunction p t w) = fst (getWaveFunction p t w2) /\
  fst (getSuperpositionState p t w) = fst (getSuperpositionState p t w2) /\
  (exists v, (let* a := getWaveFunction p t in
              let* b := getWaveFunction p t in ret (a, b)) w = (Normal (v, v), w)) /\
  (exists v, (let* a := getSuperpositionState p t in
              let* b := getSuperpositionState p t in ret (a, b)) w = (Normal (v, v), w)).
Proof.
  repeat split; try reflexivity; eexists; reflexivity.
Qed.

(** C6.  Once [observedState] is no longer null, [updateQuantumState] is a
    no-op, however often it is called: it completes normally and the world,
    hence [observedState] and [superpositionFactor] of the object, is
    unchanged. *)
Theorem updateQuantumState_noop_once_collapsed (w : World) (this : ObjId)
    (obj : QuantumObject) (delta time : Q) (times : nat) :
  heap w !! this = Some obj ->
  observedState obj <> None ->
  updateQuantumState this delta time w = (Normal tt, w) /\
  repeatM times (updateQuantumState this delta time) w = (Normal tt, w).
Proof.
  intros H C.
  pose proof (updateQuantumState_collapsed w this obj delta time H C) as E.
  split; [exact E|].
  induction times as [|k IH]; [reflexivity|].
  cbn [repeatM]. unfold bind. now rewrite E.
Qed.

(** [collapse(1)] of the base class, on any object: it returns 1, the
    object's [observedState] is 1 afterwards, and the requests made are
    exactly one [createCollapseEffect] at the object's position followed by
    one [updateScore(10)]; the score is ten points higher.  The call
    dispatched to the object's own class runs the base method first: state,
    requests and score are as above, and the call returns 1 unless the
    override of a bridge, a door or a hazard then raises. *)
Lemma collapse_1_effects (w : World) (this : ObjId) (obj : QuantumObject) :
  heap w !! this = Some obj ->
  (exists w',
     QuantumObject_collapse this (value (Some 1%Z)) w = (Normal (Some 1%Z), w') /\
     observedState <$> heap w' !! this = Some (Some 1%Z) /\
     events w' = events w ++ [EvCollapseEffect (position obj); EvUpdateScore 10] /\
     score w' = (score w + 10)%Z) /\
  (exists r w',
     collapse this (value (Some 1%Z)) w = (r, w') /\
     observedState <$> heap w' !! this = Some (Some 1%Z) /\
     events w' = events w ++ [EvCollapseEffect (position obj); EvUpdateScore 10] /\
     score w' = (score w + 10)%Z /\
     (r = Normal (Some 1%Z) \/ exists e, r = Throw e) /\
     (kind obj <> KBridge -> kind obj <> KDoor -> kind obj <> KHazard ->
      r = Normal (Some 1%Z))).
Proof.
  intros H. split.
  - destruct (QuantumObject_collapse_spec w this obj (Some 1%Z) H) as (m & ms & ps & n & E).
    eexists. split; [exact E|]. cbn.
    rewrite (lookup_insert_this _ _ _ _ H). now repeat split.
  - destruct (collapse_spec w this obj (Some 1%Z) H)
      as (obj' & r & ms & ps & n & E & (_ & _ & _ & O & R & R' & _)).
    exists r. eexists. split; [exact E|]. cbn.
    rewrite (lookup_insert_this _ _ _ _ H). cbn. rewrite O. now repeat split.
Qed.

(** C9.  [setObserverMode(active)] on an object always completes normally.
    With [active] false, or on an object that has collapsed, it leaves the
    world as it was.  When the roll succeeds and the collapse raises, the
    error is logged with [console.error] and goes no further.  The broadcast
    of [toggleObserverMode], which calls it for each object, therefore
    completes normally as well. *)
Theorem setObserverMode_contains_failures (w : World) (this : ObjId)
    (obj : QuantumObject) (active : bool) :
  heap w !! this = Some obj ->
  (exists w', setObserverMode this active w = (Normal tt, w')) /\
  (active = false \/ observedState obj <> None ->
   setObserverMode this active w = (Normal tt, w)) /\
  (forall e w1,
     active = true -> observedState obj = None ->
     Qltb (random_tape w (random_pos w)) 0.3 = true ->
     collapse this undefined (with_random_pos (S (random_pos w)) w) = (Throw e, w1) ->
     setObserverMode this active w =
     (Normal tt, with_events (events w1 ++ [EvConsoleError e]) w1)) /\
  (forall forceState, exists w', toggleObserverMode forceState w = (Normal tt, w')).
Proof.
  intros H. repeat split.
  - destruct (setObserverMode_spec w this obj active H) as (w' & E & _). eauto.
  - apply (setObserverMode_idle _ _ _ _ H).
  - intros e w1 -> N R E. unfold setObserverMode, bind at 1.
    rewrite (deref_Some _ _ _ H), bool_decide_eq_true_2 by exact N. cbn [andb].
    unfold bind at 1, Math_random. cbn [fst snd]. rewrite R.
    unfold try_catch, bind. now rewrite E.
  - intros f. destruct (toggleObserverMode_total f w) as (w' & E & _). eauto.
Qed.






Lemma handleObserverModeEnergy_spec (delta : Q) (w : World) :
  let s := quantum w in
  let e' := if observerMode s
            then Qmax 0 (currentEnergy s - energyDrainRate s * delta)
            else Qmin (observerModeEnergy s) (currentEnergy s + energyRechargeRate s * delta) in
  exists w', handleObserverModeEnergy delta w = (Normal tt, w') /\
    currentEnergy (quantum w') = e' /\
    observerMode (quantum w') = observerMode s && negb (Qle_bool e' 0).
Proof.
  intros s e'. unfold handleObserverModeEnergy, bind at 1, get. fold s.
  destruct (observerMode s) eqn:O.
  - unfold bind at 2, modify_quantum at 1, modify at 1. fold s. cbn [fst snd].
    unfold bind at 2, get. cbn [quantum with_quantum currentEnergy with_currentEnergy].
    unfold bind at 1. cbv beta. fold s. fold e'. destruct (Qle_bool e' 0) eqn:Z.
    + match goal with
      | |- context [toggleObserverMode (Some false) ?w1] =>
          destruct (toggleObserverMode_applied (Some false) w1
                      (or_introl (Some_ne_None false)))
            as (w2 & E & _ & _ & _ & Q & _)
      end.
      rewrite E. unfold modify. eexists. split; [reflexivity|].
      cbn. rewrite Q. cbn. now split.
    + unfold ret, modify. eexists. split; [reflexivity|]. cbn.
      fold s. now rewrite O.
  - unfold bind, modify_quantum, modify. eexists. split; [reflexivity|]. cbn.
    fold s. now rewrite O.
Qed.


(** C8.  [unregisterQuantumObject], in any world of a session: with an
    object that is not in the registry it completes normally and changes
    nothing; with an object that is in the registry it removes that entry and
    keeps the others in order; called twice for the same object, the second
    call completes normally and changes nothing. *)
Theorem unregister_idempotent_safe (w : World) (object : ObjId) :
  reachable w ->
  (object ∉ quantumObjects (quantum w) ->
   unregisterQuantumObject object w = (Normal tt, w)) /\
  (forall l1 l2, quantumObjects (quantum w) = l1 ++ object :: l2 ->
   unregisterQuantumObject object w =
   (Normal tt, with_quantum (with_quantumObjects (l1 ++ l2) (quantum w)) w)) /\
  (exists w1, unregisterQuantumObject object w = (Normal tt, w1) /\
              (object ∉ quantumObjects (quantum w1)) /\
              unregisterQuantumObject object w1 = (Normal tt, w1)).
Proof.
  intros R. apply reachable_invariant in R. destruct R as (_ & (ND & _) & _).
  assert (P : forall l1 l2, quantumObjects (quantum w) = l1 ++ object :: l2 ->
                            (object ∉ l1) /\ (object ∉ l2)).
  { intros l1 l2 E. rewrite E in ND. apply NoDup_app in ND.
    destruct ND as (_ & N2 & N3). apply NoDup_cons in N3. split; [|tauto].
    intros I. apply (N2 _ I). left. }
  split; [apply unregisterQuantumObject_absent|].
  split; [intros l1 l2 E; apply (unregisterQuantumObject_present _ _ _ _ E), (P _ _ E)|].
  destruct (decide (object ∈ quantumObjects (quantum w))) as [I|N].
  - apply list_elem_of_split in I. destruct I as (l1 & l2 & E).
    destruct (P _ _ E) as (N1 & N2).
    eexists. split; [apply (unregisterQuantumObject_present _ _ _ _ E N1)|].
    assert (N : object ∉ l1 ++ l2) by (rewrite elem_of_app; tauto).
    split; [exact N|]. now apply unregisterQuantumObject_absent.
  - exists w. rewrite (unregisterQuantumObject_absent _ _ N). auto.
Qed.

(** C10.  A hazard of a session that has not collapsed is already harmful:
    [isHarmful] has been true since the constructor, and
    [checkPlayerCollision] answers whether the distance to the player is
    strictly below [size.x / 2 + playerRadius], the sum as the host computes
    it, without touching the world. *)
Theorem hazard_harmful_before_collapse (w : World) (this : ObjId) (obj : QuantumObject)
    (playerPosition : Vector3) (playerRadius : Q) :
  reachable w ->
  heap w !! this = Some obj -> kind obj = KHazard -> observedState obj = None ->
  isHarmful obj = Some true /\
  QuantumHazard_checkPlayerCollision this playerPosition playerRadius w =
  (Normal (Qltb (distanceTo (position obj) playerPosition)
                (Number_add (x (size obj) / 2) playerRadius)), w) /\
  (distanceTo (position obj) playerPosition < Number_add (x (size obj) / 2) playerRadius ->
   QuantumHazard_checkPlayerCollision this playerPosition playerRadius w =
   (Normal true, w)).
Proof.
  intros R H K N. apply reachable_invariant in R. destruct R as (Ok & _).
  specialize (Ok this obj H). unfold obj_ok in Ok. rewrite K in Ok.
  specialize (Ok N).
  assert (E : QuantumHazard_checkPlayerCollision this playerPosition playerRadius w =
              (Normal (Qltb (distanceTo (position obj) playerPosition)
                            (Number_add (x (size obj) / 2) playerRadius)), w)).
  { unfold QuantumHazard_checkPlayerCollision, bind. rewrite (deref_Some _ _ _ H), Ok.
    reflexivity. }
  repeat split; [exact Ok | exact E |].
  intros L. rewrite E. apply Qltb_lt in L. now rewrite L.
Qed.

Lemma QuantumObstacle_checkPlayerCollision_spec (w : World) (this : ObjId)
    (obj : QuantumObject) (playerPosition : Vector3) (playerRadius : Q) :
  heap w !! this = Some obj ->
  QuantumObstacle_checkPlayerCollision this playerPosition playerRadius w =
  (Normal (state_is (observedState obj) 1 &&
           Qltb (distanceTo (position obj) playerPosition)
                (Number_add (x (size obj) / 2) playerRadius)), w).
Proof.
  intros H. unfold QuantumObstacle_checkPlayerCollision, bind.
  rewrite (deref_Some _ _ _ H). now destruct (state_is (observedState obj) 1).
Qed.

(** C7.  An obstacle collapsed with [collapse(1)]: the call returns 1 and
    leaves [isHarmful] true and [observedState] 1, position and size as they
    were.  [checkPlayerCollision] then answers whether the distance to the
    player is strictly below [size.x / 2 + playerRadius], the sum as the
    host computes it (so false at that boundary and beyond), and leaves the
    world as it was.  Its answer is that
    of the joint test of [isHarmful], [observedState === 1] and the distance,
    on this obstacle and, in a session, on every obstacle. *)
Theorem obstacle_collision_after_forced_collapse (w : World) (this : ObjId)
    (obj : QuantumObject) (playerPosition : Vector3) (playerRadius : Q) :
  heap w !! this = Some obj -> kind obj = KObstacle ->
  let d := distanceTo (position obj) playerPosition in
  let reach := Number_add (x (size obj) / 2) playerRadius in
  (exists w1 obj1,
     collapse this (value (Some 1%Z)) w = (Normal (Some 1%Z), w1) /\
     heap w1 !! this = Some obj1 /\
     isHarmful obj1 = Some true /\ observedState obj1 = Some 1%Z /\
     position obj1 = position obj /\ size obj1 = size obj /\
     QuantumObstacle_checkPlayerCollision this playerPosition playerRadius w1 =
       (Normal (Qltb d reach), w1) /\
     (d < reach ->
      QuantumObstacle_checkPlayerCollision this playerPosition playerRadius w1 =
        (Normal true, w1)) /\
     (reach <= d ->
      QuantumObstacle_checkPlayerCollision this playerPosition playerRadius w1 =
        (Normal false, w1)) /\
     Qltb d reach =
       truthy (isHarmful obj1) && state_is (observedState obj1) 1 && Qltb d reach) /\
  (reachable w ->
   QuantumObstacle_checkPlayerCollision this playerPosition playerRadius w =
   (Normal (truthy (isHarmful obj) && state_is (observedState obj) 1 && Qltb d reach), w)).
Proof.
  intros H K d reach. split.
  - destruct (collapse_spec w this obj (Some 1%Z) H)
      as (obj1 & r & ms & ps & n & E & (_ & P & S & O & _ & R & Hm)).
    rewrite K in Hm. cbn in Hm, O.
    rewrite (R ltac:(congruence) ltac:(congruence) ltac:(congruence)) in E.
    eexists _, obj1. split; [exact E|].
    match type of E with _ = (_, ?w1) => set (w1' := w1) in * end.
    assert (H1 : heap w1' !! this = Some obj1) by apply (lookup_insert_this _ _ _ _ H).
    pose proof (QuantumObstacle_checkPlayerCollision_spec w1' this obj1 playerPosition
                  playerRadius H1) as C.
    rewrite O, P, S in C. cbn in C. fold d reach in C.
    repeat split; try assumption.
    + intros L. rewrite C. apply Qltb_lt in L. now rewrite L.
    + intros L. rewrite C. destruct (Qltb d reach) eqn:B; [|reflexivity].
      apply Qltb_lt in B. lra.
    + now rewrite Hm, O.
  - intros R. apply reachable_invariant in R. destruct R as (Ok & _).
    specialize (Ok this obj H). unfold obj_ok in Ok. rewrite K in Ok.
    rewrite (QuantumObstacle_checkPlayerCollision_spec w this obj _ _ H), Ok.
    fold d reach. destruct (observedState obj) as [v|]; cbn; [|reflexivity].
    now destruct (v =? 1)%Z.
Qed.


Lemma exec_app (l1 l2 : list Action) (w : World) :
  exec (l1 ++ l2) w = exec l2 (exec l1 w).
Proof. unfold exec. apply fold_left_app. Qed.

Lemma reachable_exec (l : list Action) (w : World) :
  reachable w -> Forall possible l -> reachable (exec l w).
Proof.
  intros R F. revert w R. induction F as [|a l P F IH]; intros w R; [exact R|].
  cbn. apply IH. now apply reachable_after.
Qed.

Lemma exec_heap_advance (l : list Action) (w : World) :
  Forall possible l -> heap_advance (heap w) (heap (exec l w)).
Proof.
  intros F. revert w. induction F as [|a l P F IH]; intros w; [apply heap_advance_refl|].
  cbn. eapply heap_advance_trans; [apply (after_step_ok a w P) | apply IH].
Qed.

Lemma after_new (a : Action) (w : World) :
  is_new a = true ->
  exists obj, heap (after a w) = heap w ++ [obj] /\ observedState obj = None.
Proof.
  assert (G : forall k c, constructs k c ->
    exists obj, heap (snd (discard c w)) = heap w ++ [obj] /\ observedState obj = None).
  { intros k c C. destruct (C w) as (obj & w' & E & H & _ & _ & _ & _ & N & _).
    exists obj. unfold discard, bind. rewrite E. now split. }
  intros N. unfold after. destruct a; try discriminate N; cbn [run].
  - apply (G KObject), constructs_QuantumObject. discriminate.
  - apply (G KBridge), constructs_QuantumBridge.
  - apply (G KElevator), constructs_QuantumElevator.
  - apply (G KDoor), constructs_QuantumDoor.
  - apply (G KPowerup), constructs_QuantumPowerup.
  - apply (G KHazard), constructs_QuantumHazard.
  - apply (G KPlatform), constructs_QuantumPlatform.
  - apply (G KObstacle), constructs_QuantumObstacle.
  - apply (G KCollectible), constructs_QuantumCollectible.
Qed.

(** The base [collapse] does not test the state, which is left to its
    callers: a value passed is assigned and returned, whatever the state
    was, [null] included. *)
Lemma QuantumObject_collapse_assigns (w : World) (this : ObjId) (obj : QuantumObject)
    (v : option Z) :
  heap w !! this = Some obj ->
  exists obj' w',
    QuantumObject_collapse this (value v) w = (Normal v, w') /\
    heap w' !! this = Some obj' /\ observedState obj' = v.
Proof.
  intros H. set (obj1 := with_observedState v obj).
  unfold QuantumObject_collapse, bind at 1. rewrite (update_this_Some _ _ _ _ H).
  set (w1 := with_heap _ w).
  assert (H1 : heap w1 !! this = Some obj1) by (apply (lookup_insert_this _ _ _ _ H)).
  destruct (updateVisualState_spec w1 this obj1 H1) as (m & ms & E).
  unfold bind at 1. rewrite E. clear E.
  set (w2 := with_materials ms _).
  assert (H2 : heap w2 !! this = Some (with_mesh m obj1)).
  { subst w2. cbn. apply (lookup_insert_this _ _ _ _ H1). }
  unfold bind at 1. rewrite (deref_Some _ _ _ H2).
  destruct (createCollapseEffect_spec (position (with_mesh m obj1)) w2) as (ps & n & E).
  unfold bind at 1. rewrite E. clear E.
  unfold bind at 1. rewrite updateScore_spec.
  unfold bind, deref, ret. subst w2 w1. cbn. rewrite list_insert_insert_eq.
  rewrite (lookup_insert_this _ _ _ _ H).
  eexists _, _. split; [reflexivity|]. cbn.
  split; [apply (lookup_insert_this _ _ _ _ H) | reflexivity].
Qed.

(** A click on a superposed object leaves it at the resolved state, whether
    or not the override raises afterwards. *)
Lemma handleClick_collapses (w : World) (o : ObjId) (obj : QuantumObject) :
  heap w !! o = Some obj -> observedState obj = None ->
  exists obj', heap (snd (handleClick o w)) !! o = Some obj' /\
    observedState obj' = Some (resolved None w obj).
Proof.
  intros H N. unfold handleClick, bind at 1. rewrite (deref_Some _ _ _ H), N.
  destruct (collapse_spec w o obj None H)
    as (obj' & r & ms & ps & n & E & (_ & _ & _ & O & _)).
  cbn [arg] in E. unfold bind. rewrite E. exists obj'.
  destruct r as [a|e]; [rewrite updateScore_spec|]; cbn;
    (split; [apply (lookup_insert_this _ _ _ _ H) | exact O]).
Qed.

(** C1.  An object is constructed in superposition.  Its [observedState]
    leaves null through [collapse]: a click on a superposed object calls it
    and leaves the resolved state.  From then on the state is settled.  The
    callers of [collapse], the click handler and [setObserverMode], test
    [observedState === null] first and do nothing on a collapsed object; so
    through every continuation of the session an object that has collapsed to
    [v] stays at [v], never null again and never another state. *)
Theorem observedState_settles (w : World) (l : list Action) (a : Action) (o : ObjId)
    (obj : QuantumObject) :
  Forall possible l ->
  heap w !! o = Some obj ->
  (is_new a = true ->
   exists new, heap (after a w) = heap w ++ [new] /\ observedState new = None) /\
  (observedState obj = None ->
   exists obj', heap (after (AClick o) w) !! o = Some obj' /\
     observedState obj' = Some (resolved None w obj)) /\
  (observedState obj <> None ->
   after (AClick o) w = w /\ forall b, setObserverMode o b w = (Normal tt, w)) /\
  (forall v, observedState obj = Some v ->
     exists obj', heap (exec l w) !! o = Some obj' /\ observedState obj' = Some v).
Proof.
  intros F H. split; [apply after_new|].
  split; [apply (handleClick_collapses w o obj H)|]. split.
  - intros C. split.
    + unfold after. cbn [run]. unfold handleClick, bind.
      rewrite (deref_Some _ _ _ H). now destruct (observedState obj).
    + intros b. apply (setObserverMode_idle _ _ _ _ H). now right.
  - intros v O. destruct (exec_heap_advance l w F) as (_ & Ev & _).
    destruct (Ev o obj H) as (obj' & H' & (_ & _ & S & _)). eauto.
Qed.


(** * Further properties of the code *)

(** ** Exact effects *)

Lemma set_material_opacity_exact (mt : MatId) (v : Q) (w : World) :
  set_material_opacity mt v w =
  (Normal tt, with_materials (opacity_written (materials w) mt v) w).
Proof.
  unfold set_material_opacity, modify, opacity_written.
  destruct (materials w !! mt); [reflexivity | now rewrite with_materials_id].
Qed.

Lemma set_opacity_if_defined_exact (mat : option MatId) (v : Q) (w : World) :
  set_opacity_if_defined mat v w =
  (Normal tt, with_materials (opacity_if_defined (materials w) mat v) w).
Proof.
  unfold set_opacity_if_defined, opacity_if_defined, bind, get, ret.
  destruct mat as [m|]; [|now rewrite with_materials_id].
  destruct (materials w !! m) as [mt|]; [|now rewrite with_materials_id].
  destruct (opacity mt); [apply set_material_opacity_exact | now rewrite with_materials_id].
Qed.

Lemma updateVisualState_exact (w : World) (this : ObjId) (obj : QuantumObject) :
  heap w !! this = Some obj ->
  updateVisualState this w =
  (Normal tt, with_materials (redrawn_materials obj (materials w))
                (with_heap (<[this := redrawn obj]> (heap w)) w)).
Proof.
  intros H. unfold updateVisualState, bind at 1. rewrite (deref_Some _ _ _ H).
  unfold redrawn, redrawn_materials, visual_scale, visual_opacity.
  destruct (mesh obj) as [m|] eqn:Em.
  - destruct (observedState obj) as [s|]; unfold bind, set_scale;
      rewrite (update_this_Some _ _ _ _ H), set_opacity_if_defined_exact; reflexivity.
  - unfold ret. cbn [option_map]. rewrite <- Em, with_mesh_id, (list_insert_id _ _ _ H).
    now rewrite with_heap_id, with_materials_id.
Qed.

Lemma collapseParticle_exact (p : Vector3) (w : World) :
  collapseParticle p w =
  (Normal tt, with_random_pos (14 + random_pos w)
                (with_particles
                   (particles w ++ [burst_particle p (random_tape w) (random_pos w)]) w)).
Proof.
  unfold collapseParticle.
  do 3 (rewrite bind_Math_random; cbv beta zeta).
  rewrite bind_THREE_generateUUID, bind_Math_random. cbv beta zeta.
  rewrite bind_THREE_generateUUID.
  do 2 (rewrite bind_Math_random; cbv beta zeta).
  reflexivity.
Qed.

Lemma repeat_collapseParticle_exact (p : Vector3) (n : nat) (w : World) :
  repeatM n (collapseParticle p) w =
  (Normal tt, with_random_pos (n * 14 + random_pos w)
                (with_particles
                   (particles w ++ burst p (random_tape w) (random_pos w) n) w)).
Proof.
  revert w. induction n as [|n IH]; intros w.
  - cbn. rewrite app_nil_r. now destruct w.
  - cbn [repeatM]. unfold bind at 1. rewrite collapseParticle_exact, IH.
    cbn. rewrite <- app_assoc. unfold with_random_pos, with_particles. cbn.
    do 2 f_equal. lia.
Qed.

Lemma createCollapseEffect_exact (p : Vector3) (w : World) :
  createCollapseEffect p w =
  (Normal tt, with_random_pos (168 + random_pos w)
                (with_particles (particles w ++ burst p (random_tape w) (random_pos w) 12)
                   (with_events (events w ++ [EvCollapseEffect p]) w))).
Proof.
  unfold createCollapseEffect, bind at 1, emit, modify.
  now rewrite repeat_collapseParticle_exact.
Qed.

Lemma resolve_exact (this : ObjId) (forcedState : option Z) (w : World)
    (obj : QuantumObject) :
  heap w !! this = Some obj ->
  (match arg forcedState with
   | value v => update_this this (with_observedState v)
   | undefined =>
       let* r := Math_random in
       let* o := deref this in
       update_this this
         (with_observedState (Some (if Qltb r (collapseProbability o) then 1 else 0)%Z))
   end) w =
  (Normal tt, with_random_pos (drawn forcedState (random_pos w))
     (with_heap (<[this := with_observedState (Some (resolved forcedState w obj)) obj]>
                   (heap w)) w)).
Proof.
  intros H. destruct forcedState as [v|]; cbn [arg resolved drawn].
  - rewrite (update_this_Some _ _ _ _ H). now destruct w.
  - rewrite bind_Math_random. unfold bind.
    rewrite (deref_Some (with_random_pos _ w) this obj H).
    now rewrite (update_this_Some (with_random_pos _ w) this obj _ H).
Qed.

Lemma QuantumObject_collapse_exact (w : World) (this : ObjId) (obj : QuantumObject)
    (forcedState : option Z) :
  heap w !! this = Some obj ->
  QuantumObject_collapse this (arg forcedState) w =
  (Normal (Some (resolved forcedState w obj)), collapsed_world this forcedState w obj).
Proof.
  intros H. unfold QuantumObject_collapse, bind at 1. rewrite (resolve_exact _ forcedState _ _ H).
  set (o1 := with_observedState _ obj). set (w1 := with_random_pos _ _).
  assert (H1 : heap w1 !! this = Some o1) by apply (lookup_insert_this _ _ _ _ H).
  unfold bind at 1. rewrite (updateVisualState_exact _ _ _ H1).
  set (w2 := with_materials _ _).
  assert (H2 : heap w2 !! this = Some (redrawn o1)).
  { subst w2. cbn. apply (lookup_insert_this _ _ _ _ H1). }
  unfold bind at 1. rewrite (deref_Some _ _ _ H2).
  unfold bind at 1. rewrite createCollapseEffect_exact.
  unfold bind at 1. rewrite updateScore_spec.
  unfold bind, deref, ret, collapsed_world. subst w2 w1. cbn.
  rewrite list_insert_insert_eq, (lookup_insert_this _ _ _ _ H), <- app_assoc.
  reflexivity.
Qed.


Lemma length_opacity_written (ms : list Material) (m : MatId) (v : Q) :
  length (opacity_written ms m v) = length ms.
Proof. unfold opacity_written. destruct (ms !! m); [apply length_insert | reflexivity]. Qed.

Lemma lookup_opacity_written_eq (ms : list Material) (m : MatId) (v : Q) (mat : Material) :
  ms !! m = Some mat -> opacity_written ms m v !! m = Some (with_opacity (Some v) mat).
Proof.
  intros H. unfold opacity_written. rewrite H.
  apply list_lookup_insert_eq. eapply lookup_lt_Some, H.
Qed.

Lemma lookup_opacity_written_ne (ms : list Material) (m i : MatId) (v : Q) :
  i <> m -> opacity_written ms m v !! i = ms !! i.
Proof.
  intros N. unfold opacity_written. destruct (ms !! m); [|reflexivity].
  apply list_lookup_insert_ne. congruence.
Qed.

Lemma color_opacity_written (ms : list Material) (m i : MatId) (v : Q) :
  color <$> opacity_written ms m v !! i = color <$> ms !! i.
Proof.
  destruct (decide (i = m)) as [->|N]; [|now rewrite lookup_opacity_written_ne].
  destruct (ms !! m) as [mat|] eqn:E.
  - now rewrite (lookup_opacity_written_eq _ _ _ _ E).
  - unfold opacity_written. now rewrite E, E.
Qed.

Lemma color_opacity_if_defined (ms : list Material) (mat : option MatId) (i : MatId) (v : Q) :
  color <$> opacity_if_defined ms mat v !! i = color <$> ms !! i.
Proof.
  unfold opacity_if_defined. destruct mat as [m|]; [|reflexivity].
  destruct (ms !! m) as [mt|]; [|reflexivity].
  destruct (opacity mt); [apply color_opacity_written | reflexivity].
Qed.

Lemma color_redrawn_materials (o : QuantumObject) (ms : list Material) (i : MatId) :
  color <$> redrawn_materials o ms !! i = color <$> ms !! i.
Proof.
  unfold redrawn_materials. destruct (mesh o); [apply color_opacity_if_defined | reflexivity].
Qed.

Lemma is_Some_redrawn_materials (o : QuantumObject) (ms : list Material) (i : MatId) :
  is_Some (redrawn_materials o ms !! i) <-> is_Some (ms !! i).
Proof.
  pose proof (color_redrawn_materials o ms i) as C.
  destruct (redrawn_materials o ms !! i), (ms !! i); cbn in C;
    try discriminate; split; intros [? ?]; eauto; discriminate.
Qed.

Lemma has_material_color_redrawn (o o' : QuantumObject) (ms : list Material) :
  material o' = material o ->
  has_material_color o' (redrawn_materials o ms) = has_material_color o ms.
Proof.
  intros M. unfold has_material_color. rewrite M. destruct (material o) as [mt|]; [|reflexivity].
  pose proof (color_redrawn_materials o ms mt) as C.
  destruct (redrawn_materials o ms !! mt) as [a|], (ms !! mt) as [b|]; cbn in C;
    try discriminate; [|reflexivity].
  injection C as ->. reflexivity.
Qed.

Lemma collapsed_world_lookup (w : World) (this : ObjId) (obj : QuantumObject)
    (forcedState : option Z) :
  heap w !! this = Some obj ->
  heap (collapsed_world this forcedState w obj) !! this =
  Some (redrawn (with_observedState (Some (resolved forcedState w obj)) obj)).
Proof. intros H. apply (lookup_insert_this _ _ _ _ H). Qed.

Lemma set_mesh_material_opacity_exact (w : World) (this : ObjId) (o : QuantumObject) (v : Q) :
  heap w !! this = Some o ->
  set_mesh_material_opacity this v w =
  match mesh o with
  | None => (Throw (TypeError "this.mesh is undefined"), w)
  | Some m =>
      match mesh_material m with
      | None => (Throw (TypeError "this.mesh.material is undefined"), w)
      | Some mt => (Normal tt, with_materials (opacity_written (materials w) mt v) w)
      end
  end.
Proof.
  intros H. unfold set_mesh_material_opacity, bind. rewrite (deref_Some _ _ _ H).
  destruct (mesh o) as [m|]; [|reflexivity].
  destruct (mesh_material m); [apply set_material_opacity_exact | reflexivity].
Qed.

(** X1.  The visual end state of a collapse.  On an object with a mesh, the
    base [collapse] leaves the mesh scaled by 1.2 in every direction when the
    state is 1 and by 0.8 otherwise; a material that has an [opacity] gets
    opacity 0.9.  On an object without a mesh nothing visual is written: the
    materials are as before. *)
Theorem collapse_terminal_visual (w : World) (this : ObjId) (obj : QuantumObject)
    (forcedState : option Z) :
  heap w !! this = Some obj ->
  let v := resolved forcedState w obj in
  let f := if (v =? 1)%Z then 1.2 else 0.8 in
  let w' := snd (QuantumObject_collapse this (arg forcedState) w) in
  (forall m, mesh obj = Some m ->
     mesh <$> heap w' !! this = Some (Some (with_mesh_scale (mkVector3 f f f) m)) /\
     (forall mt mat op, material obj = Some mt -> materials w !! mt = Some mat ->
        opacity mat = Some op ->
        materials w' !! mt = Some (with_opacity (Some 0.9) mat))) /\
  (mesh obj = None ->
     mesh <$> heap w' !! this = Some None /\ materials w' = materials w).
Proof.
  intros H v f w'. subst w'. rewrite (QuantumObject_collapse_exact _ _ _ _ H).
  cbn [snd]. rewrite (collapsed_world_lookup _ _ _ _ H). cbn [collapsed_world materials].
  fold v. split.
  - intros m Em. unfold redrawn, redrawn_materials, visual_scale, visual_opacity.
    cbn. rewrite Em. cbn. split; [reflexivity|].
    intros mt mat op Mt L O. unfold opacity_if_defined. rewrite Mt, L, O.
    apply (lookup_opacity_written_eq _ _ _ _ L).
  - intros Em. unfold redrawn, redrawn_materials. cbn. now rewrite Em.
Qed.


Lemma mesh_tail_exact (w : World) (this : ObjId) (o : QuantumObject) (v : Q)
    (g : QuantumObject -> QuantumObject) :
  heap w !! this = Some o ->
  (set_mesh_material_opacity this v ;;; update_this this g) w =
  match mesh o with
  | None => (Throw (TypeError "this.mesh is undefined"), w)
  | Some m =>
      match mesh_material m with
      | None => (Throw (TypeError "this.mesh.material is undefined"), w)
      | Some mt =>
          (Normal tt, with_heap (<[this := g o]> (heap w))
                        (with_materials (opacity_written (materials w) mt v) w))
      end
  end.
Proof.
  intros H. unfold bind. rewrite (set_mesh_material_opacity_exact _ _ _ _ H).
  destruct (mesh o) as [m|]; [|reflexivity].
  destruct (mesh_material m) as [mt|]; [|reflexivity].
  now rewrite (update_this_Some (with_materials _ w) this o g H).
Qed.

(** The shape shared by the door and the bridge: after the base collapse, a
    write of [opacity] through [this.mesh.material], then a flag. *)
Lemma mesh_variant_exact (w : World) (this : ObjId) (obj : QuantumObject)
    (forcedState : option Z) (op : Q) (g : QuantumObject -> QuantumObject) :
  heap w !! this = Some obj ->
  let v := resolved forcedState w obj in
  let o1 := redrawn (with_observedState (Some v) obj) in
  let wc := collapsed_world this forcedState w obj in
  (let* state := QuantumObject_collapse this (arg forcedState) in
   (set_mesh_material_opacity this op ;;; update_this this g) ;;; ret state) w =
  match mesh obj with
  | None => (Throw (TypeError "this.mesh is undefined"), wc)
  | Some m =>
      match mesh_material m with
      | None => (Throw (TypeError "this.mesh.material is undefined"), wc)
      | Some mt =>
          (Normal (Some v),
           with_heap (<[this := g o1]> (heap w))
             (with_materials (opacity_written (materials wc) mt op) wc))
      end
  end.
Proof.
  intros H v o1 wc. unfold bind at 1. rewrite (QuantumObject_collapse_exact _ _ _ _ H).
  fold v wc. unfold bind at 1.
  rewrite (mesh_tail_exact wc this o1 op g (collapsed_world_lookup _ _ _ _ H)).
  subst o1. unfold redrawn at 1. cbn [mesh with_mesh].
  change (mesh (with_observedState (Some v) obj)) with (mesh obj).
  destruct (mesh obj) as [m|]; cbn [option_map]; [|reflexivity].
  cbn [mesh_material with_mesh_scale].
  destruct (mesh_material m) as [mt|]; [|reflexivity].
  unfold ret. f_equal. subst wc. unfold collapsed_world, with_heap, with_materials. cbn.
  now rewrite list_insert_insert_eq.
Qed.

(** X2.  [QuantumDoor.collapse].  On a door with a mesh and a mesh material
    the call returns the resolved state and leaves [isOpen] true exactly when
    that state is 1, with the material's opacity at 0.2 (open) or 0.9
    (closed).  On a door whose mesh or mesh material is missing the call
    raises after the base collapse: [observedState] is the resolved state and
    [isOpen] is what it was. *)
Theorem QuantumDoor_collapse_opens (w : World) (this : ObjId) (obj : QuantumObject)
    (forcedState : option Z) :
  heap w !! this = Some obj ->
  let v := resolved forcedState w obj in
  (forall m mt, mesh obj = Some m -> mesh_material m = Some mt ->
     exists w', QuantumDoor_collapse this (arg forcedState) w = (Normal (Some v), w') /\
       isOpen <$> heap w' !! this = Some (Some (v =? 1)%Z) /\
       observedState <$> heap w' !! this = Some (Some v) /\
       (is_Some (materials w !! mt) ->
        opacity <$> materials w' !! mt = Some (Some (if (v =? 1)%Z then 0.2 else 0.9)))) /\
  (mesh obj = None \/ (exists m, mesh obj = Some m /\ mesh_material m = None) ->
     exists e w', QuantumDoor_collapse this (arg forcedState) w = (Throw e, w') /\
       isOpen <$> heap w' !! this = Some (isOpen obj) /\
       observedState <$> heap w' !! this = Some (Some v)).
Proof.
  intros H v.
  assert (E : forall op g,
    (let* state := QuantumObject_collapse this (arg forcedState) in
     (set_mesh_material_opacity this op ;;; update_this this g) ;;; ret state) w = _)
    by (intros; apply (mesh_variant_exact _ _ _ _ _ _ H)).
  assert (D : QuantumDoor_collapse this (arg forcedState) w =
    if (v =? 1)%Z
    then (let* state := QuantumObject_collapse this (arg forcedState) in
          (set_mesh_material_opacity this 0.2 ;;; update_this this (with_isOpen (Some true)))
          ;;; ret state) w
    else (let* state := QuantumObject_collapse this (arg forcedState) in
          (set_mesh_material_opacity this 0.9 ;;; update_this this (with_isOpen (Some false)))
          ;;; ret state) w).
  { unfold QuantumDoor_collapse, bind at 1, bind at 4, bind at 6.
    rewrite (QuantumObject_collapse_exact _ _ _ _ H). cbn [state_is]. fold v.
    now destruct (v =? 1)%Z. }
  rewrite D, !E. fold v. clear D E. split.
  - intros m mt Em Emt. rewrite Em, Emt.
    destruct (v =? 1)%Z; eexists; (split; [reflexivity|]); cbn;
      rewrite (lookup_insert_this _ _ _ _ H); cbn; repeat split;
      intros L;
      apply (proj2 (is_Some_redrawn_materials (with_observedState (Some v) obj) _ _))
        in L; destruct L as (mat' & L');
      now rewrite (lookup_opacity_written_eq _ _ _ _ L').
  - intros [Em|(m & Em & Emt)]; rewrite Em, ?Emt;
      destruct (v =? 1)%Z; eexists _, _; (split; [reflexivity|]);
      rewrite (collapsed_world_lookup _ _ _ _ H); now cbn.
Qed.

(** X3.  [QuantumBridge.collapse].  On a bridge with a mesh and a mesh
    material the call returns the resolved state and leaves [isSolid] false
    exactly when that state is 0, with the material's opacity at 0.2 (not
    solid) or 0.9 (solid).  On a bridge whose mesh or mesh material is
    missing the call raises after the base collapse and [isSolid] is what it
    was. *)
Theorem QuantumBridge_collapse_solidifies (w : World) (this : ObjId) (obj : QuantumObject)
    (forcedState : option Z) :
  heap w !! this = Some obj ->
  let v := resolved forcedState w obj in
  (forall m mt, mesh obj = Some m -> mesh_material m = Some mt ->
     exists w', QuantumBridge_collapse this (arg forcedState) w = (Normal (Some v), w') /\
       isSolid <$> heap w' !! this = Some (Some (negb (v =? 0)%Z)) /\
       observedState <$> heap w' !! this = Some (Some v) /\
       (is_Some (materials w !! mt) ->
        opacity <$> materials w' !! mt = Some (Some (if (v =? 0)%Z then 0.2 else 0.9)))) /\
  (mesh obj = None \/ (exists m, mesh obj = Some m /\ mesh_material m = None) ->
     exists e w', QuantumBridge_collapse this (arg forcedState) w = (Throw e, w') /\
       isSolid <$> heap w' !! this = Some (isSolid obj) /\
       observedState <$> heap w' !! this = Some (Some v)).
Proof.
  intros H v.
  assert (E : forall op g,
    (let* state := QuantumObject_collapse this (arg forcedState) in
     (set_mesh_material_opacity this op ;;; update_this this g) ;;; ret state) w = _)
    by (intros; apply (mesh_variant_exact _ _ _ _ _ _ H)).
  assert (D : QuantumBridge_collapse this (arg forcedState) w =
    if (v =? 0)%Z
    then (let* state := QuantumObject_collapse this (arg forcedState) in
          (set_mesh_material_opacity this 0.2 ;;; update_this this (with_isSolid (Some false)))
          ;;; ret state) w
    else (let* state := QuantumObject_collapse this (arg forcedState) in
          (set_mesh_material_opacity this 0.9 ;;; update_this this (with_isSolid (Some true)))
          ;;; ret state) w).
  { unfold QuantumBridge_collapse, bind at 1, bind at 4, bind at 6.
    rewrite (QuantumObject_collapse_exact _ _ _ _ H). cbn [state_is]. fold v.
    now destruct (v =? 0)%Z. }
  rewrite D, !E. fold v. clear D E. split.
  - intros m mt Em Emt. rewrite Em, Emt.
    destruct (v =? 0)%Z; eexists; (split; [reflexivity|]); cbn;
      rewrite (lookup_insert_this _ _ _ _ H); cbn; repeat split;
      intros L;
      apply (proj2 (is_Some_redrawn_materials (with_observedState (Some v) obj) _ _))
        in L; destruct L as (mat' & L');
      now rewrite (lookup_opacity_written_eq _ _ _ _ L').
  - intros [Em|(m & Em & Emt)]; rewrite Em, ?Emt;
      destruct (v =? 0)%Z; eexists _, _; (split; [reflexivity|]);
      rewrite (collapsed_world_lookup _ _ _ _ H); now cbn.
Qed.


(** X4.  [QuantumElevator.collapse] always returns the resolved state, mesh
    or no mesh, and sets [targetHeight] to [maxHeight] when the state is 1
    and to [minHeight] otherwise; the elevator itself is not moved by the
    call. *)
Theorem QuantumElevator_collapse_targets (w : World) (this : ObjId) (obj : QuantumObject)
    (forcedState : option Z) :
  heap w !! this = Some obj ->
  let v := resolved forcedState w obj in
  exists w', QuantumElevator_collapse this (arg forcedState) w = (Normal (Some v), w') /\
    targetHeight <$> heap w' !! this =
      Some (if (v =? 1)%Z then maxHeight obj else minHeight obj) /\
    observedState <$> heap w' !! this = Some (Some v) /\
    position <$> heap w' !! this = Some (position obj).
Proof.
  intros H v. unfold QuantumElevator_collapse, bind at 1.
  rewrite (QuantumObject_collapse_exact _ _ _ _ H). fold v.
  unfold bind. rewrite (update_this_Some _ _ _ _ (collapsed_world_lookup _ _ _ _ H)).
  eexists. split; [reflexivity|]. cbn.
  rewrite list_insert_insert_eq, (lookup_insert_this _ _ _ _ H). cbn.
  now destruct (v =? 1)%Z.
Qed.

Lemma material_color_set_exact (w : World) (this : ObjId) (o : QuantumObject) (c : Z) :
  heap w !! this = Some o ->
  if has_material_color o (materials w)
  then exists mt mat, material o = Some mt /\ materials w !! mt = Some mat /\
         material_color_set this c w =
         (Normal tt, with_materials (<[mt := with_color (Some c) mat]> (materials w)) w)
  else exists e, material_color_set this c w = (Throw e, w).
Proof.
  intros H. unfold material_color_set, has_material_color, bind.
  rewrite (deref_Some _ _ _ H). destruct (material o) as [mt|]; unfold get; [|eauto].
  destruct (materials w !! mt) as [mat|] eqn:E; [|eauto].
  destruct (color mat); [|eauto].
  exists mt, mat. unfold set_material_color, modify. now rewrite E.
Qed.

Lemma QuantumHazard_collapse_cases (w : World) (this : ObjId) (obj : QuantumObject)
    (forcedState : option Z) :
  heap w !! this = Some obj ->
  let v := resolved forcedState w obj in
  (has_material_color obj (materials w) = false ->
     exists e w', QuantumHazard_collapse this (arg forcedState) w = (Throw e, w') /\
       observedState <$> heap w' !! this = Some (Some v) /\
       isHarmful <$> heap w' !! this = Some (isHarmful obj) /\
       events w' = events w ++ [EvCollapseEffect (position obj); EvUpdateScore 10]) /\
  (has_material_color obj (materials w) = true ->
     exists w' mt, QuantumHazard_collapse this (arg forcedState) w = (Normal (Some v), w') /\
       observedState <$> heap w' !! this = Some (Some v) /\
       isHarmful <$> heap w' !! this = Some (Some (v =? 1)%Z) /\
       material obj = Some mt /\
       color <$> materials w' !! mt =
         Some (Some (if (v =? 1)%Z then 0xff0000 else 0x00ff00)%Z)).
Proof.
  intros H v.
  set (o1 := redrawn (with_observedState (Some v) obj)).
  set (wc := collapsed_world this forcedState w obj).
  assert (H1 : heap wc !! this = Some o1) by apply (collapsed_world_lookup _ _ _ _ H).
  assert (HC : has_material_color o1 (materials wc) = has_material_color obj (materials w)).
  { subst o1 wc. cbn [collapsed_world materials].
    rewrite (has_material_color_redrawn (with_observedState (Some v) obj)) by reflexivity.
    reflexivity. }
  assert (D : forall c b,
    ((material_color_set this c ;;; update_this this (with_isHarmful (Some b))) ;;;
     ret (Some v)) wc =
    match material_color_set this c wc with
    | (Normal _, w2) => (Normal (Some v),
                         with_heap (<[this := with_isHarmful (Some b) o1]> (heap w2)) w2)
    | (Throw e, w2) => (Throw e, w2)
    end).
  { intros c b. unfold bind. pose proof (material_color_set_exact wc this o1 c H1) as S.
    destruct (has_material_color o1 (materials wc)).
    - destruct S as (mt & mat & _ & _ & ->). cbv beta iota.
      set (w2 := with_materials _ wc).
      assert (H2 : heap w2 !! this = Some o1) by exact H1.
      now rewrite (update_this_Some _ _ _ _ H2).
    - destruct S as (e & ->). reflexivity. }
  assert (E : QuantumHazard_collapse this (arg forcedState) w =
    if (v =? 1)%Z
    then ((material_color_set this 0xff0000 ;;; update_this this (with_isHarmful (Some true)))
          ;;; ret (Some v)) wc
    else ((material_color_set this 0x00ff00 ;;; update_this this (with_isHarmful (Some false)))
          ;;; ret (Some v)) wc).
  { unfold QuantumHazard_collapse, bind at 1.
    rewrite (QuantumObject_collapse_exact _ _ _ _ H). cbn [state_is]. fold v wc.
    now destruct (v =? 1)%Z. }
  assert (S : forall c, _) by (intros c; exact (material_color_set_exact wc this o1 c H1)).
  rewrite HC in S. split; intros C; rewrite C in S.
  - assert (T : exists e, QuantumHazard_collapse this (arg forcedState) w = (Throw e, wc)).
    { rewrite E. destruct (v =? 1)%Z; rewrite D;
        [destruct (S 0xff0000%Z) as (e & ->) | destruct (S 0x00ff00%Z) as (e & ->)]; eauto. }
    destruct T as (e & T). exists e, wc. split; [exact T|]. rewrite H1. now cbn.
  - rewrite E. destruct (v =? 1)%Z eqn:V; rewrite D;
      [destruct (S 0xff0000%Z) as (mt & mat & M & L & ->)
      |destruct (S 0x00ff00%Z) as (mt & mat & M & L & ->)];
      eexists _, mt; (split; [reflexivity|]); cbn;
      rewrite (lookup_insert_this _ _ _ _ H1); cbn;
      (repeat split; [exact M|]);
      fold wc; erewrite list_lookup_insert_eq by (eapply lookup_lt_Some, L); reflexivity.
Qed.

(** X5.  [QuantumHazard.collapse] writes the colour without testing that the
    material has one.  If the hazard's material is missing or has no
    [color], the call raises after the base collapse: [observedState] is the
    resolved state, effect and score have been requested, and [isHarmful] is
    what it was, whatever the state.  If the material has a [color], the
    call returns the resolved state, [isHarmful] is true exactly when that
    state is 1, and the colour is red for 1 and green otherwise. *)
Theorem QuantumHazard_collapse_needs_color (w : World) (this : ObjId) (obj : QuantumObject)
    (forcedState : option Z) :
  heap w !! this = Some obj ->
  let v := resolved forcedState w obj in
  (has_material_color obj (materials w) = false ->
     exists e w', QuantumHazard_collapse this (arg forcedState) w = (Throw e, w') /\
       observedState <$> heap w' !! this = Some (Some v) /\
       isHarmful <$> heap w' !! this = Some (isHarmful obj) /\
       events w' = events w ++ [EvCollapseEffect (position obj); EvUpdateScore 10]) /\
  (has_material_color obj (materials w) = true ->
     exists w' mt, QuantumHazard_collapse this (arg forcedState) w = (Normal (Some v), w') /\
       observedState <$> heap w' !! this = Some (Some v) /\
       isHarmful <$> heap w' !! this = Some (Some (v =? 1)%Z) /\
       material obj = Some mt /\
       color <$> materials w' !! mt =
         Some (Some (if (v =? 1)%Z then 0xff0000 else 0x00ff00)%Z)).
Proof. exact (QuantumHazard_collapse_cases w this obj forcedState). Qed.


(** X6.  [QuantumPlatform.collapse] tests [this.mesh && this.mesh.material]
    before it writes: it always returns the resolved state.  With mesh and
    mesh material, the material's opacity ends at 0.3 when the state is 0 and
    at 0.9 otherwise; without a mesh the materials are as before. *)
Theorem QuantumPlatform_collapse_guarded (w : World) (this : ObjId) (obj : QuantumObject)
    (forcedState : option Z) :
  heap w !! this = Some obj ->
  let v := resolved forcedState w obj in
  exists w', QuantumPlatform_collapse this (arg forcedState) w = (Normal (Some v), w') /\
    observedState <$> heap w' !! this = Some (Some v) /\
    (forall m mt, mesh obj = Some m -> mesh_material m = Some mt ->
       is_Some (materials w !! mt) ->
       opacity <$> materials w' !! mt = Some (Some (if (v =? 0)%Z then 0.3 else 0.9))) /\
    (mesh obj = None -> materials w' = materials w).
Proof.
  intros H v. unfold QuantumPlatform_collapse, bind at 1.
  rewrite (QuantumObject_collapse_exact _ _ _ _ H). fold v.
  unfold bind at 1. rewrite (deref_Some _ _ _ (collapsed_world_lookup _ _ _ _ H)).
  fold v. unfold redrawn at 1. cbn [mesh with_mesh state_is].
  change (mesh (with_observedState (Some v) obj)) with (mesh obj).
  set (wc := collapsed_world this forcedState w obj).
  assert (L : observedState <$> heap wc !! this = Some (Some v)).
  { subst wc. now rewrite (collapsed_world_lookup _ _ _ _ H). }
  destruct (mesh obj) as [m|] eqn:Em; cbn [option_map].
  - cbn [mesh_material with_mesh_scale]. destruct (mesh_material m) as [mt|] eqn:Emt.
    + unfold bind. destruct (v =? 0)%Z; rewrite set_material_opacity_exact;
        eexists; (split; [reflexivity|]); (split; [exact L|]);
        (split; [|discriminate]);
        intros m' mt' Em' Emt' I; injection Em' as <-;
        rewrite Emt in Emt'; injection Emt' as <-;
        apply (proj2 (is_Some_redrawn_materials (with_observedState (Some v) obj) _ _)) in I;
        destruct I as (mat' & I); cbn;
        now rewrite (lookup_opacity_written_eq _ _ _ _ I).
    + unfold bind, ret. eexists. split; [reflexivity|]. split; [exact L|].
      split; [|discriminate].
      intros m' mt' Em' Emt'. injection Em' as <-. congruence.
  - unfold bind, ret. eexists. split; [reflexivity|]. split; [exact L|].
    split; [discriminate|]. intros _. subst wc. cbn. unfold redrawn_materials. cbn.
    now rewrite Em.
Qed.

(** X7.  An unforced base [collapse] resolves on the next random number: to
    1 exactly when that draw is below [collapseProbability], to 0 otherwise.
    The call takes 169 numbers from [Math.random]: the draw, and 14 for each
    of the 12 particles of the burst, 8 of them for the names of the cloned
    material and of the mesh.  With draws in [[0, 1)], as [Math.random]
    gives them, a probability of 1 or more always resolves to 1 and a
    probability of 0 or less always to 0. *)
Theorem unforced_collapse_draw (w : World) (this : ObjId) (obj : QuantumObject) :
  heap w !! this = Some obj ->
  let draw := random_tape w (random_pos w) in
  exists v w', QuantumObject_collapse this undefined w = (Normal (Some v), w') /\
    observedState <$> heap w' !! this = Some (Some v) /\
    random_pos w' = (169 + random_pos w)%nat /\
    (v = 1%Z \/ v = 0%Z) /\
    (v = 1%Z <-> draw < collapseProbability obj) /\
    (0 <= draw -> draw < 1 ->
     (1 <= collapseProbability obj -> v = 1%Z) /\
     (collapseProbability obj <= 0 -> v = 0%Z)).
Proof.
  intros H draw. change undefined with (arg None).
  rewrite (QuantumObject_collapse_exact _ _ _ None H).
  eexists _, _. split; [reflexivity|].
  rewrite (collapsed_world_lookup _ _ _ _ H). cbn. fold draw.
  split; [reflexivity|]. split; [reflexivity|].
  destruct (Qltb draw (collapseProbability obj)) eqn:B.
  - apply Qltb_lt in B. repeat split; auto; intros; lra.
  - assert (N : ~ draw < collapseProbability obj)
      by (intros L; apply Qltb_lt in L; congruence).
    repeat split; auto; try discriminate; intros; exfalso; apply N; lra.
Qed.

(** X8.  [setObserverMode(true)] on a superposed object.  A roll of 0.3 or
    more ends the call: one random number has been drawn and nothing else
    has changed.  A roll below 0.3 collapses the object unforced, and it is
    the next draw that decides the state. *)
Theorem setObserverMode_roll (w : World) (this : ObjId) (obj : QuantumObject) :
  heap w !! this = Some obj -> observedState obj = None ->
  let roll := random_tape w (random_pos w) in
  let draw := random_tape w (S (random_pos w)) in
  (0.3 <= roll ->
   setObserverMode this true w = (Normal tt, with_random_pos (S (random_pos w)) w)) /\
  (roll < 0.3 ->
   exists w', setObserverMode this true w = (Normal tt, w') /\
     observedState <$> heap w' !! this =
       Some (Some (if Qltb draw (collapseProbability obj) then 1 else 0)%Z)).
Proof.
  intros H N roll draw.
  assert (E : setObserverMode this true w =
    if Qltb roll 0.3
    then try_catch (collapse this undefined ;;; ret tt) (fun error => emit (EvConsoleError error))
           (with_random_pos (S (random_pos w)) w)
    else (Normal tt, with_random_pos (S (random_pos w)) w)).
  { unfold setObserverMode, bind at 1. rewrite (deref_Some _ _ _ H).
    rewrite bool_decide_eq_true_2 by exact N. cbn [andb].
    rewrite bind_Math_random. fold roll. now destruct (Qltb roll 0.3). }
  rewrite E. split; intros R.
  - destruct (Qltb roll 0.3) eqn:B; [apply Qltb_lt in B; lra | reflexivity].
  - apply Qltb_lt in R. rewrite R.
    set (wr := with_random_pos _ w).
    destruct (collapse_spec wr this obj None H)
      as (obj' & r & ms & ps & n & C & (_ & _ & _ & O & _)).
    cbn [arg] in C. unfold try_catch, bind. rewrite C.
    destruct r as [a|e]; eexists; (split; [reflexivity|]); cbn;
      rewrite (lookup_insert_this _ _ _ _ H); cbn; now rewrite O.
Qed.

(** X9.  The click handler.  A click on a collapsed object changes nothing.
    A click on a superposed object collapses it unforced; when the collapse
    returns, five more points are awarded, fifteen in all; when the collapse
    raises, the error leaves the handler and the five points are not
    awarded. *)
Theorem handleClick_guarded (w : World) (o : ObjId) (obj : QuantumObject) :
  heap w !! o = Some obj ->
  (observedState obj <> None -> handleClick o w = (Normal tt, w)) /\
  (observedState obj = None ->
   exists r w', handleClick o w = (r, w') /\
     observedState <$> heap w' !! o = Some (Some (resolved None w obj)) /\
     (r = Normal tt /\ score w' = (score w + 15)%Z /\
      events w' = events w ++ [EvCollapseEffect (position obj); EvUpdateScore 10;
                               EvUpdateScore 5]
      \/
      (exists e, r = Throw e) /\ score w' = (score w + 10)%Z /\
      events w' = events w ++ [EvCollapseEffect (position obj); EvUpdateScore 10]) /\
     (kind obj <> KBridge -> kind obj <> KDoor -> kind obj <> KHazard -> r = Normal tt)).
Proof.
  intros H. split; unfold handleClick, bind at 1; rewrite (deref_Some _ _ _ H).
  - intros C. destruct (observedState obj); [reflexivity | congruence].
  - intros ->.
    destruct (collapse_spec w o obj None H)
      as (obj' & r & ms & ps & n & E & (_ & _ & _ & O & R & R' & _)).
    cbn [arg] in E. unfold bind. rewrite E. destruct r as [a|e].
    + rewrite updateScore_spec. eexists _, _. split; [reflexivity|]. cbn.
      rewrite (lookup_insert_this _ _ _ _ H). cbn. rewrite O.
      split; [reflexivity|]. split; [|reflexivity].
      left. split; [reflexivity|]. split; [lia|]. now rewrite <- app_assoc.
    + eexists _, _. split; [reflexivity|]. cbn.
      rewrite (lookup_insert_this _ _ _ _ H). cbn. rewrite O.
      split; [reflexivity|]. split; [right; eauto|].
      intros K1 K2 K3. specialize (R' K1 K2 K3). discriminate.
Qed.


(** X11.  Registering an object and unregistering it again.  If the object
    was not registered, the world is exactly as before.  If it was, it is
    the earlier entry that goes: the object ends up last in the registry. *)
Theorem register_then_unregister (w : World) (object : ObjId) :
  (object ∉ quantumObjects (quantum w) ->
   (registerQuantumObject object ;;; unregisterQuantumObject object) w = (Normal tt, w)) /\
  (forall l1 l2, quantumObjects (quantum w) = l1 ++ object :: l2 -> (object ∉ l1) ->
   exists w', (registerQuantumObject object ;;; unregisterQuantumObject object) w
              = (Normal tt, w') /\
              quantumObjects (quantum w') = l1 ++ l2 ++ [object]).
Proof.
  unfold bind, registerQuantumObject, modify_quantum, modify. split.
  - intros N.
    set (w1 := with_quantum _ w).
    rewrite (unregisterQuantumObject_present w1 object (quantumObjects (quantum w)) []
               eq_refl N).
    subst w1. rewrite app_nil_r. f_equal.
    destruct w as [? ? q ? ? ? ? ? ? ?]. now destruct q.
  - intros l1 l2 E N.
    set (w1 := with_quantum _ w).
    assert (E1 : quantumObjects (quantum w1) = l1 ++ object :: (l2 ++ [object])).
    { subst w1. cbn. now rewrite E, <- app_assoc. }
    rewrite (unregisterQuantumObject_present w1 object l1 (l2 ++ [object]) E1 N).
    eexists. split; reflexivity.
Qed.


(** ** A frame of the quantum system *)

Lemma updateQuantumState_exact (w : World) (this : ObjId) (obj : QuantumObject)
    (delta time : Q) :
  heap w !! this = Some obj ->
  exists ms, updateQuantumState this delta time w =
             (Normal tt, with_materials ms (with_heap (<[this := refreshed time obj]> (heap w)) w)).
Proof.
  intros H. unfold refreshed. destruct (observedState obj) as [v|] eqn:O.
  - exists (materials w). rewrite (updateQuantumState_collapsed _ _ _ _ _ H) by congruence.
    now rewrite (list_insert_id _ _ _ H), with_heap_id, with_materials_id.
  - unfold updateQuantumState, bind at 1. rewrite (deref_Some _ _ _ H), O.
    unfold bind at 1, getSuperpositionState, ret.
    change (_ * 0.4 + _ * 0.3 + _ * 0.3) with (superposition_value (position obj) time).
    unfold bind. rewrite (update_this_Some _ _ _ _ H).
    erewrite updateVisualState_exact by apply (lookup_insert_this _ _ _ _ H).
    eexists. cbn. rewrite list_insert_insert_eq. reflexivity.
Qed.

Lemma broadcast_off_events (w : World) :
  observerMode (quantum w) = false ->
  exists es, snd (quantumObjects_forEach broadcast_callback w) = with_events es w.
Proof.
  intros O. unfold quantumObjects_forEach, bind, get.
  apply (forEach_from_preserves (fun w' => exists es, w' = with_events es w));
    [|exists (events w); now destruct w].
  intros obj w1 (es & ->). unfold broadcast_callback, bind at 1, get.
  cbn [heap with_events].
  destruct (heap w !! obj) as [o|] eqn:L; [|eauto].
  unfold bind at 1. cbn [get fst snd]. unfold bind, emit, modify.
  cbn [quantum with_events]. rewrite O.
  rewrite (setObserverMode_idle (with_events _ (with_events es w)) obj o false L
             (or_introl eq_refl)).
  eexists. reflexivity.
Qed.

Lemma handleObserverModeEnergy_frame (delta : Q) (w : World) r w' :
  handleObserverModeEnergy delta w = (r, w') ->
  heap w' = heap w /\ quantumObjects (quantum w') = quantumObjects (quantum w) /\
  uniforms_time (quantum w') = uniforms_time (quantum w) /\ score w' = score w.
Proof.
  unfold handleObserverModeEnergy, bind at 1, get.
  destruct (observerMode (quantum w));
    [|cbn; intros [= <- <-]; cbn; repeat split; reflexivity].
  unfold bind at 2, modify_quantum at 1, modify at 1. cbn [fst snd].
  unfold bind at 2, get. unfold bind at 1. cbv beta.
  match goal with |- context [Qle_bool ?e 0] => destruct (Qle_bool e 0) end;
    [|cbn; intros [= <- <-]; cbn; repeat split; reflexivity].
  match goal with
  | |- context [toggleObserverMode (Some false) ?w1] =>
      set (w2 := with_quantum
             (with_uniforms_observerMode 0.0 (with_observerMode false (quantum w1)))
             (with_page (mkPage (scoreValue (page w1)) false (quantum_fill (page w1))) w1));
      change (toggleObserverMode (Some false) w1)
        with (quantumObjects_forEach broadcast_callback w2)
  end.
  destruct (broadcast_off_events w2 eq_refl) as (es & B).
  destruct (quantumObjects_forEach broadcast_callback w2) as [[[]|e] w3];
    cbn [snd] in B; subst w3; cbn; intros [= <- <-]; cbn; repeat split; reflexivity.
Qed.

Lemma elem_of_take_S (l : list nat) (k o a : nat) :
  l !! k = Some a -> o <> a -> (o ∈ take (S k) l <-> o ∈ take k l).
Proof.
  intros Hk N. rewrite (take_S_r _ _ _ Hk), elem_of_app, list_elem_of_singleton. tauto.
Qed.

Lemma updateQuantumObjects_exact (delta : Q) (w : World) :
  registry_ok w ->
  exists w', updateQuantumObjects delta w = (Normal tt, w') /\
    quantum w' = quantum w /\ events w' = events w /\ score w' = score w /\
    length (heap w') = length (heap w) /\
    forall o obj, heap w !! o = Some obj ->
      heap w' !! o =
      Some (if bool_decide (o ∈ quantumObjects (quantum w))
            then refreshed (uniforms_time (quantum w)) obj else obj).
Proof.
  intros (ND & V). unfold updateQuantumObjects, quantumObjects_forEach, bind at 1, get.
  set (l := quantumObjects (quantum w)) in *.
  set (t := uniforms_time (quantum w)).
  destruct (forEach_from_rule
    (fun k w' => quantum w' = quantum w /\ events w' = events w /\ score w' = score w /\
       length (heap w') = length (heap w) /\
       forall o obj, heap w !! o = Some obj ->
         heap w' !! o = Some (if bool_decide (o ∈ take k l) then refreshed t obj else obj))
    (fun obj => let* t := get (fun w => uniforms_time (quantum w)) in
                updateQuantumState obj delta t) l) with (n := length l) (k := 0%nat) (w := w)
    as (w' & E & _ & Q & Ev & Sc & L & Hp).
  - intros k w1 a (Q1 & Ev1 & Sc1 & L1 & H1) R1 Hk.
    assert (Na : a ∉ take k l).
    { intros I. apply list_elem_of_lookup in I. destruct I as (j & Hj).
      pose proof (lookup_lt_Some _ _ _ Hj) as Lj. rewrite length_take in Lj.
      rewrite lookup_take_lt in Hj by lia.
      pose proof (NoDup_lookup _ _ _ _ ND Hj Hk). lia. }
    assert (Va : (a < length (heap w))%nat) by (apply V, list_elem_of_lookup; eauto).
    destruct (lookup_lt_is_Some_2 (heap w) a Va) as (oa & Ha).
    pose proof (H1 a oa Ha) as Ha1. rewrite bool_decide_eq_false_2 in Ha1 by exact Na.
    unfold bind, get. rewrite Q1. fold t.
    destruct (updateQuantumState_exact w1 a oa delta t Ha1) as (ms & ->).
    eexists. split; [reflexivity|]. cbn.
    split; [exact R1 |]. split; [exact Q1|]. split; [exact Ev1|].
    split; [exact Sc1|]. split; [now rewrite length_insert|].
    intros o obj Ho. destruct (decide (o = a)) as [->|D].
    + rewrite (lookup_insert_this _ _ _ _ Ha1).
      rewrite bool_decide_eq_true_2; [congruence|].
      rewrite (take_S_r _ _ _ Hk), elem_of_app, list_elem_of_singleton. now right.
    + rewrite list_lookup_insert_ne by congruence. rewrite (H1 o obj Ho).
      f_equal. rewrite (bool_decide_ext _ _ (elem_of_take_S _ _ _ _ Hk D)). reflexivity.
  - lia.
  - reflexivity.
  - repeat split. intros o obj Ho. now rewrite bool_decide_eq_false_2 by (cbn; inversion 1).
  - exists w'. rewrite firstn_all in Hp. auto 10.
Qed.

(** X12.  One frame of [QuantumSystem.update], in any world of a session.
    The call completes normally; the global time has advanced by [delta];
    the registry is as before and no request has been made of the particle
    or score sinks.  Every registered object still in superposition has its
    [superpositionFactor] recomputed at the new time; an object that is not
    registered, or has collapsed, is exactly as it was. *)
Theorem update_frame (w : World) (delta : Q) :
  reachable w ->
  exists w', update delta w = (Normal tt, w') /\
    uniforms_time (quantum w') = uniforms_time (quantum w) + delta /\
    quantumObjects (quantum w') = quantumObjects (quantum w) /\
    score w' = score w /\
    (forall o obj, heap w !! o = Some obj ->
       o ∈ quantumObjects (quantum w) -> observedState obj = None ->
       superpositionFactor <$> heap w' !! o =
         Some (superposition_value (position obj) (uniforms_time (quantum w) + delta)) /\
       observedState <$> heap w' !! o = Some None) /\
    (forall o obj, heap w !! o = Some obj ->
       (o ∉ quantumObjects (quantum w)) \/ observedState obj <> None ->
       heap w' !! o = Some obj).
Proof.
  intros R. apply reachable_invariant in R. destruct R as (_ & Rk & _).
  unfold update, bind at 1. cbn [updateUniformTime modify_quantum modify].
  set (w1 := with_quantum _ w).
  destruct (handleObserverModeEnergy_spec delta w1) as (w2 & E2 & _).
  destruct (handleObserverModeEnergy_frame delta w1 _ _ E2) as (Hh & Hr & Ht & Hs).
  unfold bind. rewrite E2.
  assert (Rk2 : registry_ok w2) by (unfold registry_ok; rewrite Hh, Hr; exact Rk).
  destruct (updateQuantumObjects_exact delta w2 Rk2) as (w3 & E3 & Q3 & Ev3 & Sc3 & L3 & H3).
  exists w3. split; [exact E3|]. rewrite Q3, Ht, Hr.
  split; [reflexivity|]. split; [reflexivity|].
  split; [now rewrite Sc3, Hs|].
  assert (T1 : uniforms_time (quantum w2) = uniforms_time (quantum w) + delta)
    by (rewrite Ht; reflexivity).
  split.
  - intros o obj Ho I N. assert (Ho2 : heap w2 !! o = Some obj) by (rewrite Hh; exact Ho).
    rewrite (H3 o obj Ho2), bool_decide_eq_true_2 by (rewrite Hr; exact I).
    unfold refreshed. rewrite N, T1. cbn. now rewrite N.
  - intros o obj Ho C. assert (Ho2 : heap w2 !! o = Some obj) by (rewrite Hh; exact Ho).
    rewrite (H3 o obj Ho2). destruct C as [C|C].
    + rewrite bool_decide_eq_false_2 by (rewrite Hr; exact C). reflexivity.
    + unfold refreshed. destruct (observedState obj); [|congruence].
      now destruct (bool_decide _).
Qed.


(** ** The wave functions and the burst, in numbers *)

(** X13.  With a sine and a cosine that stay within [[-1, 1]], both wave
    functions return a number in [[0, 1]].  [updateQuantumState] on a
    superposed object therefore leaves [superpositionFactor] in [[0, 1]];
    the mesh scale is [0.8 + superpositionFactor * 0.4] on the three axes,
    which is 0.8 or more, and on a material that has an opacity the opacity
    is [0.4 + superpositionFactor * 0.4], within [[0.4, 0.8]]. *)
Theorem superposition_within_unit_interval (w : World) (this : ObjId)
    (obj : QuantumObject) (delta time : Q) :
  (forall a, -1 <= Math_sin a /\ Math_sin a <= 1) ->
  (forall a, -1 <= Math_cos a /\ Math_cos a <= 1) ->
  heap w !! this = Some obj -> observedState obj = None ->
  (exists v, getWaveFunction (position obj) time w = (Normal v, w) /\ 0 <= v /\ v <= 1) /\
  (exists v, getSuperpositionState (position obj) time w = (Normal v, w) /\
             0 <= v /\ v <= 1) /\
  (exists w' obj', updateQuantumState this delta time w = (Normal tt, w') /\
     heap w' !! this = Some obj' /\
     0 <= superpositionFactor obj' /\ superpositionFactor obj' <= 1 /\
     (forall m, mesh obj' = Some m ->
        x (mesh_scale m) = 0.8 + superpositionFactor obj' * 0.4 /\
        0.8 <= x (mesh_scale m) /\
        y (mesh_scale m) = x (mesh_scale m) /\ z (mesh_scale m) = x (mesh_scale m)) /\
     (forall mt mat op, mesh obj <> None -> material obj = Some mt ->
        materials w !! mt = Some mat -> opacity mat = Some op ->
        exists op', opacity <$> materials w' !! mt = Some (Some op') /\
                    op' = 0.4 + superpositionFactor obj' * 0.4 /\
                    0.4 <= op' /\ op' <= 0.8)).
Proof.
  intros S C H N.
  assert (B : forall p t, 0 <= superposition_value p t /\ superposition_value p t <= 1).
  { intros p t. unfold superposition_value.
    pose proof (S (x p * 0.2 + t * 1.5)). pose proof (C (z p * 0.3 + t * 2.0)).
    pose proof (S (y p * 0.25 + t * 1.0)). lra. }
  split.
  { eexists. split; [reflexivity|].
    pose proof (S (x (position obj) * 0.1 + y (position obj) * 0.1 +
                   z (position obj) * 0.1 + time * 2)). lra. }
  split.
  { exists (superposition_value (position obj) time). split; [reflexivity | apply B]. }
  assert (E : updateQuantumState this delta time w =
    (Normal tt,
     let o1 := with_superpositionFactor (superposition_value (position obj) time) obj in
     with_materials (redrawn_materials o1 (materials w))
       (with_heap (<[this := redrawn o1]> (heap w)) w))).
  { unfold updateQuantumState, bind at 1. rewrite (deref_Some _ _ _ H), N.
    unfold bind at 1, getSuperpositionState, ret.
    change (_ * 0.4 + _ * 0.3 + _ * 0.3) with (superposition_value (position obj) time).
    unfold bind. rewrite (update_this_Some _ _ _ _ H).
    erewrite updateVisualState_exact by apply (lookup_insert_this _ _ _ _ H).
    cbn. now rewrite list_insert_insert_eq. }
  rewrite E. eexists _, _. split; [reflexivity|]. cbn.
  split; [apply (lookup_insert_this _ _ _ _ H)|]. cbn.
  destruct (B (position obj) time) as (B0 & B1).
  split; [exact B0|]. split; [exact B1|]. split.
  - intros m. unfold visual_scale. cbn. rewrite N.
    destruct (mesh obj) as [m0|]; cbn; [|discriminate].
    intros [= <-]. cbn. repeat split; try reflexivity; lra.
  - intros mt mat op M Mt L O. unfold redrawn_materials, visual_opacity. cbn. rewrite N.
    destruct (mesh obj); [|congruence]. unfold opacity_if_defined. rewrite Mt, L, O.
    rewrite (lookup_opacity_written_eq _ _ _ _ L). cbn.
    eexists. split; [reflexivity|]. split; [reflexivity|]. lra.
Qed.

Lemma length_burst (p : Vector3) (tape : nat -> Q) (k n : nat) :
  length (burst p tape k n) = n.
Proof. revert k. induction n as [|n IH]; intros k; cbn; [reflexivity | now rewrite IH]. Qed.

Lemma Forall_burst (P : Particle -> Prop) (p : Vector3) (tape : nat -> Q) (k n : nat) :
  (forall j, P (burst_particle p tape j)) -> Forall P (burst p tape k n).
Proof.
  intros HP. revert k. induction n as [|n IH]; intros k; cbn; constructor; auto.
Qed.

Lemma lookup_burst (p : Vector3) (tape : nat -> Q) (k n j : nat) (q : Particle) :
  burst p tape k n !! j = Some q -> q = burst_particle p tape (14 * j + k).
Proof.
  revert k j. induction n as [|n IH]; intros k j L; [discriminate L|].
  destruct j as [|j]; cbn [burst] in L.
  - injection L as <-. f_equal.
  - cbn [lookup list_lookup] in L. apply IH in L. subst q. f_equal. lia.
Qed.

(** X14.  [createCollapseEffect(position)] completes normally and appends
    exactly twelve particles, all at [position] with initial opacity 0.8;
    objects, system and score are untouched.  It takes 168 numbers from
    [Math.random], fourteen a particle: three for the direction and the
    speed, four for the name of the cloned material, one for the hue, four
    for the name of the mesh, one for the life and one for the maximal
    life.  So the [j]-th particle has its hue from draw [14 j + 7] of the
    call, its life from draw [14 j + 12] and its maximal life from draw
    [14 j + 13].  With draws in [[0, 1)], life and maximal life are in
    [[1, 1.5]] and the hue is at least 0.4. *)
Theorem createCollapseEffect_burst (position : Vector3) (w : World) :
  exists new w', createCollapseEffect position w = (Normal tt, w') /\
    particles w' = particles w ++ new /\ length new = 12%nat /\
    Forall (fun q => p_position q = position /\ p_initialOpacity q = 0.8) new /\
    random_pos w' = (168 + random_pos w)%nat /\
    events w' = events w ++ [EvCollapseEffect position] /\
    heap w' = heap w /\ quantum w' = quantum w /\ score w' = score w /\
    (forall j q, new !! j = Some q ->
       p_hue q = random_tape w (14 * j + 7 + random_pos w) * 0.2 + 0.4 /\
       p_life q = 1 + random_tape w (14 * j + 12 + random_pos w) * 0.5 /\
       p_maxLife q = 1 + random_tape w (14 * j + 13 + random_pos w) * 0.5) /\
    ((forall k, 0 <= random_tape w k /\ random_tape w k < 1) ->
     Forall (fun q => 1 <= p_life q /\ p_life q <= 1.5 /\
                      1 <= p_maxLife q /\ p_maxLife q <= 1.5 /\
                      0.4 <= p_hue q) new).
Proof.
  rewrite createCollapseEffect_exact.
  exists (burst position (random_tape w) (random_pos w) 12). eexists.
  split; [reflexivity|].
  split; [reflexivity|]. split; [apply length_burst|].
  split; [apply Forall_burst; now intros|].
  do 5 (split; [reflexivity|]).
  split.
  - intros j q L. apply lookup_burst in L. subst q. cbn [burst_particle p_hue p_life p_maxLife].
    replace (7 + (14 * j + random_pos w))%nat with (14 * j + 7 + random_pos w)%nat by lia.
    replace (12 + (14 * j + random_pos w))%nat with (14 * j + 12 + random_pos w)%nat by lia.
    replace (13 + (14 * j + random_pos w))%nat with (14 * j + 13 + random_pos w)%nat by lia.
    auto.
  - intros T. apply Forall_burst. intros j. cbn [burst_particle p_hue p_life p_maxLife].
    pose proof (T (7 + j)%nat). pose proof (T (12 + j)%nat). pose proof (T (13 + j)%nat).
    lra.
Qed.


(** ** Disposal and powerups *)

Lemma unregisterQuantumObject_exact (o : ObjId) (w : World) :
  unregisterQuantumObject o w =
  (Normal tt,
   with_quantum (with_quantumObjects (unregistered o (quantumObjects (quantum w)))
                                     (quantum w)) w).
Proof.
  unfold unregisterQuantumObject, unregistered, bind, get, modify_quantum, modify, ret.
  destruct (negb _); [reflexivity|].
  f_equal. destruct w as [? ? q ? ? ? ? ? ? ?]. now destruct q.
Qed.

Lemma unregistered_absent (o : ObjId) (l : list ObjId) : o ∉ l -> unregistered o l = l.
Proof. intros N. unfold unregistered. now rewrite (indexOf_absent _ _ N). Qed.

Lemma unregistered_first (o : ObjId) (l1 l2 : list ObjId) :
  o ∉ l1 -> unregistered o (l1 ++ o :: l2) = l1 ++ l2.
Proof.
  intros N. unfold unregistered. rewrite (indexOf_first _ _ _ N).
  destruct (Z.eqb_spec (Z.of_nat (length l1)) (-1)); [lia|]. apply splice1_middle.
Qed.

Lemma unregistered_NoDup (o : ObjId) (l : list ObjId) :
  NoDup l -> o ∉ unregistered o l.
Proof.
  intros ND. destruct (decide (o ∈ l)) as [I|N]; [|now rewrite unregistered_absent].
  apply list_elem_of_split_l in I. destruct I as (l1 & l2 & -> & N1).
  rewrite (unregistered_first _ _ _ N1).
  apply NoDup_app in ND. destruct ND as (_ & _ & N3). apply NoDup_cons in N3.
  rewrite elem_of_app. tauto.
Qed.

Lemma dispose_exact (w : World) (this : ObjId) (obj : QuantumObject) :
  heap w !! this = Some obj ->
  dispose this w =
  match material obj with
  | None => (Throw (TypeError "this.material is undefined"), w)
  | Some _ =>
      (Normal tt,
       with_quantum (with_quantumObjects (unregistered this (quantumObjects (quantum w)))
                                         (quantum w)) w)
  end.
Proof.
  intros H. unfold dispose, bind. rewrite (deref_Some _ _ _ H).
  destruct (material obj); [apply unregisterQuantumObject_exact | reflexivity].
Qed.

(** X15.  [dispose()].  On an object without a material the call raises
    before it reaches the registry: the world, registry included, is as
    before.  On an object with a material it completes normally, takes the
    object's first entry out of the registry and changes nothing else; in
    a session the object is then no longer registered, and a second
    [dispose()] changes nothing. *)
Theorem dispose_unregisters (w : World) (this : ObjId) (obj : QuantumObject) :
  heap w !! this = Some obj ->
  (material obj = None -> exists e, dispose this w = (Throw e, w)) /\
  (material obj <> None ->
   exists w', dispose this w = (Normal tt, w') /\
     w' = with_quantum (with_quantumObjects (quantumObjects (quantum w')) (quantum w)) w /\
     (forall l1 l2, quantumObjects (quantum w) = l1 ++ this :: l2 -> (this ∉ l1) ->
        quantumObjects (quantum w') = l1 ++ l2) /\
     (reachable w ->
        (this ∉ quantumObjects (quantum w')) /\ dispose this w' = (Normal tt, w'))).
Proof.
  intros H. rewrite (dispose_exact _ _ _ H). split.
  - intros ->. eauto.
  - intros M. destruct (material obj) as [mt|] eqn:Em; [|congruence].
    eexists. split; [reflexivity|]. split; [reflexivity|]. cbn. split.
    + intros l1 l2 E N. rewrite E. apply (unregistered_first _ _ _ N).
    + intros R. apply reachable_invariant in R. destruct R as (_ & (ND & _) & _).
      pose proof (unregistered_NoDup this _ ND) as N. split; [exact N|].
      erewrite dispose_exact by exact H. rewrite Em. cbn.
      rewrite (unregistered_absent _ _ N). reflexivity.
Qed.

Lemma QuantumPowerup_collect_exact (w : World) (this : ObjId) (obj : QuantumObject)
    (player : bool) :
  heap w !! this = Some obj ->
  truthy (isCollected obj) = false -> material obj <> None ->
  QuantumPowerup_collect this player w = (Normal tt, collected_world this player w obj).
Proof.
  intros H C M. unfold QuantumPowerup_collect, bind at 1.
  rewrite (deref_Some _ _ _ H), C.
  unfold bind at 1. rewrite (update_this_Some _ _ _ _ H).
  set (o1 := with_isCollected (Some true) obj).
  set (w1 := with_heap _ w).
  assert (H1 : heap w1 !! this = Some o1) by apply (lookup_insert_this _ _ _ _ H).
  set (w2 := with_timers (timers w ++ boost_timers (powerupType obj) (quantum w))
               (with_events (events w ++ boost_notes (powerupType obj) player)
                  (with_quantum (boosted (powerupType obj) (quantum w)) w1))).
  assert (B : (match powerupType obj with
     | Some PEnergy =>
         modify_quantum (fun s => with_currentEnergy (observerModeEnergy s) s) ;;;
         showNotification "Quantum Energy Restored!"
     | Some PSpeed =>
         if player then showNotification "Speed Boost Activated!" else ret tt
     | Some PObserver =>
         let* originalDrainRate := get (fun w => energyDrainRate (quantum w)) in
         modify_quantum (fun s => with_energyDrainRate (energyDrainRate s * 0.5) s) ;;;
         showNotification "Observer Efficiency Increased!" ;;;
         modify (fun w => with_timers (timers w ++ [originalDrainRate]) w)
     | _ => ret tt
     end) w1 = (Normal tt, w2)).
  { subst w2. destruct (powerupType obj) as [[| | |]|], player; cbn;
      rewrite ?app_nil_r; unfold ret; f_equal; subst w1; destruct w; reflexivity. }
  unfold bind at 1. rewrite B.
  unfold bind at 1. rewrite createCollapseEffect_exact.
  unfold bind at 1. rewrite updateScore_spec.
  assert (H3 : forall w3, heap w3 = heap w1 -> heap w3 !! this = Some o1)
    by (intros w3 ->; exact H1).
  erewrite dispose_exact by (apply H3; reflexivity).
  subst o1. cbn [material with_isCollected].
  destruct (material obj); [|congruence].
  subst w2 w1.
  cbv [collected_world with_quantum with_page with_score with_events with_random_pos
       with_particles with_timers with_heap
       heap materials quantum score particles random_tape random_pos page timers events].
  assert (QB : forall t q, quantumObjects (boosted t q) = quantumObjects q)
    by (intros [[| | |]|] q; reflexivity).
  rewrite QB, <- !app_assoc. reflexivity.
Qed.

(** X16.  Collecting a powerup, through [collect()], in a session, with
    [this.game.player] set or not.  The first call on an uncollected powerup
    (with a material to dispose of) completes normally, marks it collected,
    takes it out of the registry, notifies by type, requests one collapse
    effect at its position and awards 100 points.  An energy powerup and an
    observer powerup always notify; a speed powerup notifies "Speed Boost
    Activated!" when the game has a player and nothing when it has none.  An
    energy powerup sets the energy to [observerModeEnergy], the other types
    leave the energy alone.  A second call, with or without a player,
    changes nothing. *)
Theorem powerup_collect_once (w : World) (this : ObjId) (obj : QuantumObject)
    (player : bool) :
  reachable w ->
  heap w !! this = Some obj -> kind obj = KPowerup ->
  truthy (isCollected obj) = false -> material obj <> None ->
  exists w', collect this player w = (Normal tt, w') /\
    isCollected <$> heap w' !! this = Some (Some true) /\
    (this ∉ quantumObjects (quantum w')) /\
    score w' = (score w + 100)%Z /\
    scoreValue (page w') = (score w + 100)%Z /\
    events w' = events w ++ boost_notes (powerupType obj) player ++
                  [EvCollapseEffect (position obj); EvUpdateScore 100] /\
    (powerupType obj = Some PSpeed -> player = true ->
       events w' = events w ++ [EvNotification "Speed Boost Activated!";
                                EvCollapseEffect (position obj); EvUpdateScore 100]) /\
    (powerupType obj = Some PSpeed -> player = false ->
       events w' = events w ++ [EvCollapseEffect (position obj); EvUpdateScore 100]) /\
    (powerupType obj = Some PEnergy ->
       currentEnergy (quantum w') = observerModeEnergy (quantum w)) /\
    (powerupType obj <> Some PEnergy ->
       currentEnergy (quantum w') = currentEnergy (quantum w)) /\
    (forall again, collect this again w' = (Normal tt, w')).
Proof.
  intros R H K C M. exists (collected_world this player w obj).
  apply reachable_invariant in R. destruct R as (_ & (ND & _) & _).
  split.
  { unfold collect, bind. rewrite (deref_Some _ _ _ H), K.
    now apply QuantumPowerup_collect_exact. }
  assert (H1 : heap (collected_world this player w obj) !! this
               = Some (with_isCollected (Some true) obj))
    by apply (lookup_insert_this _ _ _ _ H).
  split; [now rewrite H1|].
  split; [apply (unregistered_NoDup _ _ ND)|].
  do 3 (split; [reflexivity|]).
  split; [intros T ->; cbn; now rewrite T|].
  split; [intros T ->; cbn; now rewrite T|].
  split; [intros T; cbn; now rewrite T|].
  split; [intros T; cbn; now destruct (powerupType obj) as [[| | |]|]|].
  intros again.
  unfold collect, bind. rewrite (deref_Some _ _ _ H1). cbn [kind with_isCollected].
  rewrite K. unfold QuantumPowerup_collect, bind.
  now rewrite (deref_Some _ _ _ H1).
Qed.

Lemma observerBoost_timeout_exact (i : nat) (r : Q) (w : World) :
  timers w !! i = Some r ->
  observerBoost_timeout i w = (Normal tt, restored_world i r w).
Proof.
  intros T. unfold observerBoost_timeout, bind at 1, get. rewrite T. reflexivity.
Qed.

Lemma collected_world_observer (this : ObjId) (player : bool) (w : World)
    (obj : QuantumObject) :
  powerupType obj = Some PObserver ->
  energyDrainRate (quantum (collected_world this player w obj))
    = energyDrainRate (quantum w) * 0.5 /\
  timers (collected_world this player w obj) = timers w ++ [energyDrainRate (quantum w)].
Proof. intros T. unfold collected_world. cbn. now rewrite T. Qed.

(** X17.  The observer boost and its timer.  Collecting an observer
    powerup halves [energyDrainRate] and leaves one pending restore holding
    the rate from before; when that restore fires, the rate is exactly the
    one from before, the pending restores are those from before, and
    "Observer Boost Ended" is notified.  The energy is not touched. *)
Theorem observer_boost_round_trip (w : World) (this : ObjId) (obj : QuantumObject)
    (player : bool) :
  heap w !! this = Some obj -> powerupType obj = Some PObserver ->
  truthy (isCollected obj) = false -> material obj <> None ->
  exists w1 w2,
    QuantumPowerup_collect this player w = (Normal tt, w1) /\
    energyDrainRate (quantum w1) = energyDrainRate (quantum w) * 0.5 /\
    timers w1 = timers w ++ [energyDrainRate (quantum w)] /\
    observerBoost_timeout (length (timers w)) w1 = (Normal tt, w2) /\
    energyDrainRate (quantum w2) = energyDrainRate (quantum w) /\
    timers w2 = timers w /\
    currentEnergy (quantum w2) = currentEnergy (quantum w) /\
    events w2 = events w1 ++ [EvNotification "Observer Boost Ended"].
Proof.
  intros H T C M. exists (collected_world this player w obj).
  assert (T1 : timers (collected_world this player w obj)
               = timers w ++ [energyDrainRate (quantum w)])
    by (cbn; now rewrite T).
  assert (L : timers (collected_world this player w obj) !! length (timers w)
              = Some (energyDrainRate (quantum w)))
    by (rewrite T1; apply list_lookup_middle; reflexivity).
  exists (restored_world (length (timers w)) (energyDrainRate (quantum w))
            (collected_world this player w obj)).
  split; [now apply QuantumPowerup_collect_exact|].
  split; [cbn; now rewrite T|].
  split; [exact T1|].
  split; [now apply observerBoost_timeout_exact|].
  split; [reflexivity|].
  split.
  { cbn [timers restored_world]. rewrite T1, delete_middle. apply app_nil_r. }
  split; [cbn; now rewrite T | reflexivity].
Qed.

(** X18.  Two observer boosts that overlap.  The second powerup captures
    the rate the first one has already halved; when the two restores fire
    in the order they were scheduled, the second one writes that halved
    rate back: with no restore pending any more, [energyDrainRate] is half
    of what it was before the two powerups. *)
Theorem observer_boosts_overlap (w : World) (a b : ObjId) (oa ob : QuantumObject)
    (player player' : bool) :
  a <> b ->
  heap w !! a = Some oa -> powerupType oa = Some PObserver ->
  truthy (isCollected oa) = false -> material oa <> None ->
  heap w !! b = Some ob -> powerupType ob = Some PObserver ->
  truthy (isCollected ob) = false -> material ob <> None ->
  exists w2 w4,
    (QuantumPowerup_collect a player ;;; QuantumPowerup_collect b player') w
      = (Normal tt, w2) /\
    energyDrainRate (quantum w2) = energyDrainRate (quantum w) * 0.5 * 0.5 /\
    timers w2 = timers w ++ [energyDrainRate (quantum w); energyDrainRate (quantum w) * 0.5] /\
    (observerBoost_timeout (length (timers w)) ;;;
     observerBoost_timeout (length (timers w))) w2 = (Normal tt, w4) /\
    timers w4 = timers w /\
    energyDrainRate (quantum w4) = energyDrainRate (quantum w) * 0.5.
Proof.
  intros D Ha Ta Ca Ma Hb Tb Cb Mb.
  set (w1 := collected_world a player w oa).
  assert (Hb1 : heap w1 !! b = Some ob).
  { subst w1. cbn [heap collected_world]. rewrite list_lookup_insert_ne by exact D.
    exact Hb. }
  destruct (collected_world_observer a player w oa Ta) as (R1 & T1). fold w1 in R1, T1.
  destruct (collected_world_observer b player' w1 ob Tb) as (R2 & T2).
  set (w2 := collected_world b player' w1 ob) in *.
  rewrite R1 in R2. rewrite T1, R1, <- app_assoc in T2. cbn [app] in T2.
  set (r := energyDrainRate (quantum w)) in *.
  set (n := length (timers w)).
  assert (L2 : timers w2 !! n = Some r)
    by (rewrite T2; apply list_lookup_middle; reflexivity).
  set (w3 := restored_world n r w2).
  assert (T3 : timers w3 = timers w ++ [r * 0.5]).
  { subst w3 n. cbn [timers restored_world]. now rewrite T2, delete_middle. }
  assert (L3 : timers w3 !! n = Some (r * 0.5))
    by (rewrite T3; apply list_lookup_middle; reflexivity).
  exists w2, (restored_world n (r * 0.5) w3).
  split.
  { unfold bind. rewrite (QuantumPowerup_collect_exact _ _ _ player Ha Ca Ma).
    now apply QuantumPowerup_collect_exact. }
  split; [exact R2|].
  split; [exact T2|].
  split.
  { unfold bind. rewrite (observerBoost_timeout_exact _ _ _ L2).
    now apply observerBoost_timeout_exact. }
  split; [|reflexivity].
  cbn [timers restored_world]. rewrite T3. subst n.
  rewrite delete_middle. apply app_nil_r.
Qed.

(** ** Collectibles *)

Lemma burst_app (p : Vector3) (tape : nat -> Q) (k n m : nat) :
  burst p tape k (n + m) = burst p tape k n ++ burst p tape (14 * n + k) m.
Proof.
  revert k. induction n as [|n IH]; intros k; [reflexivity|].
  cbn [Nat.add burst app]. rewrite IH. do 3 f_equal. lia.
Qed.

Lemma repeat_createCollapseEffect_exact (p : Vector3) (k : nat) (w : World) :
  repeatM k (createCollapseEffect p) w =
  (Normal tt,
   with_random_pos (168 * k + random_pos w)
     (with_particles (particles w ++ burst p (random_tape w) (random_pos w) (12 * k))
        (with_events (events w ++ repeat (EvCollapseEffect p) k) w))).
Proof.
  revert w. induction k as [|k IH]; intros w.
  - cbn [repeatM repeat]. rewrite Nat.mul_0_r. cbn [burst Nat.add].
    rewrite !app_nil_r. unfold ret. f_equal. now destruct w.
  - cbn [repeatM]. unfold bind at 1. rewrite createCollapseEffect_exact, IH.
    unfold with_random_pos, with_particles, with_events.
    cbn [heap materials quantum score particles random_tape random_pos page timers events].
    replace (12 * S k)%nat with (12 + 12 * k)%nat by lia.
    rewrite burst_app, <- !app_assoc.
    replace (14 * 12 + random_pos w)%nat with (168 + random_pos w)%nat by lia.
    replace (168 * k + (168 + random_pos w))%nat with (168 * S k + random_pos w)%nat by lia.
    reflexivity.
Qed.

Lemma QuantumCollectible_collect_exact (w : World) (this : ObjId) (obj : QuantumObject) :
  heap w !! this = Some obj ->
  truthy (isCollected obj) = false -> material obj <> None ->
  QuantumCollectible_collect this w = (Normal tt, acquired_world this w obj).
Proof.
  intros H C M. unfold QuantumCollectible_collect, bind at 1.
  rewrite (deref_Some _ _ _ H), C.
  unfold bind at 1. rewrite (update_this_Some _ _ _ _ H).
  set (o1 := with_isCollected (Some true) obj).
  set (w1 := with_heap _ w).
  assert (H1 : heap w1 !! this = Some o1) by apply (lookup_insert_this _ _ _ _ H).
  unfold bind at 1. rewrite createCollapseEffect_exact.
  unfold bind at 1. rewrite repeat_createCollapseEffect_exact.
  unfold bind at 1. rewrite updateScore_spec.
  unfold bind at 1, showNotification, emit, modify.
  assert (H3 : forall w3, heap w3 = heap w1 -> heap w3 !! this = Some o1)
    by (intros w3 ->; exact H1).
  erewrite dispose_exact by (apply H3; reflexivity).
  subst o1. cbn [material with_isCollected].
  destruct (material obj); [|congruence].
  subst w1.
  cbv [acquired_world with_quantum with_page with_score with_events with_random_pos
       with_particles with_timers with_heap
       heap materials quantum score particles random_tape random_pos page timers events].
  replace (12 * 21)%nat with (12 + 12 * 20)%nat by reflexivity.
  rewrite burst_app, <- !app_assoc.
  replace (168 * 20 + (168 + _))%nat with (168 * 21 + random_pos w)%nat
    by (destruct w; cbn [random_pos]; lia).
  replace (14 * 12 + _)%nat with (168 + random_pos w)%nat by (now destruct w).
  reflexivity.
Qed.

(** X19.  Collecting a collectible, through [collect()].  The first call
    on an uncollected collectible completes normally and requests 21
    collapse effects at its position, which append 252 particles and take
    3528 numbers from [Math.random]; it awards 100 points once, notifies,
    marks the collectible collected and takes its first entry out of the
    registry.  Energy and rates are not touched.  A second call changes
    nothing. *)
Theorem collectible_collect_once (w : World) (this : ObjId) (obj : QuantumObject)
    (player : bool) :
  heap w !! this = Some obj -> kind obj = KCollectible ->
  truthy (isCollected obj) = false -> material obj <> None ->
  exists new w', collect this player w = (Normal tt, w') /\
    isCollected <$> heap w' !! this = Some (Some true) /\
    particles w' = particles w ++ new /\ length new = 252%nat /\
    Forall (fun q => p_position q = position obj) new /\
    random_pos w' = (3528 + random_pos w)%nat /\
    score w' = (score w + 100)%Z /\
    events w' = events w ++ repeat (EvCollapseEffect (position obj)) 21 ++
                  [EvUpdateScore 100; EvNotification "Collectible Acquired! +100 Points"] /\
    quantumObjects (quantum w') = unregistered this (quantumObjects (quantum w)) /\
    with_quantumObjects (quantumObjects (quantum w)) (quantum w') = quantum w /\
    collect this player w' = (Normal tt, w').
Proof.
  intros H K C M.
  exists (burst (position obj) (random_tape w) (random_pos w) (12 * 21)),
         (acquired_world this w obj).
  split.
  { unfold collect, bind. rewrite (deref_Some _ _ _ H), K.
    now apply QuantumCollectible_collect_exact. }
  assert (H1 : heap (acquired_world this w obj) !! this
               = Some (with_isCollected (Some true) obj))
    by apply (lookup_insert_this _ _ _ _ H).
  split; [now rewrite H1|].
  split; [reflexivity|].
  split; [now rewrite length_burst|].
  split; [apply Forall_burst; now intros|].
  split; [reflexivity|].
  do 3 (split; [reflexivity|]).
  split; [unfold acquired_world; cbn [quantum]; now destruct (quantum w)|].
  unfold collect, bind. rewrite (deref_Some _ _ _ H1). cbn [kind with_isCollected].
  rewrite K. unfold QuantumCollectible_collect, bind.
  now rewrite (deref_Some _ _ _ H1).
Qed.



(** ** The player *)

Lemma Qltb_ge (a b : Q) : Qltb a b = false <-> b <= a.
Proof.
  unfold Qltb. rewrite negb_false_iff. apply Qle_bool_iff.
Qed.

Ltac by_Qltb :=
  repeat match goal with
  | H : Qltb _ _ = true |- _ => apply Qltb_lt in H
  | H : Qltb _ _ = false |- _ => apply Qltb_ge in H
  end.

Lemma Math_abs_cases (a : Q) :
  (a < 0 /\ Math_abs a = - a) \/ (0 <= a /\ Math_abs a = a).
Proof.
  unfold Math_abs. destruct (Qltb a 0) eqn:E; by_Qltb; auto.
Qed.


(** X21.  [checkCollisions()] keeps the player inside the world: afterwards
    [|x|] and [|z|] are at most 50, a coordinate beyond a wall is put on
    that wall, and a player already inside is not changed.  Height,
    velocity and the grounded flag are never touched, so a player pushed
    back keeps the velocity that took them out.  Running it twice is the
    same as running it once. *)
Theorem checkCollisions_clamps (p : Player) :
  let p' := checkCollisions p in
  Math_abs (x (player_position p')) <= 50 /\
  Math_abs (z (player_position p')) <= 50 /\
  (50 < x (player_position p) -> x (player_position p') == 50) /\
  (x (player_position p) < -50 -> x (player_position p') == -50) /\
  (50 < z (player_position p) -> z (player_position p') == 50) /\
  (z (player_position p) < -50 -> z (player_position p') == -50) /\
  y (player_position p') = y (player_position p) /\
  player_velocity p' = player_velocity p /\
  isGrounded p' = isGrounded p /\
  (Math_abs (x (player_position p)) <= 50 -> Math_abs (z (player_position p)) <= 50 ->
     p' = p) /\
  checkCollisions p' = p'.
Proof.
  destruct p as [[px py pz] v sp jf g gr ks].
  assert (C : forall a, let a' := if Qltb 50 (Math_abs a) then Math_sign a * 50 else a in
    Math_abs a' <= 50 /\ (50 < a -> a' == 50) /\ (a < -50 -> a' == -50) /\
    (Math_abs a <= 50 -> a' = a) /\ Qltb 50 (Math_abs a') = false).
  { intros a a'. subst a'. unfold Math_sign.
    destruct (Math_abs_cases a) as [(L & E)|(L & E)]; rewrite E;
      destruct (Qltb 50 _) eqn:B.
    - assert (S : Qltb 0 a = false) by (apply Qltb_ge; lra).
      assert (T : Qltb a 0 = true) by (now apply Qltb_lt).
      rewrite S, T. by_Qltb.
      change (-1 * 50) with (-50). change (Math_abs (-50)) with 50.
      repeat split; intros; try lra; try reflexivity; exfalso; lra.
    - rewrite E, B. by_Qltb.
      repeat split; intros; try lra; try reflexivity; exfalso; lra.
    - assert (S : Qltb 0 a = true) by (by_Qltb; apply Qltb_lt; lra).
      rewrite S. by_Qltb.
      change (1 * 50) with 50. change (Math_abs 50) with 50.
      repeat split; intros; try lra; try reflexivity; exfalso; lra.
    - rewrite E, B. by_Qltb.
      repeat split; intros; try lra; try reflexivity; exfalso; lra. }
  unfold checkCollisions.
  cbn [player_position x y z].
  destruct (C px) as (X1 & X2 & X3 & X4 & X5). destruct (C pz) as (Z1 & Z2 & Z3 & Z4 & Z5).
  cbv zeta in X1, X2, X3, X4, X5, Z1, Z2, Z3, Z4, Z5.
  destruct (Qltb 50 (Math_abs px)) eqn:Bx;
    cbn [with_player_position with_x with_z player_position player_velocity
         isGrounded x y z];
    destruct (Qltb 50 (Math_abs pz)) eqn:Bz;
    cbn [with_player_position with_x with_z player_position player_velocity
         isGrounded x y z];
    rewrite ?X5, ?Z5, ?Bx, ?Bz;
    cbn [with_player_position with_x with_z player_position player_velocity
         isGrounded x y z];
    rewrite ?X5, ?Z5, ?Bx, ?Bz;
    repeat split; try assumption; try reflexivity;
    try (intros A1 A2; by_Qltb; lra).
Qed.

(** X22.  Jumping, [handleKeyDown] on the space key.  While the game is
    not running no key changes anything.  A grounded player gets the
    vertical velocity [jumpForce] and is no longer grounded; nothing else
    changes.  A player in the air is not changed, so a second press before
    landing has no effect. *)
Theorem handleKeyDown_jump (p : Player) (key : string) :
  handleKeyDown false key p = p /\ handleKeyUp false key p = p /\
  (isGrounded p = true ->
     handleKeyDown true " " p =
     with_isGrounded false
       (with_player_velocity (with_y (jumpForce p) (player_velocity p)) p)) /\
  (isGrounded p = false -> handleKeyDown true " " p = p) /\
  handleKeyDown true " " (handleKeyDown true " " p) = handleKeyDown true " " p /\
  handleKeyUp true " " p = p.
Proof.
  assert (D : handleKeyDown true " " p =
              if isGrounded p
              then with_isGrounded false
                     (with_player_velocity (with_y (jumpForce p) (player_velocity p)) p)
              else p) by reflexivity.
  split; [reflexivity|]. split; [reflexivity|].
  split; [intros G; now rewrite D, G|].
  split; [intros G; now rewrite D, G|].
  split; [|reflexivity].
  rewrite D. destruct (isGrounded p) eqn:G; [reflexivity | exact D].
Qed.

Lemma lower_ascii_idem (c : ascii) : lower_ascii (lower_ascii c) = lower_ascii c.
Proof. destruct c as [[] [] [] [] [] [] [] []]; reflexivity. Qed.

Lemma toLowerCase_idem (s : string) : toLowerCase (toLowerCase s) = toLowerCase s.
Proof.
  induction s as [|c s IH]; [reflexivity|]. cbn. now rewrite lower_ascii_idem, IH.
Qed.

(** X23.  The movement keys.  The handlers compare the lower-cased key, so
    a key and its lower-case form act alike.  Neither handler touches
    position, and releasing never touches velocity or the grounded flag:
    this for every key, space included.  For every key but space, pressing
    and then releasing leaves what releasing alone leaves. *)
Theorem movement_keys (isRunning : bool) (key : string) (p : Player) :
  handleKeyDown isRunning (toLowerCase key) p = handleKeyDown isRunning key p /\
  handleKeyUp isRunning (toLowerCase key) p = handleKeyUp isRunning key p /\
  player_position (handleKeyDown isRunning key p) = player_position p /\
  player_position (handleKeyUp isRunning key p) = player_position p /\
  player_velocity (handleKeyUp isRunning key p) = player_velocity p /\
  isGrounded (handleKeyUp isRunning key p) = isGrounded p /\
  (toLowerCase key <> " "%string ->
   handleKeyUp isRunning key (handleKeyDown isRunning key p) = handleKeyUp isRunning key p).
Proof.
  unfold handleKeyDown, handleKeyUp. rewrite toLowerCase_idem.
  destruct isRunning; cbn [negb]; [|repeat split; reflexivity].
  cbv zeta.
  destruct (String.eqb_spec (toLowerCase key) " ") as [E|_].
  - rewrite E. cbn.
    destruct (isGrounded p); repeat split; try reflexivity; now intros N.
  - destruct (_ || _); [repeat split; reflexivity|].
    destruct (_ || _); [repeat split; reflexivity|].
    destruct (_ || _); [repeat split; reflexivity|].
    destruct (_ || _); repeat split; reflexivity.
Qed.









(** ** The particle system, frame by frame *)

Lemma particles_update_from_filter (delta : Q) (l1 l2 : list Particle) :
  particles_update_from (length l1) delta (l1 ++ l2) =
  (Normal tt, List.filter alive (map (age_particle delta) l1) ++ l2).
Proof.
  revert l2. induction l1 as [|q l1 IH] using rev_ind; intros l2; [reflexivity|].
  rewrite length_app, Nat.add_comm. cbn [length Nat.add particles_update_from].
  rewrite <- app_assoc. cbn [app].
  rewrite list_lookup_middle by reflexivity.
  rewrite map_app, List.filter_app. cbn [map List.filter].
  rewrite insert_app_r_alt by lia. rewrite Nat.sub_diag. cbn [insert list_insert].
  unfold alive at 2. destruct (Qle_bool (p_life (age_particle delta q)) 0) eqn:D; cbn [negb].
  - rewrite delete_middle, IH, app_nil_r. reflexivity.
  - rewrite IH, <- app_assoc. reflexivity.
Qed.

(** X25.  [ParticleSystem.update(delta)].  The backwards loop with its
    splices completes normally and visits every particle exactly once: the
    particles afterwards are, in their order, those of before, each moved
    by its velocity times [delta] and aged by [delta], without the ones
    whose life has run out.  So every remaining particle has life left,
    none is added, and nothing else in the world changes.  When [delta]
    reaches the life of every particle, none remains. *)
Theorem ParticleSystem_update_filters (delta : Q) (w : World) :
  exists w', ParticleSystem_update delta w = (Normal tt, w') /\
    particles w' = List.filter alive (map (age_particle delta) (particles w)) /\
    w' = with_particles (particles w') w /\
    Forall (fun q => 0 < p_life q) (particles w') /\
    (length (particles w') <= length (particles w))%nat /\
    (Forall (fun q => p_life q <= delta) (particles w) -> particles w' = []).
Proof.
  unfold ParticleSystem_update.
  pose proof (particles_update_from_filter delta (particles w) []) as E.
  rewrite !app_nil_r in E. rewrite E. eexists. split; [reflexivity|].
  cbn [particles with_particles]. split; [reflexivity|]. split; [reflexivity|].
  split; [|split].
  - apply List.Forall_forall. intros q I. apply List.filter_In in I. destruct I as (_ & A).
    unfold alive in A. apply negb_true_iff in A.
    destruct (Qlt_le_dec 0 (p_life q)) as [L|L]; [exact L|].
    apply Qle_bool_iff in L. congruence.
  - etransitivity; [apply List.filter_length_le|]. now rewrite length_map.
  - clear E. intros F. induction F as [|q l L F IH]; [reflexivity|].
    cbn [map List.filter]. unfold alive at 1. cbn [age_particle p_life].
    assert (D : Qle_bool (p_life q - delta) 0 = true) by (apply Qle_bool_iff; lra).
    rewrite D. exact IH.
Qed.


(** ** The level manager *)

Lemma with_heap_with_heap (h1 h2 : list QuantumObject) (w : World) :
  with_heap h2 (with_heap h1 w) = with_heap h2 w.
Proof. reflexivity. Qed.

Lemma difficulty_step (base slope floor d : Q) (o : ObjId) (obj : QuantumObject)
    (w : World) :
  heap w !! o = Some obj ->
  (update_this o (with_collapseProbability (base - d * slope)) ;;;
   let* o' := deref o in
   if Qltb (collapseProbability o') floor
   then update_this o (with_collapseProbability floor)
   else ret tt) w =
  (Normal tt,
   with_heap (<[o := with_collapseProbability (difficulty_probability base slope floor d)
                        obj]> (heap w)) w).
Proof.
  intros H. unfold bind at 1. rewrite (update_this_Some _ _ _ _ H).
  set (o1 := with_collapseProbability (base - d * slope) obj).
  set (w1 := with_heap _ w).
  assert (H1 : heap w1 !! o = Some o1) by apply (lookup_insert_this _ _ _ _ H).
  unfold bind. rewrite (deref_Some _ _ _ H1).
  unfold difficulty_probability. subst o1. cbn [collapseProbability with_collapseProbability].
  destruct (Qltb (base - d * slope) floor).
  - rewrite (update_this_Some _ _ _ _ H1). subst w1. cbn [heap with_heap].
    rewrite list_insert_insert_eq. reflexivity.
  - reflexivity.
Qed.

(** A loop that rewrites each listed object with [g]. *)
Lemma forEach_rewrites (g : QuantumObject -> QuantumObject) (f : ObjId -> M unit)
    (l : list ObjId) (w : World) :
  (forall a, g (g a) = g a) ->
  (forall o obj w, heap w !! o = Some obj ->
     f o w = (Normal tt, with_heap (<[o := g obj]> (heap w)) w)) ->
  Forall (fun o => is_Some (heap w !! o)) l ->
  exists w', forEach l f w = (Normal tt, w') /\ w' = with_heap (heap w') w /\
    (forall i, is_Some (heap w' !! i) <-> is_Some (heap w !! i)) /\
    (forall i, i ∈ l -> heap w' !! i = g <$> heap w !! i) /\
    (forall i, i ∉ l -> heap w' !! i = heap w !! i).
Proof.
  intros G Hf. revert w. induction l as [|o l IH]; intros w F.
  - exists w. split; [reflexivity|]. split; [now destruct w|]. split; [tauto|].
    split; [intros i I; inversion I | reflexivity].
  - apply List.Forall_cons_iff in F. destruct F as ((obj & H) & F).
    cbn [forEach]. unfold bind. rewrite (Hf o obj w H).
    set (w1 := with_heap _ w).
    assert (L1 : forall i, heap w1 !! i = if decide (i = o) then Some (g obj)
                                          else heap w !! i).
    { intros i. subst w1. cbn [heap with_heap]. destruct (decide (i = o)) as [->|D].
      - apply (lookup_insert_this _ _ _ _ H).
      - now apply list_lookup_insert_ne. }
    assert (F1 : Forall (fun o => is_Some (heap w1 !! o)) l).
    { apply List.Forall_forall. intros i I. rewrite L1.
      destruct (decide (i = o)); [eauto|].
      rewrite List.Forall_forall in F. now apply F. }
    destruct (IH w1 F1) as (w' & E & W & S & A & B).
    exists w'. split; [exact E|]. split; [rewrite W at 1; reflexivity|].
    split; [|split].
    + intros i. rewrite S, L1. destruct (decide (i = o)) as [->|D]; [|tauto].
      rewrite H. split; eauto.
    + intros i I. destruct (decide (i ∈ l)) as [I'|N].
      * rewrite (A i I'), L1. destruct (decide (i = o)) as [->|D]; [|reflexivity].
        rewrite H. cbn. now rewrite G.
      * rewrite (B i N), L1. apply elem_of_cons in I. destruct I as [->|I]; [|contradiction].
        rewrite decide_True by reflexivity. now rewrite H.
    + intros i N. rewrite not_elem_of_cons in N. destruct N as (D & N).
      rewrite (B i N), L1. now rewrite decide_False.
Qed.

(** X26.  [updateDifficulty()], on a manager whose obstacles and platforms
    are objects of the store, no object being both.  It completes normally
    and writes [collapseProbability] only: every obstacle gets
    [0.5 - level * 0.05] but not less than 0.1, every platform
    [0.7 - level * 0.03] but not less than 0.3; other objects and the rest
    of the world are untouched.  From level 1 on an obstacle's probability
    is at most 0.45 and a platform's at most 0.67; from level 8 on the
    obstacles are at 0.1, from level 14 on the platforms are at 0.3. *)
Theorem updateDifficulty_bounds (lm : LevelManager) (w : World) :
  Forall (fun o => is_Some (heap w !! o)) (obstacles lm) ->
  Forall (fun o => is_Some (heap w !! o)) (platforms lm) ->
  (forall o, o ∈ obstacles lm -> o ∉ platforms lm) ->
  let po := difficulty_probability 0.5 0.05 0.1 (currentLevel lm) in
  let pp := difficulty_probability 0.7 0.03 0.3 (currentLevel lm) in
  exists w', updateDifficulty lm w = (Normal tt, w') /\ w' = with_heap (heap w') w /\
    (forall o, o ∈ obstacles lm ->
       heap w' !! o = with_collapseProbability po <$> heap w !! o) /\
    (forall o, o ∈ platforms lm ->
       heap w' !! o = with_collapseProbability pp <$> heap w !! o) /\
    (forall o, o ∉ obstacles lm -> o ∉ platforms lm -> heap w' !! o = heap w !! o) /\
    0.1 <= po /\ 0.3 <= pp /\
    (1 <= currentLevel lm -> po <= 0.45 /\ pp <= 0.67) /\
    (8 <= currentLevel lm -> po == 0.1) /\
    (14 <= currentLevel lm -> pp == 0.3).
Proof.
  intros Fo Fp D po pp. unfold updateDifficulty. cbv zeta.
  destruct (forEach_rewrites (with_collapseProbability po)
              (fun obstacle =>
                 update_this obstacle
                   (with_collapseProbability (0.5 - currentLevel lm * 0.05)) ;;;
                 let* o := deref obstacle in
                 if Qltb (collapseProbability o) 0.1
                 then update_this obstacle (with_collapseProbability 0.1)
                 else ret tt)
              (obstacles lm) w ltac:(reflexivity)
              (fun o obj w H => difficulty_step 0.5 0.05 0.1 (currentLevel lm) o obj w H) Fo)
    as (w1 & E1 & W1 & S1 & A1 & B1).
  assert (Fp1 : Forall (fun o => is_Some (heap w1 !! o)) (platforms lm)).
  { rewrite List.Forall_forall in *. intros o I. apply S1, Fp, I. }
  destruct (forEach_rewrites (with_collapseProbability pp)
              (fun platform =>
                 update_this platform
                   (with_collapseProbability (0.7 - currentLevel lm * 0.03)) ;;;
                 let* o := deref platform in
                 if Qltb (collapseProbability o) 0.3
                 then update_this platform (with_collapseProbability 0.3)
                 else ret tt)
              (platforms lm) w1 ltac:(reflexivity)
              (fun o obj w H => difficulty_step 0.7 0.03 0.3 (currentLevel lm) o obj w H) Fp1)
    as (w2 & E2 & W2 & S2 & A2 & B2).
  exists w2. unfold bind at 1. rewrite E1. split; [exact E2|].
  split; [rewrite W2 at 1; rewrite W1; reflexivity|].
  split; [intros o I; rewrite (B2 o (D o I)); apply (A1 o I)|].
  split.
  { intros o I. rewrite (A2 o I). f_equal. apply B1. intros I'. apply (D o I' I). }
  split; [intros o N1 N2; rewrite (B2 o N2); apply (B1 o N1)|].
  subst po pp. unfold difficulty_probability.
  destruct (Qltb (0.5 - currentLevel lm * 0.05) 0.1) eqn:A;
    destruct (Qltb (0.7 - currentLevel lm * 0.03) 0.3) eqn:B; by_Qltb;
    repeat split; intros; lra.
Qed.

Lemma collect_collectible_exact (w : World) (c : ObjId) (obj : QuantumObject)
    (player : bool) :
  heap w !! c = Some obj -> kind obj = KCollectible ->
  truthy (isCollected obj) = false -> material obj <> None ->
  collect c player w = (Normal tt, acquired_world c w obj).
Proof.
  intros H K C M. unfold collect, bind. rewrite (deref_Some _ _ _ H), K.
  now apply QuantumCollectible_collect_exact.
Qed.

Lemma collectibles_from_spec (pos : Vector3) (l1 : list ObjId) :
  forall (l2 : list ObjId) (w : World),
  NoDup l1 -> (forall c, c ∈ l1 -> collectable w c) ->
  exists w',
    collectibles_from (length l1) pos (l1 ++ l2) w =
      (Normal tt, List.filter (fun c => negb (within_reach w pos c)) l1 ++ l2, w') /\
    score w' =
      (score w + 150 * Z.of_nat (length (List.filter (within_reach w pos) l1)))%Z /\
    (forall c, c ∉ l1 -> heap w' !! c = heap w !! c) /\
    (forall c, c ∈ l1 -> within_reach w pos c = false -> heap w' !! c = heap w !! c) /\
    (forall c, c ∈ l1 -> within_reach w pos c = true ->
       isCollected <$> heap w' !! c = Some (Some true)).
Proof.
  induction l1 as [|c l IH] using rev_ind; intros l2 w ND Ok.
  - exists w. cbn. split; [reflexivity|]. split; [lia|].
    split; [reflexivity|]. split; intros c I; inversion I.
  - apply NoDup_app in ND. destruct ND as (ND & Nc & _).
    assert (Ncl : c ∉ l) by (intros I; apply (Nc c I); left).
    destruct (Ok c) as (obj & H & K & C & M); [apply elem_of_app; right; left|].
    rewrite length_app, Nat.add_comm. cbn [length Nat.add collectibles_from].
    rewrite <- app_assoc. cbn [app].
    rewrite list_lookup_middle by reflexivity.
    rewrite (deref_Some _ _ _ H).
    rewrite !List.filter_app. cbn [List.filter].
    assert (R : within_reach w pos c = Qltb (distanceTo (position obj) pos) 1.5)
      by (unfold within_reach; now rewrite H).
    rewrite R. destruct (Qltb (distanceTo (position obj) pos) 1.5) eqn:Near; cbn [negb].
    + rewrite (collect_collectible_exact _ _ _ true H K C M), updateScore_spec, delete_middle.
      set (w3 := with_page _ _).
      assert (L3 : forall i, i <> c -> heap w3 !! i = heap w !! i).
      { intros i D. subst w3. cbn. now apply list_lookup_insert_ne. }
      assert (Lc : heap w3 !! c = Some (with_isCollected (Some true) obj)).
      { subst w3. cbn. apply (lookup_insert_this _ _ _ _ H). }
      assert (R3 : forall i, i ∈ l -> within_reach w3 pos i = within_reach w pos i).
      { intros i I. unfold within_reach. rewrite L3; [reflexivity|]. now intros ->. }
      assert (Ok3 : forall i, i ∈ l -> collectable w3 i).
      { intros i I. destruct (Ok i) as (o & Hi & Q); [apply elem_of_app; now left|].
        exists o. rewrite L3; [now split|]. now intros ->. }
      destruct (IH l2 w3 ND Ok3) as (w' & E & S & A & B & T).
      assert (X1 : List.filter (fun i => negb (within_reach w3 pos i)) l
                   = List.filter (fun i => negb (within_reach w pos i)) l).
      { apply List.filter_ext_in. intros i I. f_equal. apply R3.
        now apply list_elem_of_In. }
      assert (X2 : List.filter (within_reach w3 pos) l = List.filter (within_reach w pos) l).
      { apply List.filter_ext_in. intros i I. apply R3. now apply list_elem_of_In. }
      rewrite X1 in E. rewrite X2 in S.
      exists w'. split; [rewrite E, app_nil_r; reflexivity|].
      split.
      { rewrite S, length_app. subst w3. cbn [score with_page with_score with_events
          acquired_world length]. lia. }
      split; [|split].
      * intros i N. rewrite not_elem_of_app in N. destruct N as (N1 & N2).
        rewrite (A i N1). apply L3. intros ->. apply N2. left.
      * intros i I Far. apply elem_of_app in I. destruct I as [I|I].
        -- rewrite (B i I) by (now rewrite R3). apply L3. now intros ->.
        -- apply list_elem_of_singleton in I. subst i. congruence.
      * intros i I Nr. apply elem_of_app in I. destruct I as [I|I].
        -- apply (T i I). now rewrite R3.
        -- apply list_elem_of_singleton in I. subst i. rewrite (A c Ncl), Lc. reflexivity.
    + assert (Ok' : forall i, i ∈ l -> collectable w i)
        by (intros i I; apply Ok, elem_of_app; now left).
      destruct (IH (c :: l2) w ND Ok') as (w' & E & S & A & B & T).
      exists w'. split; [rewrite E, <- app_assoc; reflexivity|].
      split; [rewrite S, app_nil_r; reflexivity|].
      split; [|split].
      * intros i N. rewrite not_elem_of_app in N. now apply A.
      * intros i I Far. apply elem_of_app in I. destruct I as [I|I]; [now apply B|].
        apply list_elem_of_singleton in I. subst i. now apply A.
      * intros i I Nr. apply elem_of_app in I. destruct I as [I|I]; [now apply T|].
        apply list_elem_of_singleton in I. subst i. congruence.
Qed.

(** X27.  [checkCollectibleCollection()], on a manager whose collectibles
    are distinct, uncollected collectibles of the store.  Without a player
    nothing happens.  With one, the backwards loop completes normally and
    visits every collectible once: those closer than 1.5 to the player are
    collected and leave the array, the others stay, in their order, and
    are untouched; every collected one brings 150 points, 100 from its own
    [collect()] and 50 from the manager.  When this empties the array,
    the next [checkLevelCompletion()] marks the level completed and asks for
    the portal notification if it was not completed before, and a further
    one asks for nothing. *)
Theorem checkCollectibleCollection_collects (pl : Player) (lm : LevelManager) (w : World) :
  NoDup (collectibles lm) -> (forall c, c ∈ collectibles lm -> collectable w c) ->
  let pos := player_position pl in
  checkCollectibleCollection None lm w = (Normal tt, lm, w) /\
  exists lm' w', checkCollectibleCollection (Some pl) lm w = (Normal tt, lm', w') /\
    lm' = with_collectibles
            (List.filter (fun c => negb (within_reach w pos c)) (collectibles lm)) lm /\
    score w' =
      (score w +
       150 * Z.of_nat (length (List.filter (within_reach w pos) (collectibles lm))))%Z /\
    (forall c, c ∈ collectibles lm -> within_reach w pos c = true ->
       isCollected <$> heap w' !! c = Some (Some true)) /\
    (forall c, c ∉ collectibles lm \/ within_reach w pos c = false ->
       heap w' !! c = heap w !! c) /\
    ((forall c, c ∈ collectibles lm -> within_reach w pos c = true) ->
       collectibles lm' = [] /\
       levelCompleted (fst (checkLevelCompletion lm')) = true /\
       snd (checkLevelCompletion lm') = negb (levelCompleted lm) /\
       snd (checkLevelCompletion (fst (checkLevelCompletion lm'))) = false).
Proof.
  intros ND Ok pos. split; [reflexivity|].
  destruct (collectibles_from_spec pos (collectibles lm) [] w ND Ok)
    as (w' & E & S & A & B & T).
  rewrite !app_nil_r in E.
  eexists _, w'. unfold checkCollectibleCollection. fold pos. rewrite E.
  split; [reflexivity|]. split; [reflexivity|]. split; [exact S|]. split; [exact T|].
  split.
  { intros c [N|Far]; [now apply A|].
    destruct (decide (c ∈ collectibles lm)); [now apply B | now apply A]. }
  intros All.
  assert (Z : List.filter (fun c => negb (within_reach w pos c)) (collectibles lm) = []).
  { clear -All. induction (collectibles lm) as [|c l IH]; [reflexivity|].
    cbn [List.filter]. rewrite (All c) by left. cbn [negb].
    apply IH. intros i I. apply All. now right. }
  rewrite Z. unfold checkLevelCompletion. cbn [collectibles with_collectibles length Nat.eqb
    levelCompleted andb].
  destruct lm as [lv [] ps os cs]; cbn; repeat split; reflexivity.
Qed.

(** ** The portal *)

(** X28.  [checkPlayerEntry()].  Without a player, or while the portal is
    not active, nothing changes and nobody is transported.  The player is
    transported exactly when the portal is active, the player is closer
    than [radius * 0.8] to its axis and within its height, and was not
    already counted as inside; the flag is then set, so a second check from
    the same place never transports again.  The flag is cleared only by a
    check that finds the player outside that radius: inside the radius but
    above or below the portal it is left as it is.  Nothing else of the
    portal changes. *)
Theorem checkPlayerEntry_once (pl : Player) (pt : Portal) :
  let inside :=
    Qltb (Vector2_distanceTo (x (portal_position pt)) (z (portal_position pt))
            (x (player_position pl)) (z (player_position pl)))
         (portal_radius pt * 0.8) in
  let level :=
    Qle_bool (y (portal_position pt) - portal_height pt / 2) (y (player_position pl)) &&
    Qle_bool (y (player_position pl)) (y (portal_position pt) + portal_height pt / 2) in
  let pt' := fst (checkPlayerEntry (Some pl) pt) in
  checkPlayerEntry None pt = (pt, false) /\
  (active pt = false -> checkPlayerEntry (Some pl) pt = (pt, false)) /\
  snd (checkPlayerEntry (Some pl) pt) =
    active pt && inside && level && negb (playerInPortal pt) /\
  (snd (checkPlayerEntry (Some pl) pt) = true -> playerInPortal pt' = true) /\
  snd (checkPlayerEntry (Some pl) pt') = false /\
  (active pt = true -> inside = true ->
     playerInPortal pt' = playerInPortal pt || level) /\
  (active pt = true -> inside = false -> playerInPortal pt' = false) /\
  pt' = with_playerInPortal (playerInPortal pt') pt.
Proof.
  intros inside level pt'. subst pt' inside level.
  destruct pt as [a r h p f]. unfold checkPlayerEntry.
  cbn -[Qltb Qle_bool Qdiv Qplus Qminus Qmult].
  set (i := Qltb _ _). set (l1 := Qle_bool _ _). set (l2 := Qle_bool _ _).
  destruct a, i eqn:I, l1 eqn:L1, l2 eqn:L2, f;
    cbn -[Qltb Qle_bool Qdiv Qplus Qminus Qmult];
    fold i l1 l2; rewrite ?I, ?L1, ?L2;
    cbn -[Qltb Qle_bool Qdiv Qplus Qminus Qmult];
    repeat split; intros; congruence.
Qed.


(** ** Construction *)

Lemma lookup_new_material (ms : list Material) (m : Material) :
  (ms ++ [m]) !! length ms = Some m.
Proof. now apply list_lookup_middle. Qed.

Lemma lookup_new_material2 (ms : list Material) (m1 m2 : Material) :
  ((ms ++ [m1]) ++ [m2]) !! S (length ms) = Some m2.
Proof. apply list_lookup_middle. rewrite length_app. cbn. lia. Qed.

Lemma constructed (a : Action) (w : World) :
  is_new a = true ->
  exists obj m mt news w',
    run a w = (Normal tt, w') /\
    heap w' = heap w ++ [obj] /\
    quantum w' = with_quantumObjects (quantumObjects (quantum w) ++ [length (heap w)])
                                     (quantum w) /\
    kind obj = class_of a /\ observedState obj = None /\
    superpositionFactor obj = random_tape w (random_pos w) /\
    collapseProbability obj = class_probability (class_of a) /\
    mesh obj = Some m /\ mesh_material m = Some mt /\ material obj = Some mt /\
    (class_of a <> KElevator -> mesh_position m = position obj) /\
    materials w' = materials w ++ news /\ (length (materials w) <= mt)%nat /\
    has_material_color obj (materials w') = class_has_color (class_of a) /\
    score w' = score w /\ particles w' = particles w /\ timers w' = timers w /\
    events w' = events w /\ page w' = page w /\
    (class_of a = KHazard -> isHarmful obj = Some true /\ damage obj = Some 20).
Proof.
  intros N. destruct a; try discriminate N; clear N;
    cbn [run class_of class_probability class_has_color];
    unfold discard, new_QuantumBridge, new_QuantumElevator, new_QuantumDoor,
      new_QuantumPowerup, new_QuantumHazard, new_QuantumPlatform, new_QuantumObstacle,
      new_QuantumCollectible, new_QuantumObject, replace_mesh, replace_material,
      registerQuantumObject, modify_quantum, createQuantumMaterial, new_MeshPhongMaterial,
      Math_random, bind, get, modify, ret, update_this;
    cbn;
    repeat (rewrite ?lookup_new; cbn; rewrite ?insert_new; cbn);
    eexists _, _, _, _, _; (split; [reflexivity|]); cbn;
    (split; [reflexivity|]); (split; [reflexivity|]); (split; [reflexivity|]);
    (split; [reflexivity|]); (split; [reflexivity|]); (split; [reflexivity|]);
    (split; [reflexivity|]); (split; [reflexivity|]); (split; [reflexivity|]);
    (split; [try reflexivity; try congruence|]);
    (split; [rewrite <- ?app_assoc; reflexivity|]);
    (split; [rewrite ?length_app; cbn [length]; lia|]);
    (split; [unfold has_material_color; cbn;
             rewrite ?lookup_new_material2, ?lookup_new_material; reflexivity|]);
    repeat split; try reflexivity; discriminate.
Qed.

(** X29.  The constructors.  Each of the nine completes normally and puts
    one object into the store, under the next free reference, registered
    once at the end of the registry; the system is otherwise as before.
    The object is in superposition, its starting phase is the next number
    of [Math.random], and its collapse probability is that of its class
    (bridge 0.8, hazard and platform 0.7, obstacle 0.3, the others 0.5).
    [this.material] and [this.mesh.material] are one new material; it has a
    [color] for powerups and collectibles only.  The mesh is where the
    object is, except for an elevator, whose constructor moves the object to
    its lowest height after the mesh was placed.  Score, particles, pending
    restores, events and page are untouched, and so are the materials that
    existed.  A hazard starts harmful, with damage 20. *)
Theorem constructors_register (a : Action) (w : World) :
  is_new a = true ->
  exists obj m mt news w',
    run a w = (Normal tt, w') /\
    heap w' = heap w ++ [obj] /\
    quantum w' = with_quantumObjects (quantumObjects (quantum w) ++ [length (heap w)])
                                     (quantum w) /\
    kind obj = class_of a /\ observedState obj = None /\
    superpositionFactor obj = random_tape w (random_pos w) /\
    collapseProbability obj = class_probability (class_of a) /\
    mesh obj = Some m /\ mesh_material m = Some mt /\ material obj = Some mt /\
    (class_of a <> KElevator -> mesh_position m = position obj) /\
    materials w' = materials w ++ news /\ (length (materials w) <= mt)%nat /\
    has_material_color obj (materials w') = class_has_color (class_of a) /\
    score w' = score w /\ particles w' = particles w /\ timers w' = timers w /\
    events w' = events w /\ page w' = page w /\
    (class_of a = KHazard -> isHarmful obj = Some true /\ damage obj = Some 20).
Proof. exact (constructed a w). Qed.


(** X30.  Hazards and obstacles as their constructors build them, at the
    first collapse.  A hazard's material is the quantum shader material,
    which has no [color]: [collapse], forced or not, records the state,
    requests effect and score, and then raises; the hazard stays harmful
    whatever the state.  An obstacle has the same material but tests for
    the [color] first: its [collapse] returns the state, and the obstacle is
    harmful exactly when that state is 1. *)
Theorem fresh_hazard_stays_harmful (w : World) (p : Vector3) (s : Q)
    (forcedState : option Z) :
  let this := length (heap w) in
  (let w1 := after (ANewHazard p s) w in
   exists obj e w2, heap w1 !! this = Some obj /\
     collapse this (arg forcedState) w1 = (Throw e, w2) /\
     observedState <$> heap w2 !! this = Some (Some (resolved forcedState w1 obj)) /\
     isHarmful <$> heap w2 !! this = Some (Some true) /\
     events w2 = events w ++ [EvCollapseEffect (position obj); EvUpdateScore 10]) /\
  (let w1 := after (ANewObstacle p s) w in
   exists obj w2 obj2, heap w1 !! this = Some obj /\
     collapse this (arg forcedState) w1 = (Normal (Some (resolved forcedState w1 obj)), w2) /\
     heap w2 !! this = Some obj2 /\
     observedState obj2 = Some (resolved forcedState w1 obj) /\
     isHarmful obj2 = Some (resolved forcedState w1 obj =? 1)%Z).
Proof.
  intros this. split.
  - intros w1.
    destruct (constructed (ANewHazard p s) w eq_refl)
      as (obj & m & mt & news & w' & E & H & _ & K & _ & _ & _ & _ & _ & _ & _ & _ & _ & C
          & _ & _ & _ & Ev & _ & Hz).
    assert (W : w1 = w') by (subst w1; unfold after; now rewrite E). rewrite W. clear W w1.
    cbn [class_of class_has_color] in K, C, Hz. destruct (Hz eq_refl) as (Hm & _).
    assert (L : heap w' !! this = Some obj) by (rewrite H; apply lookup_new).
    destruct (QuantumHazard_collapse_cases w' this obj forcedState L) as (T & _).
    destruct (T C) as (e & w2 & E2 & O & Ih & Ev2).
    exists obj, e, w2. split; [exact L|]. split.
    { unfold collapse, bind. now rewrite (deref_Some _ _ _ L), K. }
    split; [exact O|]. split; [now rewrite Ih, Hm|]. now rewrite Ev2, Ev.
  - intros w1.
    destruct (constructed (ANewObstacle p s) w eq_refl)
      as (obj & m & mt & news & w' & E & H & _ & K & _).
    assert (W : w1 = w') by (subst w1; unfold after; now rewrite E). rewrite W. clear W w1.
    cbn [class_of] in K.
    assert (L : heap w' !! this = Some obj) by (rewrite H; apply lookup_new).
    destruct (collapse_spec w' this obj forcedState L)
      as (obj2 & r & ms & ps & n & E2 & (_ & _ & _ & O & _ & R & Hm)).
    rewrite K in Hm, R.
    rewrite (R ltac:(discriminate) ltac:(discriminate) ltac:(discriminate)) in E2.
    eexists obj, _, obj2. split; [exact L|]. split; [exact E2|].
    split; [apply (lookup_insert_this _ _ _ _ L)|]. split; [exact O | exact Hm].
Qed.


(** ** [collapse(1)] on a hazard *)

(** C2, where the code departs from it.  A hazard as its constructor builds
    it carries the quantum shader material, which has no [color].
    [collapse(1)] on it runs the base method, which records state 1 and
    requests one collapse effect at the hazard's position and one score
    increment of 10; the hazard's override then writes
    [this.material.color] and raises: the call returns nothing.  The base
    method by itself returns 1 on the same hazard, and so does the call on
    an obstacle built at the same place, whose override tests for the
    [color] before it writes. *)
Theorem collapse_1_raises_on_hazard (w : World) (p : Vector3) (s : Q) :
  let this := length (heap w) in
  let wh := after (ANewHazard p s) w in
  let wo := after (ANewObstacle p s) w in
  (exists obj e w',
     heap wh !! this = Some obj /\ kind obj = KHazard /\ observedState obj = None /\
     collapse this (value (Some 1%Z)) wh = (Throw e, w') /\
     observedState <$> heap w' !! this = Some (Some 1%Z) /\
     events w' = events wh ++ [EvCollapseEffect (position obj); EvUpdateScore 10] /\
     score w' = (score wh + 10)%Z) /\
  (exists w', QuantumObject_collapse this (value (Some 1%Z)) wh = (Normal (Some 1%Z), w') /\
     observedState <$> heap w' !! this = Some (Some 1%Z)) /\
  (exists w', collapse this (value (Some 1%Z)) wo = (Normal (Some 1%Z), w') /\
     observedState <$> heap w' !! this = Some (Some 1%Z)).
Proof.
  intros this wh wo. split; [|split].
  - destruct (constructed (ANewHazard p s) w eq_refl)
      as (obj & m & mt & news & w' & E & H & _ & K & N & _ & _ & _ & _ & _ & _ & _ & _ & C
          & _).
    assert (W : wh = w') by (subst wh; unfold after; now rewrite E). rewrite W. clear W wh.
    cbn [class_of class_has_color] in K, C.
    assert (L : heap w' !! this = Some obj) by (rewrite H; apply lookup_new).
    destruct (collapse_1_effects w' this obj L) as (_ & (r & wd & Ed & Od & Evd & Sd & _)).
    destruct (QuantumHazard_collapse_cases w' this obj (Some 1%Z) L) as (T & _).
    destruct (T C) as (e & w2 & E2 & _).
    assert (D : collapse this (value (Some 1%Z)) w' = (Throw e, w2)).
    { unfold collapse, bind. rewrite (deref_Some _ _ _ L), K. exact E2. }
    rewrite D in Ed. injection Ed as <- <-.
    exists obj, e, w2. repeat split; assumption.
  - destruct (constructed (ANewHazard p s) w eq_refl)
      as (obj & m & mt & news & w' & E & H & _).
    assert (W : wh = w') by (subst wh; unfold after; now rewrite E). rewrite W. clear W wh.
    assert (L : heap w' !! this = Some obj) by (rewrite H; apply lookup_new).
    destruct (collapse_1_effects w' this obj L) as ((wb & Eb & Ob & _) & _).
    exists wb. split; assumption.
  - destruct (constructed (ANewObstacle p s) w eq_refl)
      as (obj & m & mt & news & w' & E & H & _ & K & _).
    assert (W : wo = w') by (subst wo; unfold after; now rewrite E). rewrite W. clear W wo.
    cbn [class_of] in K.
    assert (L : heap w' !! this = Some obj) by (rewrite H; apply lookup_new).
    destruct (collapse_1_effects w' this obj L) as (_ & (r & wd & Ed & Od & _ & _ & _ & R)).
    rewrite K in R.
    rewrite (R ltac:(discriminate) ltac:(discriminate) ltac:(discriminate)) in Ed.
    exists wd. split; assumption.
Qed.

End Host.

(** * A sample session

    A concrete host and a small level, on which the statements above are
    evaluated.  Any functions serve as host: the sample sine and cosine are
    constant, the sample distance is the taxicab distance, the sample sum is
    the exact one. *)

Definition sample_sin (a : Q) : Q := 0.
Definition sample_cos (a : Q) : Q := 1.
Definition Qabs' (a : Q) : Q := if Qle_bool 0 a then a else - a.
Definition sample_length (v : Vector3) : Q := Qabs' (x v) + Qabs' (y v) + Qabs' (z v).
Definition sample_distanceTo (a b : Vector3) : Q :=
  sample_length (mkVector3 (x a - x b) (y a - y b) (z a - z b)).
Definition sample_add (a b : Q) : Q := a + b.

(** Every draw is 0.1: each roll against 0.3 succeeds. *)
Definition sample_tape (n : nat) : Q := 0.1.
Definition sample_page : Page := mkPage 0 false 100.

Definition origin : Vector3 := mkVector3 0 0 0.

(** A hazard (reference 0), an obstacle (1), a plain quantum object (2) and
    a door (3). *)
Definition sample_level : list Action :=
  [ANewHazard origin 2; ANewObstacle (mkVector3 10 0 0) 2;
   ANewObject origin (mkVector3 1 1 1); ANewDoor (mkVector3 0 0 5) 1 2].

Definition w_level : World :=
  exec sample_sin sample_cos sample_length sample_level (initial sample_tape sample_page).

Definition sample_object (w : World) (o : ObjId) : QuantumObject :=
  match heap w !! o with
  | Some obj => obj
  | None => mkQuantumObject KObject origin origin None 0 0 None None
              None None None None None None None None None
  end.

Definition sample_hazard : QuantumObject := Eval cbv in sample_object w_level 0.
Definition sample_obstacle : QuantumObject := Eval cbv in sample_object w_level 1.
Definition sample_plain : QuantumObject := Eval cbv in sample_object w_level 2.

Lemma w_level_reachable : reachable sample_sin sample_cos sample_length w_level.
Proof.
  apply reachable_exec; [apply reachable_initial | repeat constructor].
Qed.

(** The hazard of the sample level is built on a shader material, which has
    no [color]: its collapse raises after the base method has run. *)
Example sample_hazard_collapse_raises :
  fst (collapse sample_sin sample_cos 0 undefined w_level) =
  Throw (TypeError "this.material.color is undefined").
Proof. vm_compute. reflexivity. Qed.

(** The spec's energy scenario: from full energy, observer mode on and ten
    seconds in one frame leave the energy at 0, not below, and observer mode
    off. *)
Example sample_energy_depletes :
  let w := exec sample_sin sample_cos sample_length [AKeyE; AFrame 10] w_level in
  observerMode (quantum (after sample_sin sample_cos sample_length AKeyE w_level)) = true /\
  currentEnergy (quantum w) = 0 /\ observerMode (quantum w) = false.
Proof. vm_compute. repeat split. Qed.

(** With no energy left, the key does not turn observer mode on. *)
Example sample_gate_holds :
  let w := exec sample_sin sample_cos sample_length [AKeyE; AFrame 10; AKeyE] w_level in
  observerMode (quantum w) = false.
Proof. vm_compute. reflexivity. Qed.

(** ** The statements at the sample session *)

(** The plain object of the sample level, collapsed to 1 by a click. *)
Definition w_collapsed : World :=
  after sample_sin sample_cos sample_length (AClick 2) w_level.
Definition sample_collapsed : QuantumObject := Eval cbv in sample_object w_collapsed 2.

Lemma observedState_settles_witness :
  Forall possible [AKeyE; AClick 2; AFrame 1; AKeyE; AClick 2] /\
  heap w_collapsed !! 2%nat = Some sample_collapsed /\
  observedState sample_collapsed = Some 1%Z /\
  exists obj',
    heap (exec sample_sin sample_cos sample_length
            [AKeyE; AClick 2; AFrame 1; AKeyE; AClick 2] w_collapsed) !! 2%nat = Some obj' /\
    observedState obj' = Some 1%Z.
Proof.
  assert (F : Forall possible [AKeyE; AClick 2; AFrame 1; AKeyE; AClick 2])
    by (repeat (apply List.Forall_cons;
                  [first [exact I | unfold possible, Qle; simpl; lia]|]);
        apply List.Forall_nil).
  assert (H : heap w_collapsed !! 2%nat = Some sample_collapsed) by (vm_compute; reflexivity).
  split; [exact F|]. split; [exact H|]. split; [reflexivity|].
  exact (proj2 (proj2 (proj2 (observedState_settles sample_sin sample_cos sample_length
                         w_collapsed _ AKeyE 2%nat sample_collapsed F H))) 1%Z eq_refl).
Defined.



Lemma updateQuantumState_noop_once_collapsed_witness :
  heap w_collapsed !! 2%nat = Some sample_collapsed /\
  observedState sample_collapsed <> None /\
  updateQuantumState sample_sin sample_cos 2 (1 # 60) 3 w_collapsed = (Normal tt, w_collapsed) /\
  repeatM 5 (updateQuantumState sample_sin sample_cos 2 (1 # 60) 3) w_collapsed =
  (Normal tt, w_collapsed).
Proof.
  assert (H : heap w_collapsed !! 2%nat = Some sample_collapsed) by (vm_compute; reflexivity).
  assert (C : observedState sample_collapsed <> None) by (simpl; discriminate).
  split; [exact H|]. split; [exact C|].
  exact (updateQuantumState_noop_once_collapsed sample_sin sample_cos
           w_collapsed 2%nat sample_collapsed (1 # 60) 3 5 H C).
Defined.

(** A host sum that rounds as doubles do where it shows: [0.2 + 0.1] is
    [0.30000000000000004].  An obstacle of size 0.4 (reference 4) and a
    player of radius 0.1: at distance 0.3 the player is within the rounded
    reach, at distance 0.30000000000000004 on the boundary. *)
Definition sample_rounded_add (a b : Q) : Q :=
  if Qeq_bool a 0.2 && Qeq_bool b 0.1 then 0.30000000000000004 else a + b.
Definition w_small : World :=
  after sample_sin sample_cos sample_length (ANewObstacle origin 0.4) w_level.
Definition sample_small : QuantumObject := Eval cbv in sample_object w_small 4.

Lemma obstacle_collision_after_forced_collapse_witness :
  heap w_small !! 4%nat = Some sample_small /\ kind sample_small = KObstacle /\
  exists w1 obj1,
    collapse sample_sin sample_cos 4 (value (Some 1%Z)) w_small = (Normal (Some 1%Z), w1) /\
    heap w1 !! 4%nat = Some obj1 /\ isHarmful obj1 = Some true /\
    QuantumObstacle_checkPlayerCollision sample_distanceTo sample_rounded_add 4
      (mkVector3 0.3 0 0) 0.1 w1 = (Normal true, w1) /\
    QuantumObstacle_checkPlayerCollision sample_distanceTo sample_rounded_add 4
      (mkVector3 0.30000000000000004 0 0) 0.1 w1 = (Normal false, w1).
Proof.
  assert (H : heap w_small !! 4%nat = Some sample_small) by (vm_compute; reflexivity).
  assert (K : kind sample_small = KObstacle) by reflexivity.
  split; [exact H|]. split; [exact K|].
  destruct (proj1 (obstacle_collision_after_forced_collapse sample_sin sample_cos
                     sample_distanceTo sample_length sample_rounded_add w_small 4%nat
                     sample_small (mkVector3 0.3 0 0) 0.1 H K))
    as (w1 & obj1 & E & H1 & Hm & _ & _ & _ & _ & T & _).
  destruct (proj1 (obstacle_collision_after_forced_collapse sample_sin sample_cos
                     sample_distanceTo sample_length sample_rounded_add w_small 4%nat
                     sample_small (mkVector3 0.30000000000000004 0 0) 0.1 H K))
    as (w1' & obj1' & E' & _ & _ & _ & _ & _ & _ & _ & B & _).
  rewrite E in E'. injection E' as <-.
  exists w1, obj1. split; [exact E|]. split; [exact H1|]. split; [exact Hm|].
  split.
  - apply T. vm_compute. reflexivity.
  - apply B. vm_compute. discriminate.
Defined.

Lemma unregister_idempotent_safe_witness :
  reachable sample_sin sample_cos sample_length w_level /\
  exists w1, unregisterQuantumObject 1 w_level = (Normal tt, w1) /\
             (1%nat ∉ quantumObjects (quantum w1)) /\
             unregisterQuantumObject 1 w1 = (Normal tt, w1).
Proof.
  split; [exact w_level_reachable|].
  exact (proj2 (proj2 (unregister_idempotent_safe sample_sin sample_cos sample_length
                         w_level 1%nat w_level_reachable))).
Defined.

Lemma setObserverMode_contains_failures_witness :
  heap w_level !! 0%nat = Some sample_hazard /\
  (exists w', setObserverMode sample_sin sample_cos 0 true w_level = (Normal tt, w')) /\
  last (events (snd (setObserverMode sample_sin sample_cos 0 true w_level))) =
  Some (EvConsoleError (TypeError "this.material.color is undefined")).
Proof.
  assert (H : heap w_level !! 0%nat = Some sample_hazard) by (vm_compute; reflexivity).
  split; [exact H|].
  split; [exact (proj1 (setObserverMode_contains_failures sample_sin sample_cos
                          w_level 0%nat sample_hazard true H))|].
  vm_compute. reflexivity.
Defined.

Lemma hazard_harmful_before_collapse_witness :
  reachable sample_sin sample_cos sample_length w_level /\
  heap w_level !! 0%nat = Some sample_hazard /\
  kind sample_hazard = KHazard /\ observedState sample_hazard = None /\
  QuantumHazard_checkPlayerCollision sample_distanceTo sample_add 0 (mkVector3 1 0 0) (1 # 2) w_level =
  (Normal true, w_level).
Proof.
  assert (H : heap w_level !! 0%nat = Some sample_hazard) by (vm_compute; reflexivity).
  split; [exact w_level_reachable|]. split; [exact H|].
  split; [reflexivity|]. split; [reflexivity|].
  apply (proj2 (proj2 (hazard_harmful_before_collapse sample_sin sample_cos sample_distanceTo
                         sample_length sample_add w_level 0%nat sample_hazard (mkVector3 1 0 0) (1 # 2)
                         w_level_reachable H eq_refl eq_refl))).
  vm_compute. reflexivity.
Defined.

(** ** The further properties at a stocked level *)

(** The sample level with, after its four objects, a bridge (reference 4),
    an elevator (5), a platform (6), an observer powerup (7), an energy
    powerup (8), two collectibles (9, 10), a second observer powerup (11)
    and a speed powerup (12). *)
Definition sample_stock : list Action :=
  [ANewBridge origin (mkVector3 4 0 0) 2;
   ANewElevator origin (mkVector3 1 1 1) 0 5;
   ANewPlatform origin (mkVector3 2 1 2);
   ANewPowerup origin PObserver;
   ANewPowerup origin PEnergy;
   ANewCollectible (mkVector3 1 0 0);
   ANewCollectible (mkVector3 9 0 0);
   ANewPowerup origin PObserver;
   ANewPowerup origin PSpeed].

Definition w_stock : World :=
  exec sample_sin sample_cos sample_length sample_stock w_level.

Definition sample_door : QuantumObject := Eval cbv in sample_object w_level 3.
Definition sample_bridge : QuantumObject := Eval cbv in sample_object w_stock 4.
Definition sample_elevator : QuantumObject := Eval cbv in sample_object w_stock 5.
Definition sample_platform : QuantumObject := Eval cbv in sample_object w_stock 6.
Definition sample_boost : QuantumObject := Eval cbv in sample_object w_stock 7.
Definition sample_energy : QuantumObject := Eval cbv in sample_object w_stock 8.
Definition sample_coin : QuantumObject := Eval cbv in sample_object w_stock 9.
Definition sample_coin_far : QuantumObject := Eval cbv in sample_object w_stock 10.
Definition sample_boost2 : QuantumObject := Eval cbv in sample_object w_stock 11.
Definition sample_speed : QuantumObject := Eval cbv in sample_object w_stock 12.

Definition sample_distance2 (ax ay bx by_ : Q) : Q := Qabs' (ax - bx) + Qabs' (ay - by_).

(** A level manager over the obstacle, the platform and the collectibles,
    at level 2; a player standing on the first collectible; the portal,
    activated, with a player in its middle. *)
Definition sample_manager : LevelManager := mkLevelManager 2 false [6%nat] [1%nat] [9%nat; 10%nat].
Definition sample_player : Player := teleportTo (mkVector3 1 0 0) new_Player.
Definition sample_portal : Portal := with_active true new_Portal.
Definition sample_traveller : Player := teleportTo (mkVector3 0 2 (-40)) new_Player.

Lemma w_stock_reachable : reachable sample_sin sample_cos sample_length w_stock.
Proof.
  apply reachable_exec; [exact w_level_reachable | repeat constructor].
Qed.

Lemma collapse_terminal_visual_witness :
  heap w_level !! 2%nat = Some sample_plain /\
  forall m, mesh sample_plain = Some m ->
    mesh <$> heap (snd (QuantumObject_collapse sample_sin sample_cos 2 (value (Some 1%Z)) w_level))
             !! 2%nat
    = Some (Some (with_mesh_scale (mkVector3 1.2 1.2 1.2) m)).
Proof.
  assert (H : heap w_level !! 2%nat = Some sample_plain) by (vm_compute; reflexivity).
  split; [exact H|]. intros m Hm.
  exact (proj1 (proj1 (collapse_terminal_visual sample_sin sample_cos w_level 2%nat
                         sample_plain (Some 1%Z) H) m Hm)).
Defined.

Lemma QuantumDoor_collapse_opens_witness :
  heap w_level !! 3%nat = Some sample_door /\
  exists w', QuantumDoor_collapse sample_sin sample_cos 3 (value (Some 1%Z)) w_level
             = (Normal (Some 1%Z), w') /\
    isOpen <$> heap w' !! 3%nat = Some (Some true).
Proof.
  assert (H : heap w_level !! 3%nat = Some sample_door) by (vm_compute; reflexivity).
  split; [exact H|].
  edestruct (proj1 (QuantumDoor_collapse_opens sample_sin sample_cos w_level 3%nat
                      sample_door (Some 1%Z) H)) as (w' & E & O & _);
    [reflexivity | reflexivity |].
  exists w'. split; [exact E | exact O].
Defined.

Lemma QuantumBridge_collapse_solidifies_witness :
  heap w_stock !! 4%nat = Some sample_bridge /\
  exists w', QuantumBridge_collapse sample_sin sample_cos 4 (value (Some 1%Z)) w_stock
             = (Normal (Some 1%Z), w') /\
    isSolid <$> heap w' !! 4%nat = Some (Some true).
Proof.
  assert (H : heap w_stock !! 4%nat = Some sample_bridge) by (vm_compute; reflexivity).
  split; [exact H|].
  edestruct (proj1 (QuantumBridge_collapse_solidifies sample_sin sample_cos w_stock 4%nat
                      sample_bridge (Some 1%Z) H)) as (w' & E & O & _);
    [reflexivity | reflexivity |].
  exists w'. split; [exact E | exact O].
Defined.

Lemma QuantumElevator_collapse_targets_witness :
  heap w_stock !! 5%nat = Some sample_elevator /\
  exists w', QuantumElevator_collapse sample_sin sample_cos 5 (value (Some 1%Z)) w_stock
             = (Normal (Some 1%Z), w') /\
    targetHeight <$> heap w' !! 5%nat = Some (Some 5).
Proof.
  assert (H : heap w_stock !! 5%nat = Some sample_elevator) by (vm_compute; reflexivity).
  split; [exact H|].
  destruct (QuantumElevator_collapse_targets sample_sin sample_cos w_stock 5%nat
              sample_elevator (Some 1%Z) H) as (w' & E & T & _).
  exists w'. split; [exact E | exact T].
Defined.

Lemma QuantumHazard_collapse_needs_color_witness :
  heap w_level !! 0%nat = Some sample_hazard /\
  has_material_color sample_hazard (materials w_level) = false /\
  exists e w', QuantumHazard_collapse sample_sin sample_cos 0 (value (Some 0%Z)) w_level
               = (Throw e, w') /\
    isHarmful <$> heap w' !! 0%nat = Some (Some true).
Proof.
  assert (H : heap w_level !! 0%nat = Some sample_hazard) by (vm_compute; reflexivity).
  assert (C : has_material_color sample_hazard (materials w_level) = false)
    by (vm_compute; reflexivity).
  split; [exact H|]. split; [exact C|].
  destruct (proj1 (QuantumHazard_collapse_needs_color sample_sin sample_cos w_level 0%nat
                     sample_hazard (Some 0%Z) H) C) as (e & w' & E & _ & I & _).
  exists e, w'. split; [exact E | exact I].
Defined.

Lemma QuantumPlatform_collapse_guarded_witness :
  heap w_stock !! 6%nat = Some sample_platform /\
  exists w', QuantumPlatform_collapse sample_sin sample_cos 6 (value (Some 0%Z)) w_stock
             = (Normal (Some 0%Z), w') /\
    observedState <$> heap w' !! 6%nat = Some (Some 0%Z).
Proof.
  assert (H : heap w_stock !! 6%nat = Some sample_platform) by (vm_compute; reflexivity).
  split; [exact H|].
  destruct (QuantumPlatform_collapse_guarded sample_sin sample_cos w_stock 6%nat
              sample_platform (Some 0%Z) H) as (w' & E & O & _).
  exists w'. split; [exact E | exact O].
Defined.

Lemma unforced_collapse_draw_witness :
  heap w_level !! 2%nat = Some sample_plain /\
  exists v w', QuantumObject_collapse sample_sin sample_cos 2 undefined w_level
               = (Normal (Some v), w') /\
    random_pos w' = (169 + random_pos w_level)%nat /\ (v = 1%Z \/ v = 0%Z).
Proof.
  assert (H : heap w_level !! 2%nat = Some sample_plain) by (vm_compute; reflexivity).
  split; [exact H|].
  destruct (unforced_collapse_draw sample_sin sample_cos w_level 2%nat sample_plain H)
    as (v & w' & E & _ & R & B & _).
  exists v, w'. split; [exact E|]. split; [exact R | exact B].
Defined.

Lemma setObserverMode_roll_witness :
  heap w_level !! 2%nat = Some sample_plain /\ observedState sample_plain = None /\
  random_tape w_level (random_pos w_level) < 0.3 /\
  exists w', setObserverMode sample_sin sample_cos 2 true w_level = (Normal tt, w') /\
    observedState <$> heap w' !! 2%nat = Some (Some 1%Z).
Proof.
  assert (H : heap w_level !! 2%nat = Some sample_plain) by (vm_compute; reflexivity).
  assert (O : observedState sample_plain = None) by reflexivity.
  assert (R : random_tape w_level (random_pos w_level) < 0.3) by (vm_compute; reflexivity).
  split; [exact H|]. split; [exact O|]. split; [exact R|].
  exact (proj2 (setObserverMode_roll sample_sin sample_cos w_level 2%nat sample_plain H O) R).
Defined.

Lemma handleClick_guarded_witness :
  heap w_level !! 2%nat = Some sample_plain /\ observedState sample_plain = None /\
  exists r w', handleClick sample_sin sample_cos 2 w_level = (r, w') /\
    observedState <$> heap w' !! 2%nat = Some (Some (resolved None w_level sample_plain)).
Proof.
  assert (H : heap w_level !! 2%nat = Some sample_plain) by (vm_compute; reflexivity).
  assert (O : observedState sample_plain = None) by reflexivity.
  split; [exact H|]. split; [exact O|].
  destruct (proj2 (handleClick_guarded sample_sin sample_cos w_level 2%nat sample_plain H) O)
    as (r & w' & E & S & _).
  exists r, w'. split; [exact E | exact S].
Defined.


Lemma register_then_unregister_witness :
  (7%nat ∉ quantumObjects (quantum w_level)) /\
  (registerQuantumObject 7 ;;; unregisterQuantumObject 7) w_level = (Normal tt, w_level).
Proof.
  assert (N : 7%nat ∉ quantumObjects (quantum w_level))
    by (apply (bool_decide_unpack _); vm_compute; exact I).
  split; [exact N|].
  exact (proj1 (register_then_unregister w_level 7%nat) N).
Defined.

Lemma update_frame_witness :
  reachable sample_sin sample_cos sample_length w_level /\
  exists w', update sample_sin sample_cos 1 w_level = (Normal tt, w') /\
    uniforms_time (quantum w') = uniforms_time (quantum w_level) + 1.
Proof.
  split; [exact w_level_reachable|].
  destruct (update_frame sample_sin sample_cos sample_length w_level 1 w_level_reachable)
    as (w' & E & T & _).
  exists w'. split; [exact E | exact T].
Defined.

Lemma superposition_within_unit_interval_witness :
  (forall a, -1 <= sample_sin a /\ sample_sin a <= 1) /\
  (forall a, -1 <= sample_cos a /\ sample_cos a <= 1) /\
  heap w_level !! 2%nat = Some sample_plain /\ observedState sample_plain = None /\
  exists w' obj',
    updateQuantumState sample_sin sample_cos 2 1 1 w_level = (Normal tt, w') /\
    heap w' !! 2%nat = Some obj' /\
    0 <= superpositionFactor obj' /\ superpositionFactor obj' <= 1 /\
    forall m, mesh obj' = Some m ->
      x (mesh_scale m) = 0.8 + superpositionFactor obj' * 0.4 /\ 0.8 <= x (mesh_scale m).
Proof.
  assert (S : forall a, -1 <= sample_sin a /\ sample_sin a <= 1)
    by (intros a; split; vm_compute; discriminate).
  assert (C : forall a, -1 <= sample_cos a /\ sample_cos a <= 1)
    by (intros a; split; vm_compute; discriminate).
  assert (H : heap w_level !! 2%nat = Some sample_plain) by (vm_compute; reflexivity).
  assert (O : observedState sample_plain = None) by reflexivity.
  split; [exact S|]. split; [exact C|]. split; [exact H|]. split; [exact O|].
  destruct (proj2 (proj2 (superposition_within_unit_interval sample_sin sample_cos w_level
                            2%nat sample_plain 1 1 S C H O)))
    as (w' & obj' & E & H' & F0 & F1 & Sc & _).
  exists w', obj'. split; [exact E|]. split; [exact H'|]. split; [exact F0|].
  split; [exact F1|]. intros m Hm. destruct (Sc m Hm) as (X1 & X2 & _).
  split; [exact X1 | exact X2].
Defined.

Lemma createCollapseEffect_burst_witness :
  (forall k, 0 <= random_tape w_level k /\ random_tape w_level k < 1) /\
  exists new w', createCollapseEffect sample_sin sample_cos origin w_level = (Normal tt, w') /\
    particles w' = particles w_level ++ new /\ length new = 12%nat /\
    random_pos w' = (168 + random_pos w_level)%nat /\
    Forall (fun q => 1 <= p_life q /\ p_life q <= 1.5 /\
                     1 <= p_maxLife q /\ p_maxLife q <= 1.5 /\
                     0.4 <= p_hue q) new.
Proof.
  assert (T : forall k, 0 <= random_tape w_level k /\ random_tape w_level k < 1)
    by (intros k; split; vm_compute; [discriminate | reflexivity]).
  split; [exact T|].
  destruct (createCollapseEffect_burst sample_sin sample_cos origin w_level)
    as (new & w' & E & P & L & _ & R & _ & _ & _ & _ & _ & F).
  exists new, w'. split; [exact E|]. split; [exact P|]. split; [exact L|].
  split; [exact R | exact (F T)].
Defined.

Lemma dispose_unregisters_witness :
  heap w_level !! 2%nat = Some sample_plain /\ material sample_plain <> None /\
  exists w', dispose 2 w_level = (Normal tt, w') /\
    (2%nat ∉ quantumObjects (quantum w')) /\ dispose 2 w' = (Normal tt, w').
Proof.
  assert (H : heap w_level !! 2%nat = Some sample_plain) by (vm_compute; reflexivity).
  assert (M : material sample_plain <> None) by (vm_compute; discriminate).
  split; [exact H|]. split; [exact M|].
  destruct (proj2 (dispose_unregisters sample_sin sample_cos sample_length w_level 2%nat
                     sample_plain H) M) as (w' & E & _ & _ & R).
  exists w'. split; [exact E | exact (R w_level_reachable)].
Defined.

Lemma powerup_collect_once_witness :
  reachable sample_sin sample_cos sample_length w_stock /\
  heap w_stock !! 12%nat = Some sample_speed /\ kind sample_speed = KPowerup /\
  truthy (isCollected sample_speed) = false /\ material sample_speed <> None /\
  powerupType sample_speed = Some PSpeed /\
  (exists w', collect sample_sin sample_cos 12 false w_stock = (Normal tt, w') /\
     events w' = events w_stock ++
                   [EvCollapseEffect (position sample_speed); EvUpdateScore 100] /\
     collect sample_sin sample_cos 12 true w' = (Normal tt, w')) /\
  (exists w', collect sample_sin sample_cos 12 true w_stock = (Normal tt, w') /\
     events w' = events w_stock ++
                   [EvNotification "Speed Boost Activated!";
                    EvCollapseEffect (position sample_speed); EvUpdateScore 100]).
Proof.
  assert (H : heap w_stock !! 12%nat = Some sample_speed) by (vm_compute; reflexivity).
  assert (K : kind sample_speed = KPowerup) by reflexivity.
  assert (C : truthy (isCollected sample_speed) = false) by reflexivity.
  assert (M : material sample_speed <> None) by (vm_compute; discriminate).
  assert (T : powerupType sample_speed = Some PSpeed) by reflexivity.
  split; [exact w_stock_reachable|]. split; [exact H|]. split; [exact K|].
  split; [exact C|]. split; [exact M|]. split; [exact T|]. split.
  - destruct (powerup_collect_once sample_sin sample_cos sample_length w_stock 12%nat
                sample_speed false w_stock_reachable H K C M)
      as (w' & E & _ & _ & _ & _ & _ & _ & Off & _ & _ & Again).
    exists w'. split; [exact E|]. split; [exact (Off T eq_refl) | exact (Again true)].
  - destruct (powerup_collect_once sample_sin sample_cos sample_length w_stock 12%nat
                sample_speed true w_stock_reachable H K C M)
      as (w' & E & _ & _ & _ & _ & _ & On & _).
    exists w'. split; [exact E | exact (On T eq_refl)].
Defined.

Lemma observer_boost_round_trip_witness :
  heap w_stock !! 7%nat = Some sample_boost /\ powerupType sample_boost = Some PObserver /\
  truthy (isCollected sample_boost) = false /\ material sample_boost <> None /\
  exists w1 w2,
    QuantumPowerup_collect sample_sin sample_cos 7 true w_stock = (Normal tt, w1) /\
    energyDrainRate (quantum w1) = energyDrainRate (quantum w_stock) * 0.5 /\
    observerBoost_timeout (length (timers w_stock)) w1 = (Normal tt, w2) /\
    energyDrainRate (quantum w2) = energyDrainRate (quantum w_stock).
Proof.
  assert (H : heap w_stock !! 7%nat = Some sample_boost) by (vm_compute; reflexivity).
  assert (T : powerupType sample_boost = Some PObserver) by reflexivity.
  assert (C : truthy (isCollected sample_boost) = false) by reflexivity.
  assert (M : material sample_boost <> None) by (vm_compute; discriminate).
  split; [exact H|]. split; [exact T|]. split; [exact C|]. split; [exact M|].
  destruct (observer_boost_round_trip sample_sin sample_cos w_stock 7%nat sample_boost
              true H T C M) as (w1 & w2 & E1 & R1 & _ & E2 & R2 & _).
  exists w1, w2. split; [exact E1|]. split; [exact R1|]. split; [exact E2 | exact R2].
Defined.

Lemma observer_boosts_overlap_witness :
  7%nat <> 11%nat /\
  heap w_stock !! 7%nat = Some sample_boost /\ powerupType sample_boost = Some PObserver /\
  truthy (isCollected sample_boost) = false /\ material sample_boost <> None /\
  heap w_stock !! 11%nat = Some sample_boost2 /\ powerupType sample_boost2 = Some PObserver /\
  truthy (isCollected sample_boost2) = false /\ material sample_boost2 <> None /\
  exists w2 w4,
    (QuantumPowerup_collect sample_sin sample_cos 7 true ;;;
     QuantumPowerup_collect sample_sin sample_cos 11 true) w_stock = (Normal tt, w2) /\
    (observerBoost_timeout (length (timers w_stock)) ;;;
     observerBoost_timeout (length (timers w_stock))) w2 = (Normal tt, w4) /\
    timers w4 = timers w_stock /\
    energyDrainRate (quantum w4) = energyDrainRate (quantum w_stock) * 0.5.
Proof.
  assert (D : 7%nat <> 11%nat) by lia.
  assert (Ha : heap w_stock !! 7%nat = Some sample_boost) by (vm_compute; reflexivity).
  assert (Ta : powerupType sample_boost = Some PObserver) by reflexivity.
  assert (Ca : truthy (isCollected sample_boost) = false) by reflexivity.
  assert (Ma : material sample_boost <> None) by (vm_compute; discriminate).
  assert (Hb : heap w_stock !! 11%nat = Some sample_boost2) by (vm_compute; reflexivity).
  assert (Tb : powerupType sample_boost2 = Some PObserver) by reflexivity.
  assert (Cb : truthy (isCollected sample_boost2) = false) by reflexivity.
  assert (Mb : material sample_boost2 <> None) by (vm_compute; discriminate).
  split; [exact D|]. split; [exact Ha|]. split; [exact Ta|]. split; [exact Ca|].
  split; [exact Ma|]. split; [exact Hb|]. split; [exact Tb|]. split; [exact Cb|].
  split; [exact Mb|].
  destruct (observer_boosts_overlap sample_sin sample_cos w_stock 7%nat 11%nat
              sample_boost sample_boost2 true true D Ha Ta Ca Ma Hb Tb Cb Mb)
    as (w2 & w4 & E2 & _ & _ & E4 & T4 & R4).
  exists w2, w4. split; [exact E2|]. split; [exact E4|]. split; [exact T4 | exact R4].
Defined.

Lemma collectible_collect_once_witness :
  heap w_stock !! 9%nat = Some sample_coin /\ kind sample_coin = KCollectible /\
  truthy (isCollected sample_coin) = false /\ material sample_coin <> None /\
  exists new w', collect sample_sin sample_cos 9 true w_stock = (Normal tt, w') /\
    particles w' = particles w_stock ++ new /\ length new = 252%nat /\
    random_pos w' = (3528 + random_pos w_stock)%nat /\
    score w' = (score w_stock + 100)%Z.
Proof.
  assert (H : heap w_stock !! 9%nat = Some sample_coin) by (vm_compute; reflexivity).
  assert (K : kind sample_coin = KCollectible) by reflexivity.
  assert (C : truthy (isCollected sample_coin) = false) by reflexivity.
  assert (M : material sample_coin <> None) by (vm_compute; discriminate).
  split; [exact H|]. split; [exact K|]. split; [exact C|]. split; [exact M|].
  destruct (collectible_collect_once sample_sin sample_cos w_stock 9%nat sample_coin
              true H K C M) as (new & w' & E & _ & P & L & _ & R & S & _).
  exists new, w'. split; [exact E|]. split; [exact P|]. split; [exact L|].
  split; [exact R | exact S].
Defined.


Lemma checkCollisions_clamps_witness :
  let p := teleportTo (mkVector3 60 0 0) new_Player in
  50 < x (player_position p) /\ x (player_position (checkCollisions p)) == 50.
Proof.
  intros p.
  assert (B : 50 < x (player_position p)) by (vm_compute; reflexivity).
  split; [exact B|].
  exact (proj1 (proj2 (proj2 (checkCollisions_clamps p))) B).
Defined.

Lemma handleKeyDown_jump_witness :
  let p := with_isGrounded true new_Player in
  isGrounded p = true /\
  handleKeyDown true " " p =
    with_isGrounded false (with_player_velocity (with_y (jumpForce p) (player_velocity p)) p).
Proof.
  intros p.
  assert (G : isGrounded p = true) by reflexivity.
  split; [exact G|].
  exact (proj1 (proj2 (proj2 (handleKeyDown_jump p " "))) G).
Defined.

Lemma movement_keys_witness :
  toLowerCase "W" <> " "%string /\
  handleKeyDown true (toLowerCase "W") new_Player = handleKeyDown true "W" new_Player /\
  handleKeyUp true "W" (handleKeyDown true "W" new_Player) = handleKeyUp true "W" new_Player.
Proof.
  assert (N : toLowerCase "W" <> " "%string) by (vm_compute; discriminate).
  split; [exact N|].
  destruct (movement_keys true "W" new_Player) as (D & _ & _ & _ & _ & _ & U).
  split; [exact D | exact (U N)].
Defined.


Lemma ParticleSystem_update_filters_witness :
  Forall (fun q => p_life q <= 2) (particles w_collapsed) /\
  length (particles w_collapsed) = 12%nat /\
  exists w', ParticleSystem_update 2 w_collapsed = (Normal tt, w') /\ particles w' = [].
Proof.
  assert (F : Forall (fun q => p_life q <= 2) (particles w_collapsed)).
  { vm_compute. repeat (apply List.Forall_cons; [vm_compute; discriminate|]).
    apply List.Forall_nil. }
  split; [exact F|]. split; [vm_compute; reflexivity|].
  destruct (ParticleSystem_update_filters 2 w_collapsed) as (w' & E & _ & _ & _ & _ & Z).
  exists w'. split; [exact E | exact (Z F)].
Defined.

Lemma updateDifficulty_bounds_witness :
  Forall (fun o => is_Some (heap w_stock !! o)) (obstacles sample_manager) /\
  Forall (fun o => is_Some (heap w_stock !! o)) (platforms sample_manager) /\
  (forall o, o ∈ obstacles sample_manager -> o ∉ platforms sample_manager) /\
  exists w', updateDifficulty sample_manager w_stock = (Normal tt, w') /\
    heap w' !! 1%nat = with_collapseProbability
                         (difficulty_probability 0.5 0.05 0.1 2) <$> heap w_stock !! 1%nat /\
    0.1 <= difficulty_probability 0.5 0.05 0.1 2.
Proof.
  assert (Fo : Forall (fun o => is_Some (heap w_stock !! o)) (obstacles sample_manager)).
  { apply List.Forall_cons; [|apply List.Forall_nil].
    exists sample_obstacle. vm_compute. reflexivity. }
  assert (Fp : Forall (fun o => is_Some (heap w_stock !! o)) (platforms sample_manager)).
  { apply List.Forall_cons; [|apply List.Forall_nil].
    exists sample_platform. vm_compute. reflexivity. }
  assert (D : forall o, o ∈ obstacles sample_manager -> o ∉ platforms sample_manager).
  { intros o I J. apply list_elem_of_singleton in I. apply list_elem_of_singleton in J. lia. }
  split; [exact Fo|]. split; [exact Fp|]. split; [exact D|].
  destruct (updateDifficulty_bounds sample_manager w_stock Fo Fp D)
    as (w' & E & _ & O & _ & _ & B & _).
  exists w'. split; [exact E|]. split; [|exact B].
  apply O. apply list_elem_of_singleton. reflexivity.
Defined.

Lemma checkCollectibleCollection_collects_witness :
  NoDup (collectibles sample_manager) /\
  (forall c, c ∈ collectibles sample_manager -> collectable w_stock c) /\
  exists lm' w',
    checkCollectibleCollection sample_sin sample_cos sample_distanceTo
      (Some sample_player) sample_manager w_stock = (Normal tt, lm', w') /\
    lm' = with_collectibles
            (List.filter
               (fun c => negb (within_reach sample_distanceTo w_stock
                                 (player_position sample_player) c))
               (collectibles sample_manager)) sample_manager /\
    score w' =
      (score w_stock +
       150 * Z.of_nat (length (List.filter
                                 (within_reach sample_distanceTo w_stock
                                    (player_position sample_player))
                                 (collectibles sample_manager))))%Z.
Proof.
  assert (ND : NoDup (collectibles sample_manager)).
  { apply NoDup_cons. split; [|apply NoDup_singleton].
    intros I. apply list_elem_of_singleton in I. lia. }
  assert (Ok : forall c, c ∈ collectibles sample_manager -> collectable w_stock c).
  { intros c I. apply elem_of_cons in I. destruct I as [->|I].
    - exists sample_coin. split; [vm_compute; reflexivity|]. split; [reflexivity|].
      split; [reflexivity | vm_compute; discriminate].
    - apply list_elem_of_singleton in I. subst c.
      exists sample_coin_far. split; [vm_compute; reflexivity|]. split; [reflexivity|].
      split; [reflexivity | vm_compute; discriminate]. }
  split; [exact ND|]. split; [exact Ok|].
  destruct (proj2 (checkCollectibleCollection_collects sample_sin sample_cos sample_distanceTo
                     sample_player sample_manager w_stock ND Ok))
    as (lm' & w' & E & L & S & _).
  exists lm', w'. split; [exact E|]. split; [exact L | exact S].
Defined.

Lemma checkPlayerEntry_once_witness :
  snd (checkPlayerEntry sample_distance2 (Some sample_traveller) sample_portal) = true /\
  playerInPortal
    (fst (checkPlayerEntry sample_distance2 (Some sample_traveller) sample_portal)) = true /\
  snd (checkPlayerEntry sample_distance2 (Some sample_traveller)
         (fst (checkPlayerEntry sample_distance2 (Some sample_traveller) sample_portal)))
  = false.
Proof.
  assert (T : snd (checkPlayerEntry sample_distance2 (Some sample_traveller) sample_portal)
              = true) by (vm_compute; reflexivity).
  split; [exact T|].
  destruct (checkPlayerEntry_once sample_distance2 sample_traveller sample_portal)
    as (_ & _ & _ & I & N & _).
  split; [exact (I T) | exact N].
Defined.

Lemma constructors_register_witness :
  is_new (ANewHazard origin 2) = true /\
  exists obj w',
    run sample_sin sample_cos sample_length (ANewHazard origin 2) w_level = (Normal tt, w') /\
    heap w' = heap w_level ++ [obj] /\ kind obj = KHazard /\ observedState obj = None /\
    collapseProbability obj = 0.7 /\ has_material_color obj (materials w') = false.
Proof.
  assert (N : is_new (ANewHazard origin 2) = true) by reflexivity.
  split; [exact N|].
  destruct (constructors_register sample_sin sample_cos sample_length (ANewHazard origin 2)
              w_level N)
    as (obj & m & mt & news & w' & E & H & _ & K & O & _ & P & _ & _ & _ & _ & _ & _ & C & _).
  exists obj, w'. split; [exact E|]. split; [exact H|]. split; [exact K|].
  split; [exact O|]. split; [exact P | exact C].
Defined.
